(** * Aether-Learning-Agent: window capture and synthetic input

    A shallow embedding of [utils/windows_capture.py] and
    [utils/windows_input.py], and of the two command-line tools that call
    them, [tools/capture_screen.py] and [tools/test_input.py].  Python
    integers are [Z]; Python floats are IEEE-754 binary64 values, given by
    the Standard Library's executable specification [SpecFloat]; exceptions
    are an error monad over an explicit world that records every call made
    to the operating system. *)

From Stdlib Require Import ZArith List String Ascii Bool Lia.
From Stdlib Require Import SpecFloat.
From Stdlib Require Import DecimalString.
Import ListNotations.

Set Implicit Arguments.

Local Open Scope Z_scope.

(** ** Exceptions and results *)

(** The [Exception] subclasses that the two modules raise or catch. *)
Inductive exn : Type :=
| ValueError
| OverflowError
| ZeroDivisionError
| IndexError
| ImportError
| OSError
| AttributeError
| FrozenInstanceError
| PyWinError        (* pywintypes.error: the window handle is not valid *)
| ScreenShotError.  (* mss.exception.ScreenShotError *)

Inductive result (A : Type) : Type :=
| Ok (a : A)
| Raise (e : exn).

Arguments Ok {A} a.
Arguments Raise {A} e.

Definition is_ok {A} (r : result A) : bool :=
  match r with Ok _ => true | Raise _ => false end.

(** A computation reads and updates a world of type [W] and either returns or
    raises; the world survives an exception. *)
Definition M (W A : Type) : Type := W -> result A * W.

Definition ret {W A} (a : A) : M W A := fun w => (Ok a, w).

Definition raise {W A} (e : exn) : M W A := fun w => (Raise e, w).

Definition bind {W A B} (m : M W A) (k : A -> M W B) : M W B :=
  fun w => match m w with
           | (Ok a, w') => k a w'
           | (Raise e, w') => (Raise e, w')
           end.

(** [try: m  except Exception: h]. *)
Definition try_except {W A} (m : M W A) (h : exn -> M W A) : M W A :=
  fun w => match m w with
           | (Ok a, w') => (Ok a, w')
           | (Raise e, w') => h e w'
           end.

(** Lifting of a pure fallible value. *)
Definition lift {W A} (r : result A) : M W A := fun w => (r, w).

Declare Scope py_scope.
Delimit Scope py_scope with py.
Notation "x <- m ;; k" := (bind m (fun x => k))
  (at level 61, m at next level, right associativity) : py_scope.
Notation "m ;;; k" := (bind m (fun _ => k))
  (at level 61, right associativity) : py_scope.

Local Open Scope py_scope.

(** ** Strings *)

(** [q in t] on Python strings: [q] occurs in [t] as a contiguous run. *)
Fixpoint str_contains (q t : string) : bool :=
  String.prefix q t ||
  match t with
  | EmptyString => false
  | String _ t' => str_contains q t'
  end.

(** The mathematical reading of "substring". *)
Definition is_substring (q t : string) : Prop :=
  exists pre post, t = (pre ++ q ++ post)%string.

(** ASCII lower-casing, the restriction of [str.lower] to ASCII text. *)
Definition ascii_lower_char (c : ascii) : ascii :=
  let n := nat_of_ascii c in
  if (andb (Nat.leb 65 n) (Nat.leb n 90)) then ascii_of_nat (n + 32) else c.

Fixpoint ascii_lower (s : string) : string :=
  match s with
  | EmptyString => EmptyString
  | String c s' => String (ascii_lower_char c) (ascii_lower s')
  end.

(** ** Python numbers *)

(** Python's [float] is IEEE-754 binary64: 53 bits of precision, exponents
    below 1024.  The operations are those of [SpecFloat], which round to
    nearest, ties to even. *)
Definition prec : Z := 53.
Definition emax : Z := 1024.

Definition float : Type := spec_float.

Definition fmul (x y : float) : float := SFmul prec emax x y.
Definition fadd (x y : float) : float := SFadd prec emax x y.
Definition fdiv (x y : float) : float := SFdiv prec emax x y.
Definition flt (x y : float) : bool := SFltb x y.

Definition is_nan (f : float) : bool :=
  match f with S754_nan => true | _ => false end.

Definition is_zero (f : float) : bool :=
  match f with S754_zero _ => true | _ => false end.

(** A zero or a finite non-zero number. *)
Definition is_finite (f : float) : bool :=
  match f with S754_zero _ | S754_finite _ _ _ => true | _ => false end.

Definition overflow_check (f : float) : result float :=
  match f with
  | S754_infinity _ => Raise OverflowError
  | _ => Ok f
  end.

(** [float(n)] for an [int] operand of mixed arithmetic: the nearest double,
    [OverflowError] when it is out of range. *)
Definition float_of_int (n : Z) : result float :=
  overflow_check (binary_normalize prec emax n 0 false).

(** [a / b] on two [int]s: the correctly rounded quotient.  The sign of a
    zero numerator follows the divisor. *)
Definition int_truediv (a b : Z) : result float :=
  if b =? 0 then Raise ZeroDivisionError
  else if a =? 0 then Ok (S754_zero (b <? 0))
  else
    let '(mz, ez, lz) := SFdiv_core_binary prec emax (Z.abs a) 0 (Z.abs b) 0 in
    overflow_check
      (binary_round_aux prec emax (xorb (a <? 0) (b <? 0)) mz ez lz).

(** [x / y] on two [float]s. *)
Definition float_truediv (x y : float) : result float :=
  if is_zero y then Raise ZeroDivisionError else Ok (fdiv x y).

(** [int(f)]: truncation toward zero. *)
Definition int_of_float (f : float) : result Z :=
  match f with
  | S754_nan => Raise ValueError
  | S754_infinity _ => Raise OverflowError
  | S754_zero _ => Ok 0
  | S754_finite s m e => Ok (cond_Zopp s (Z.shiftl (Zpos m) e))
  end.

(** [round(f)]: the nearest integer, ties to the even one. *)
Definition py_round (f : float) : result Z :=
  match f with
  | S754_nan => Raise ValueError
  | S754_infinity _ => Raise OverflowError
  | S754_zero _ => Ok 0
  | S754_finite s m e =>
      if 0 <=? e then Ok (cond_Zopp s (Z.shiftl (Zpos m) e))
      else
        let q := Z.shiftl (Zpos m) e in
        let r := Zpos m - Z.shiftl q (- e) in
        let up :=
          match Z.compare (2 * r) (Z.shiftl 1 (- e)) with
          | Lt => false
          | Gt => true
          | Eq => Z.odd q
          end in
        Ok (cond_Zopp s (if up then q + 1 else q))
  end.

(** *** Definitions used to reason about rounding *)

(** A shift record has lost a non-zero bit. *)
Definition inexact (mrs : shr_record) : bool := shr_r mrs || shr_s mrs.

(** The second half of [binary_round_aux]: the rounded mantissa [M] at
    exponent [E] is renormalised and packed. *)
Definition pack (s : bool) (M E : Z) : float :=
  let '(mrs, e) := shr_fexp prec emax M E loc_Exact in
  match shr_m mrs with
  | Z0 => S754_zero s
  | Zpos m => if e <=? emax - prec then S754_finite s m e
              else S754_infinity s
  | Zneg _ => S754_nan
  end.

(** The magnitude of [f], of sign [s], lies between the integers [lo] and
    [hi]. *)
Definition mag_between (lo hi : Z) (s : bool) (f : float) : Prop :=
  match f with
  | S754_zero s' => s' = s /\ lo <= 0 <= hi
  | S754_finite s' m e =>
      s' = s /\ e <= 0 /\ lo * 2 ^ (- e) <= Zpos m <= hi * 2 ^ (- e)
  | _ => False
  end.

(** The value of [f] lies between the integers [lo] and [hi]. *)
Definition SF_between (lo hi : Z) (f : float) : Prop :=
  match f with
  | S754_zero _ => lo <= 0 <= hi
  | S754_finite s m e =>
      e <= 0 /\
      lo * 2 ^ (- e) <= cond_Zopp s (Zpos m) <= hi * 2 ^ (- e)
  | _ => False
  end.

(** A decimal literal [num/den], read as the nearest double. *)
Definition float_lit (num den : Z) : float :=
  match int_truediv num den with
  | Ok f => f
  | Raise _ => S754_nan
  end.

Definition f_0_05 : float := Eval vm_compute in float_lit 5 100.
Definition f_0_02 : float := Eval vm_compute in float_lit 2 100.
Definition f_0_5 : float := Eval vm_compute in float_lit 1 2.

(** The ASCII characters that [str.isspace] accepts: the space, the
    controls 0x09 to 0x0d and the separators 0x1c to 0x1f. *)
Definition is_ascii_space (c : ascii) : bool :=
  let n := nat_of_ascii c in
  (Nat.eqb n 32) || (andb (Nat.leb 9 n) (Nat.leb n 13))
  || (andb (Nat.leb 28 n) (Nat.leb n 31)).

Fixpoint strip_left (s : string) : string :=
  match s with
  | EmptyString => EmptyString
  | String c s' => if is_ascii_space c then strip_left s' else s
  end.

Fixpoint strip_right (s : string) : string :=
  match s with
  | EmptyString => EmptyString
  | String c s' =>
      match strip_right s' with
      | EmptyString => if is_ascii_space c then EmptyString
                       else String c EmptyString
      | r => String c r
      end
  end.

(** ASCII whitespace stripping, the restriction of [str.strip] to ASCII. *)
Definition ascii_strip (s : string) : string := strip_right (strip_left s).

(** ** windows_capture.py *)

Module WindowsCapture.

(** *** Rect *)

(** [@dataclass(frozen=True) class Rect]. *)
Record Rect : Type := mkRect {
  left : Z;
  top : Z;
  right : Z;
  bottom : Z
}.

Definition width (r : Rect) : Z := Z.max 0 (right r - left r).

Definition height (r : Rect) : Z := Z.max 0 (bottom r - top r).

(** A frozen dataclass refuses every attribute assignment: the generated
    [__setattr__] raises [FrozenInstanceError] whatever the field and value. *)
Definition Rect_setattr (r : Rect) (name : string) (v : Z) : result Rect :=
  Raise FrozenInstanceError.

(** *** The platform *)

(** The process-wide DPI awareness that the two Windows calls try to set. *)
Inductive awareness : Type := SystemAware | PerMonitorAware.

(** The monitor dictionary handed to [sct.grab]. *)
Record Monitor : Type := mkMonitor {
  mon_left : Z;
  mon_top : Z;
  mon_width : Z;
  mon_height : Z
}.

(** A numpy array of shape (height, width, [nchan]): [rows] lists the pixels
    row by row, each pixel listing its channel samples. *)
Record frame : Type := mkFrame {
  nchan : nat;
  rows : list (list (list Z))
}.

(** Every pixel of the frame has exactly [nchan] samples and every row has
    [w] pixels: the array is rectangular. *)
Definition frame_shape (f : frame) (h w : nat) : Prop :=
  List.length (rows f) = h /\
  Forall (fun row => List.length row = w /\
                     Forall (fun px => List.length px = nchan f) row)
         (rows f).

(** Calls that reach the operating system or the capture library. *)
Inductive call : Type :=
| CallSetProcessDpiAwareness (v : Z)
| CallSetProcessDPIAware
| CallEnumWindows
| CallClientToScreen (hwnd : Z)
| CallGetClientRect (hwnd : Z)
| CallGetWindowRect (hwnd : Z)
| CallGrab (mon : Monitor).

(** The world: the awareness of the process and the calls made so far,
    oldest first. *)
Record world : Type := mkWorld {
  dpi : option awareness;
  calls : list call
}.

(** What the interpreter, the operating system and the third-party packages
    answer.  Nothing here is code of the repository. *)
Class Platform : Type := {
  str_lower : string -> string;                 (* str.lower *)
  str_strip : string -> string;                 (* str.strip *)
  os_name : string;                             (* os.name *)
  ctypes_importable : bool;
  shcore_SetProcessDpiAwareness :
    Z -> option awareness -> result Z * option awareness;
  user32_SetProcessDPIAware :
    option awareness -> result Z * option awareness;
  pywin32_importable : bool;
  top_level_windows : list Z;                   (* EnumWindows order *)
  IsWindowVisible : Z -> bool;
  GetWindowText : Z -> string;
  (* [None]: pywintypes.error, the handle is not a live window *)
  win32_ClientToScreen : Z -> Z * Z -> option (Z * Z);
  win32_GetClientRect : Z -> option (Z * Z * Z * Z);
  win32_GetWindowRect : Z -> option (Z * Z * Z * Z);
  mss_importable : bool;
  numpy_importable : bool;
  mss_monitors : list Monitor;                  (* sct.monitors *)
  (* [None]: mss raises ScreenShotError *)
  mss_grab : Monitor -> option frame
}.

Section Capture.
Context {P : Platform}.

Definition log (c : call) : M world unit :=
  fun w => (Ok tt, mkWorld (dpi w) (calls w ++ [c])).

Definition import_module (available : bool) : M world unit :=
  if available then ret tt else raise ImportError.

(** A call that may change the awareness of the process. *)
Definition dpi_call (c : call)
    (f : option awareness -> result Z * option awareness) : M world Z :=
  fun w => let '(r, d) := f (dpi w) in (r, mkWorld d (calls w ++ [c])).

(** The answer of a pywin32 call on a handle. *)
Definition win32_call {A} (c : call) (r : option A) : M world A :=
  log c ;;; match r with Some a => ret a | None => raise PyWinError end.

(** *** _try_set_dpi_awareness *)

(** The inner [try] of the per-monitor attempt ends in [return]: [true]
    records that the function is left there. *)
Definition _try_set_dpi_awareness : M world unit :=
  try_except
    (import_module ctypes_importable ;;;
     returned <-
       try_except
         (dpi_call (CallSetProcessDpiAwareness 2)
                   (shcore_SetProcessDpiAwareness 2) ;;; ret true)
         (fun _ => ret false) ;;
     if (returned : bool) then ret tt
     else
       try_except
         (dpi_call CallSetProcessDPIAware user32_SetProcessDPIAware ;;; ret tt)
         (fun _ => ret tt))
    (fun _ => ret tt).

(** The awareness that [_try_set_dpi_awareness] leaves when run from [d]. *)
Definition dpi_after (d : option awareness) : option awareness :=
  if ctypes_importable then
    let '(r1, d1) := shcore_SetProcessDpiAwareness 2 d in
    match r1 with
    | Ok _ => d1
    | Raise _ => snd (user32_SetProcessDPIAware d1)
    end
  else d.

Definition is_windows : bool := String.eqb os_name "nt"%string.

Definition _require_windows : M world unit :=
  if negb is_windows then raise OSError else ret tt.

Definition _require_pywin32 : M world unit :=
  try_except (import_module pywin32_importable) (fun _ => raise ImportError).

(** *** list_visible_windows and find_window_hwnd *)

(** The callback of [EnumWindows], threading the [results] list. *)
Definition enum_handler (results : list (Z * string)) (hwnd : Z)
    : list (Z * string) :=
  if negb (IsWindowVisible hwnd) then results
  else
    let title := str_strip (GetWindowText hwnd) in
    if String.eqb title EmptyString then results
    else results ++ [(hwnd, title)].

Definition list_visible_windows : M world (list (Z * string)) :=
  _require_windows ;;;
  _try_set_dpi_awareness ;;;
  _require_pywin32 ;;;
  log CallEnumWindows ;;;
  ret (fold_left enum_handler top_level_windows []).

Definition norm (case_sensitive : bool) (s : string) : string :=
  if case_sensitive then s else str_lower s.

(** The [for hwnd, title in windows] loop, with its two early returns. *)
Fixpoint find_first (q : string) (exact case_sensitive : bool)
    (windows : list (Z * string)) : option Z :=
  match windows with
  | [] => None
  | (hwnd, title) :: rest =>
      let t := norm case_sensitive title in
      if exact && String.eqb t q then Some hwnd
      else if negb exact && str_contains q t then Some hwnd
      else find_first q exact case_sensitive rest
  end.

Definition find_window_hwnd (title_query : string)
    (exact case_sensitive : bool) : M world (option Z) :=
  windows <- list_visible_windows ;;
  let q := norm case_sensitive title_query in
  ret (find_first q exact case_sensitive windows).

(** *** get_window_rect *)

Definition get_window_rect (hwnd : Z) (client_area : bool) : M world Rect :=
  _require_windows ;;;
  _try_set_dpi_awareness ;;;
  _require_pywin32 ;;;
  if client_area then
    left_top <- win32_call (CallClientToScreen hwnd)
                           (win32_ClientToScreen hwnd (0, 0)) ;;
    client <- win32_call (CallGetClientRect hwnd)
                         (win32_GetClientRect hwnd) ;;
    let '(c0, c1, c2, c3) := client in
    let w := c2 - c0 in
    let h := c3 - c1 in
    let '(l, t) := left_top in
    ret (mkRect l t (l + w) (t + h))
  else
    r <- win32_call (CallGetWindowRect hwnd) (win32_GetWindowRect hwnd) ;;
    let '(l, t, r', b) := r in
    ret (mkRect l t r' b).

(** *** Capture *)

Definition grab (mon : Monitor) : M world frame :=
  log (CallGrab mon) ;;;
  match mss_grab mon with
  | Some shot => ret shot
  | None => raise ScreenShotError
  end.

Definition capture_rect_bgra (rect : Rect) : M world frame :=
  try_except (import_module mss_importable) (fun _ => raise ImportError) ;;;
  let monitor := mkMonitor (left rect) (top rect) (width rect) (height rect) in
  shot <- grab monitor ;;
  import_module numpy_importable ;;;
  ret shot.

(** [frame_bgra[..., k]]: one channel of every pixel. *)
Definition take_channel (k : nat) (f : frame) : result (list (list Z)) :=
  if Nat.ltb k (nchan f)
  then Ok (map (map (fun px => nth k px 0)) (rows f))
  else Raise IndexError.

Fixpoint stack_row (r g b : list Z) : list (list Z) :=
  match r, g, b with
  | x :: r', y :: g', z :: b' => [x; y; z] :: stack_row r' g' b'
  | _, _, _ => []
  end.

(** [np.stack([r, g, b], axis=-1)] on three planes of one shape. *)
Fixpoint stack_last (r g b : list (list Z)) : list (list (list Z)) :=
  match r, g, b with
  | x :: r', y :: g', z :: b' => stack_row x y z :: stack_last r' g' b'
  | _, _, _ => []
  end.

(** The argument is [None] for Python's [None]. *)
Definition bgra_to_rgb (frame_bgra : option frame) : M world frame :=
  import_module numpy_importable ;;;
  match frame_bgra with
  | None => raise ValueError
  | Some f =>
      b <- lift (take_channel 0 f) ;;
      g <- lift (take_channel 1 f) ;;
      r <- lift (take_channel 2 f) ;;
      ret (mkFrame 3 (stack_last r g b))
  end.

Definition capture_window_rgb (hwnd : Z) (client_area : bool)
    : M world frame :=
  rect <- get_window_rect hwnd client_area ;;
  frame_bgra <- capture_rect_bgra rect ;;
  bgra_to_rgb (Some frame_bgra).

Definition capture_fullscreen_rgb (monitor_index : Z) : M world frame :=
  try_except (import_module mss_importable) (fun _ => raise ImportError) ;;;
  let n := Z.of_nat (List.length mss_monitors) in
  if (monitor_index <? 0) || (monitor_index >=? n) then raise ValueError
  else
    match nth_error mss_monitors (Z.to_nat monitor_index) with
    | None => raise IndexError
    | Some mon =>
        shot <- grab mon ;;
        import_module numpy_importable ;;;
        bgra_to_rgb (Some shot)
    end.

(** *** The operations as the specification words them *)

(** [CaptureRect]: capture the region, then reorder the channels. *)
Definition spec_CaptureRect (rect : Rect) : M world frame :=
  frame_bgra <- capture_rect_bgra rect ;;
  bgra_to_rgb (Some frame_bgra).

(** [CaptureWindow]: resolve the rectangle, then delegate to [CaptureRect]. *)
Definition spec_CaptureWindow (hwnd : Z) (client_area : bool)
    : M world frame :=
  rect <- get_window_rect hwnd client_area ;;
  spec_CaptureRect rect.

(** The condition under which an entry matches a query. *)
Definition spec_matches (q : string) (exact case_sensitive : bool)
    (title : string) : Prop :=
  if exact
  then norm case_sensitive title = norm case_sensitive q
  else is_substring (norm case_sensitive q) (norm case_sensitive title).

(** A pixel with its first three samples in reverse order. *)
Definition swap_px (px : list Z) : list Z :=
  [nth 2 px 0; nth 1 px 0; nth 0 px 0].

(** The pixel at row [i], column [j]. *)
Definition pixel (f : frame) (i j : nat) : option (list Z) :=
  match nth_error (rows f) i with
  | Some row => nth_error row j
  | None => None
  end.

End Capture.

(** *** A sample platform *)

(** A Windows desktop with three titled windows, one hidden window and one
    untitled window, two monitors, and the set-once awareness of Windows: a
    request made once an awareness is set is answered with an error code and
    changes nothing. *)
Definition sample_frame : frame :=
  mkFrame 4 [[[7; 0; 0; 255]; [9; 0; 0; 255]]; [[3; 0; 0; 255]; [0; 0; 0; 255]]].

Definition sample_titles (hwnd : Z) : string :=
  if hwnd =? 100 then "Foo"%string
  else if hwnd =? 200 then "FooBar"%string
  else if hwnd =? 300 then "Baz"%string
  else if hwnd =? 50 then "Hidden"%string
  else "  "%string.

Definition sample_live (hwnd : Z) : bool :=
  existsb (Z.eqb hwnd) [50; 100; 150; 200; 300].

Definition set_once (a : awareness) (d : option awareness)
    : result Z * option awareness :=
  match d with
  | None => (Ok 0, Some a)
  | Some _ => (Ok (-2147024891), d)   (* E_ACCESSDENIED *)
  end.

Definition sample_platform : Platform := {|
  str_lower := ascii_lower;
  str_strip := ascii_strip;
  os_name := "nt"%string;
  ctypes_importable := true;
  shcore_SetProcessDpiAwareness := fun _ => set_once PerMonitorAware;
  user32_SetProcessDPIAware := set_once SystemAware;
  pywin32_importable := true;
  top_level_windows := [50; 100; 150; 200; 300];
  IsWindowVisible := fun hwnd => negb (hwnd =? 50);
  GetWindowText := sample_titles;
  win32_ClientToScreen :=
    fun hwnd pt => if sample_live hwnd
                   then Some (fst pt + 8, snd pt + 31) else None;
  win32_GetClientRect :=
    fun hwnd => if sample_live hwnd then Some (0, 0, 2, 2) else None;
  win32_GetWindowRect :=
    fun hwnd => if sample_live hwnd then Some (0, 0, 18, 41) else None;
  mss_importable := true;
  numpy_importable := true;
  mss_monitors := [mkMonitor 0 0 3840 1080; mkMonitor 0 0 1920 1080;
                   mkMonitor 1920 0 1920 1080];
  mss_grab := fun _ => Some sample_frame
|}.

Definition world0 : world := mkWorld None [].

(** The sample desktop under another operating system name, or with some of
    the third-party packages missing. *)
Definition sample_platform_with (os : string) (pywin32 mss numpy : bool)
    : Platform := {|
  str_lower := ascii_lower;
  str_strip := ascii_strip;
  os_name := os;
  ctypes_importable := true;
  shcore_SetProcessDpiAwareness := fun _ => set_once PerMonitorAware;
  user32_SetProcessDPIAware := set_once SystemAware;
  pywin32_importable := pywin32;
  top_level_windows := [50; 100; 150; 200; 300];
  IsWindowVisible := fun hwnd => negb (hwnd =? 50);
  GetWindowText := sample_titles;
  win32_ClientToScreen :=
    fun hwnd pt => if sample_live hwnd
                   then Some (fst pt + 8, snd pt + 31) else None;
  win32_GetClientRect :=
    fun hwnd => if sample_live hwnd then Some (0, 0, 2, 2) else None;
  win32_GetWindowRect :=
    fun hwnd => if sample_live hwnd then Some (0, 0, 18, 41) else None;
  mss_importable := mss;
  numpy_importable := numpy;
  mss_monitors := [mkMonitor 0 0 3840 1080; mkMonitor 0 0 1920 1080;
                   mkMonitor 1920 0 1920 1080];
  mss_grab := fun _ => Some sample_frame
|}.

(** A call that is not a screen grab. *)
Definition not_grab (c : call) : Prop :=
  match c with CallGrab _ => False | _ => True end.

(** A frame of three channels. *)
Definition sample_rgb : frame :=
  mkFrame 3 [[[1; 2; 3]; [4; 5; 6]]; [[7; 8; 9]; [10; 11; 12]]].

End WindowsCapture.

(** ** windows_input.py *)

Module WindowsInput.

Definition INPUT_MOUSE : Z := 0.
Definition INPUT_KEYBOARD : Z := 1.
Definition INPUT_HARDWARE : Z := 2.

Definition MOUSEEVENTF_MOVE : Z := 0x0001.
Definition MOUSEEVENTF_LEFTDOWN : Z := 0x0002.
Definition MOUSEEVENTF_LEFTUP : Z := 0x0004.
Definition MOUSEEVENTF_RIGHTDOWN : Z := 0x0008.
Definition MOUSEEVENTF_RIGHTUP : Z := 0x0010.
Definition MOUSEEVENTF_MIDDLEDOWN : Z := 0x0020.
Definition MOUSEEVENTF_MIDDLEUP : Z := 0x0040.
Definition MOUSEEVENTF_ABSOLUTE : Z := 0x8000.

(** ctypes stores an [int] in a [c_long] field without a range check: on
    Windows the value is reduced to 32 bits, two's complement. *)
Definition c_long (z : Z) : Z := (z + 2 ^ 31) mod 2 ^ 32 - 2 ^ 31.

Definition c_ulong (z : Z) : Z := z mod 2 ^ 32.

Record MOUSEINPUT : Type := mkMOUSEINPUT {
  dx : Z;
  dy : Z;
  mouseData : Z;
  dwFlags : Z;
  time : Z;
  dwExtraInfo : Z
}.

Record KEYBDINPUT : Type := mkKEYBDINPUT {
  wVk : Z;
  wScan : Z;
  ki_dwFlags : Z;
  ki_time : Z;
  ki_dwExtraInfo : Z
}.

Record HARDWAREINPUT : Type := mkHARDWAREINPUT {
  uMsg : Z;
  wParamL : Z;
  wParamH : Z
}.

Inductive INPUT_UNION : Type :=
| mi (m : MOUSEINPUT)
| ki (k : KEYBDINPUT)
| hi (h : HARDWAREINPUT).

Record INPUT : Type := mkINPUT {
  type : Z;
  union : INPUT_UNION
}.

(** What the process does to the outside, oldest first. *)
Inductive event : Type :=
| SendInput (inputs : list INPUT)
| Sleep (secs : float).

(** The primary screen, as [GetSystemMetrics(0)] and [GetSystemMetrics(1)]
    report it. *)
Class Screen : Type := {
  SM_CXSCREEN : Z;
  SM_CYSCREEN : Z
}.

Section Input.
Context {S : Screen}.

Definition emit (e : event) : M (list event) unit :=
  fun tr => (Ok tt, tr ++ [e]).

Definition _send_input (inputs : list INPUT) : M (list event) unit :=
  emit (SendInput inputs).

(** [time.sleep]: a negative or NaN delay is refused with [ValueError].  A
    delay too long for the clock of the interpreter, of either sign and an
    infinite one included, is refused with [OverflowError] instead; that
    bound depends on the interpreter (about 9.2e9 s where the clock counts
    nanoseconds in 64 bits, about 4.29e6 s where Windows counts milliseconds
    in 32 bits) and is left out: the definition is the function for delays
    that are NaN or of magnitude up to 2^22 s.  The delays of [drag] are
    0.05 s and [duration / steps], which is below that bound whenever the
    duration is not negative and the step count is defined. *)
Definition sleep (secs : float) : M (list event) unit :=
  if is_nan secs || flt secs (S754_zero false) then raise ValueError
  else emit (Sleep secs).

Definition _get_screen_size : Z * Z := (SM_CXSCREEN, SM_CYSCREEN).

Definition _to_absolute_coords (x y : Z) : result (Z * Z) :=
  let '(width, height) := _get_screen_size in
  match int_truediv (x * 65535) width with
  | Raise e => Raise e
  | Ok qx =>
      match int_of_float qx with
      | Raise e => Raise e
      | Ok abs_x =>
          match int_truediv (y * 65535) height with
          | Raise e => Raise e
          | Ok qy =>
              match int_of_float qy with
              | Raise e => Raise e
              | Ok abs_y => Ok (abs_x, abs_y)
              end
          end
      end
  end.

(** The [INPUT] that [move_mouse] builds from absolute coordinates. *)
Definition move_input (abs_x abs_y : Z) : INPUT :=
  mkINPUT INPUT_MOUSE
    (mi (mkMOUSEINPUT (c_long abs_x) (c_long abs_y) 0
           (c_ulong (Z.lor MOUSEEVENTF_MOVE MOUSEEVENTF_ABSOLUTE)) 0 0)).

Definition button_input (flags : Z) : INPUT :=
  mkINPUT INPUT_MOUSE (mi (mkMOUSEINPUT 0 0 0 (c_ulong flags) 0 0)).

Definition move_mouse (x y : Z) : M (list event) unit :=
  a <- lift (_to_absolute_coords x y) ;;
  let '(abs_x, abs_y) := a in
  _send_input [move_input abs_x abs_y].

Definition mouse_down (left : bool) : M (list event) unit :=
  let flags := if left then MOUSEEVENTF_LEFTDOWN else MOUSEEVENTF_RIGHTDOWN in
  _send_input [button_input flags].

Definition mouse_up (left : bool) : M (list event) unit :=
  let flags := if left then MOUSEEVENTF_LEFTUP else MOUSEEVENTF_RIGHTUP in
  _send_input [button_input flags].

Definition click_at (x y : Z) (duration : float) : M (list event) unit :=
  move_mouse x y ;;;
  sleep f_0_02 ;;;
  mouse_down true ;;;
  sleep duration ;;;
  mouse_up true.

(** [max(10, int(duration * 60))]. *)
Definition drag_steps (duration : float) : result Z :=
  match float_of_int 60 with
  | Raise e => Raise e
  | Ok sixty =>
      match int_of_float (fmul duration sixty) with
      | Raise e => Raise e
      | Ok n => Ok (Z.max 10 n)
      end
  end.

(** [int(start + (end - start) * t)] with [t = (i + 1) / steps]. *)
Definition interpolate (start end_ i steps : Z) : result Z :=
  match int_truediv (i + 1) steps with
  | Raise e => Raise e
  | Ok t =>
      match float_of_int (end_ - start) with
      | Raise e => Raise e
      | Ok d =>
          match float_of_int start with
          | Raise e => Raise e
          | Ok s => int_of_float (fadd s (fmul d t))
          end
      end
  end.

(** The body of [for i in range(steps)], for the indices of [is]. *)
Fixpoint drag_loop (start_x start_y end_x end_y : Z) (duration : float)
    (steps : Z) (indices : list Z) : M (list event) unit :=
  match indices with
  | [] => ret tt
  | i :: rest =>
      curr_x <- lift (interpolate start_x end_x i steps) ;;
      curr_y <- lift (interpolate start_y end_y i steps) ;;
      move_mouse curr_x curr_y ;;;
      pause <- lift (match float_of_int steps with
                     | Raise e => Raise e
                     | Ok fs => float_truediv duration fs
                     end) ;;
      sleep pause ;;;
      drag_loop start_x start_y end_x end_y duration steps rest
  end.

(** [range(n)]. *)
Definition range (n : Z) : list Z :=
  map Z.of_nat (seq 0 (Z.to_nat n)).

Definition drag (start_x start_y end_x end_y : Z) (duration : float)
    : M (list event) unit :=
  move_mouse start_x start_y ;;;
  sleep f_0_05 ;;;
  mouse_down true ;;;
  sleep f_0_05 ;;;
  steps <- lift (drag_steps duration) ;;
  drag_loop start_x start_y end_x end_y duration steps (range steps) ;;;
  move_mouse end_x end_y ;;;
  sleep f_0_05 ;;;
  mouse_up true.

(** *** The operations as the specification words them *)

(** [abs = round(pixel * 65535 / screenDimension)], for x and for y. *)
Definition spec_to_absolute (x y : Z) : result (Z * Z) :=
  match int_truediv (x * 65535) SM_CXSCREEN with
  | Raise e => Raise e
  | Ok qx =>
      match py_round qx with
      | Raise e => Raise e
      | Ok abs_x =>
          match int_truediv (y * 65535) SM_CYSCREEN with
          | Raise e => Raise e
          | Ok qy =>
              match py_round qy with
              | Raise e => Raise e
              | Ok abs_y => Ok (abs_x, abs_y)
              end
          end
      end
  end.

(** The event of a pointer move to the pixel [(x, y)], on a screen where
    the conversion is the truncated quotient. *)
Definition move_event (x y : Z) : event :=
  SendInput [move_input (Z.quot (x * 65535) SM_CXSCREEN)
                        (Z.quot (y * 65535) SM_CYSCREEN)].

Definition down_event : event :=
  SendInput [button_input MOUSEEVENTF_LEFTDOWN].

Definition up_event : event :=
  SendInput [button_input MOUSEEVENTF_LEFTUP].

(** The absolute coordinates of the last pointer move of a trace. *)
Fixpoint last_move (tr : list event) (acc : option (Z * Z))
    : option (Z * Z) :=
  match tr with
  | [] => acc
  | SendInput [{| type := _; union := mi m |}] :: rest =>
      if Z.eqb (Z.land (dwFlags m) MOUSEEVENTF_MOVE) 0
      then last_move rest acc
      else last_move rest (Some (dx m, dy m))
  | _ :: rest => last_move rest acc
  end.

End Input.

(** The pixel [(x, y)] lies in the bounding box of the two ends. *)
Definition in_box (sx sy ex ey : Z) (p : Z * Z) : Prop :=
  Z.min sx ex <= fst p <= Z.max sx ex /\
  Z.min sy ey <= snd p <= Z.max sy ey.

(** The pixel [p] is what the loop computes at step [i]. *)
Definition waypoint_at (sx sy ex ey steps i : Z) (p : Z * Z) : Prop :=
  interpolate sx ex i steps = Ok (fst p) /\
  interpolate sy ey i steps = Ok (snd p).

(** [steps = max(10, round(duration_seconds * 60))]. *)
Definition spec_steps (duration : float) : result Z :=
  match float_of_int 60 with
  | Raise e => Raise e
  | Ok sixty =>
      match py_round (fmul duration sixty) with
      | Raise e => Raise e
      | Ok n => Ok (Z.max 10 n)
      end
  end.

(** *** Sample screens and durations *)

Definition screen_1920x1080 : Screen :=
  {| SM_CXSCREEN := 1920; SM_CYSCREEN := 1080 |}.

Definition screen_1366x768 : Screen :=
  {| SM_CXSCREEN := 1366; SM_CYSCREEN := 768 |}.

Definition f_60 : float := Eval vm_compute in float_lit 60 1.

Definition f_0_51 : float := Eval vm_compute in float_lit 51 100.

Definition f_neg_1 : float := Eval vm_compute in float_lit (-1) 1.

(** [GetSystemMetrics] answers 0 when it fails. *)
Definition screen_unknown : Screen :=
  {| SM_CXSCREEN := 0; SM_CYSCREEN := 0 |}.

(** The computation only adds events to the trace, and none of them is the
    release of the left button. *)
Definition holds_button {A} (m : M (list event) A) : Prop :=
  forall tr, exists added,
    snd (m tr) = tr ++ added /\ ~ In up_event added.

(** The computation only adds events to the trace; the release of the left
    button is among them exactly when the computation completes, and it is
    then the last of them. *)
Definition releases_last (m : M (list event) unit) : Prop :=
  forall tr, exists added,
    snd (m tr) = tr ++ added /\
    (fst (m tr) = Ok tt ->
     exists pre, added = pre ++ [up_event] /\ ~ In up_event pre) /\
    (fst (m tr) <> Ok tt -> ~ In up_event added).

End WindowsInput.

(** ** The command-line tools *)

(** [str(n)] of an [int]: its decimal digits, after a minus sign when it is
    negative. *)
Definition str_of_int (n : Z) : string := NilZero.string_of_int (Z.to_int n).

(** [x or ""] on an optional string. *)
Definition or_empty (x : option string) : string :=
  match x with Some s => s | None => EmptyString end.

(** The truth value of a string: it is not empty. *)
Definition truthy (s : string) : bool := negb (String.eqb s EmptyString).

(** The horizontal tab of the [list] output. *)
Definition tab : string := String (ascii_of_nat 9) EmptyString.

(** How a run of [main] ends: it returns an exit code, [argparse] leaves
    with [SystemExit], or an exception escapes. *)
Inductive outcome : Type :=
| Return (code : Z)
| SystemExit (code : Z)
| Uncaught (e : exn).

Definition finish (r : result Z) : outcome :=
  match r with Ok code => Return code | Raise e => Uncaught e end.

(** [_ensure_repo_root_on_syspath], the same in both tools, on [sys.path];
    [repo_root_str] is [str(Path(__file__).resolve().parent.parent)]. *)
Definition _ensure_repo_root_on_syspath (repo_root_str : string)
    : M (list string) unit :=
  fun sys_path =>
    if negb (existsb (String.eqb repo_root_str) sys_path)
    then (Ok tt, repo_root_str :: sys_path)
    else (Ok tt, sys_path).

(** *** tools/capture_screen.py *)

Module CaptureScreen.
Import WindowsCapture.

(** The arguments as [argparse] hands them over.  The attributes of both
    sub-commands are gathered in one record; each branch of [main] reads
    those of its own sub-command only. *)
Record Namespace (Path : Type) : Type := mkNamespace {
  cmd : string;
  contains : option string;
  window_title : option string;
  monitor : option Z;
  exact : bool;
  include_borders : bool;
  out : Path
}.

(** What [pathlib], the file system, Pillow and [argparse] answer. *)
Class Host : Type := {
  Path : Type;
  Image : Type;                                 (* PIL.Image.Image *)
  FS : Type;                                    (* the file system *)
  path_exists : FS -> Path -> bool;             (* Path.exists *)
  path_stem : Path -> string;
  path_suffix : Path -> string;
  path_parent : Path -> Path;
  path_join : Path -> string -> Path;           (* parent / name *)
  path_str : Path -> string;                    (* str(path) *)
  (* parent.mkdir(parents=True, exist_ok=True) *)
  path_mkdir : Path -> FS -> result unit * FS;
  pillow_importable : bool;
  Image_fromarray : frame -> result Image;
  Image_save : Image -> string -> FS -> result unit * FS;
  str_repr : string -> string;                  (* repr of a str *)
  (* [inr code]: argparse prints its message and raises SystemExit *)
  parse_args : list string -> Namespace Path + Z
}.

Section Tool.
Context {P : Platform} {H : Host}.

(** What the tool does besides capturing, oldest first. *)
Inductive action : Type :=
| Stdout (line : string)
| Stderr (line : string)
| Mkdir (p : Path)
| SavePng (img : Image) (path : string).

Record host_world : Type := mkHost {
  capture : world;
  fs : FS;
  actions : list action
}.

(** A computation of [windows_capture] run inside the tool. *)
Definition in_capture {A} (m : M world A) : M host_world A :=
  fun hw => let '(r, w) := m (capture hw) in
            (r, mkHost w (fs hw) (actions hw)).

Definition act (a : action) : M host_world unit :=
  fun hw => (Ok tt, mkHost (capture hw) (fs hw) (actions hw ++ [a])).

Definition print (line : string) : M host_world unit := act (Stdout line).

Definition print_stderr (line : string) : M host_world unit :=
  act (Stderr line).

(** A call that may change the file system. *)
Definition fs_call (a : action) (f : FS -> result unit * FS)
    : M host_world unit :=
  fun hw => let '(r, s) := f (fs hw) in
            (r, mkHost (capture hw) s (actions hw ++ [a])).

(** [save_rgb_png] of [windows_capture.py]. *)
Definition save_rgb_png (rgb : frame) (path : string) : M host_world unit :=
  (if pillow_importable then ret tt else raise ImportError) ;;;
  img <- lift (Image_fromarray rgb) ;;
  fs_call (SavePng img path) (Image_save img path).

(** The candidate [parent / f"{stem}{idx}{suffix}"]. *)
Definition candidate (path : Path) (idx : Z) : Path :=
  path_join (path_parent path)
    (path_stem path ++ str_of_int idx ++ path_suffix path)%string.

(** The [while True] loop of [_resolve_unique_path], from [idx] on: [None]
    when no free candidate is met within [fuel] iterations. *)
Fixpoint first_free (fuel : nat) (s : FS) (path : Path) (idx : Z)
    : option Path :=
  match fuel with
  | O => None
  | S fuel' =>
      if negb (path_exists s (candidate path idx))
      then Some (candidate path idx)
      else first_free fuel' s path (idx + 1)
  end.

Definition _resolve_unique_path (fuel : nat) (s : FS) (path : Path)
    : option Path :=
  if negb (path_exists s path) then Some path
  else first_free fuel s path 1.

(** The [for hwnd, title in items] loop of the [list] command. *)
Fixpoint list_loop (q : string) (items : list (Z * string))
    : M host_world unit :=
  match items with
  | [] => ret tt
  | (hwnd, title) :: rest =>
      (if truthy q && negb (str_contains q (str_lower title))
       then ret tt
       else print (str_of_int hwnd ++ tab ++ title)%string) ;;;
      list_loop q rest
  end.

Definition list_command (args : Namespace Path) : M host_world Z :=
  items <- in_capture list_visible_windows ;;
  let q := str_strip (str_lower (or_empty (contains args))) in
  list_loop q items ;;;
  ret 0.

(** The [capture] command once the output path is resolved. *)
Definition capture_command (args : Namespace Path) (out_path : Path)
    : M host_world Z :=
  fs_call (Mkdir (path_parent out_path)) (path_mkdir (path_parent out_path)) ;;;
  if truthy (or_empty (window_title args)) then
    let title := or_empty (window_title args) in
    hwnd <- in_capture (find_window_hwnd title (exact args) false) ;;
    match hwnd with
    | None =>
        print_stderr ("Could not find a visible window matching: "
                        ++ str_repr title)%string ;;;
        ret 2
    | Some hwnd =>
        rgb <- in_capture
                 (capture_window_rgb hwnd (negb (include_borders args))) ;;
        save_rgb_png rgb (path_str out_path) ;;;
        print ("Saved " ++ path_str out_path ++ " from hwnd="
                 ++ str_of_int hwnd)%string ;;;
        ret 0
    end
  else
    match monitor args with
    | Some m =>
        rgb <- in_capture (capture_fullscreen_rgb m) ;;
        save_rgb_png rgb (path_str out_path) ;;;
        print ("Saved " ++ path_str out_path ++ " from monitor="
                 ++ str_of_int m)%string ;;;
        ret 0
    | None => ret 2
    end.

(** [main]: [None] when the search for a free output name does not end
    within [fuel] iterations. *)
Definition main (fuel : nat) (argv : list string) (hw : host_world)
    : option (outcome * host_world) :=
  match parse_args argv with
  | inr code => Some (SystemExit code, hw)
  | inl args =>
      if String.eqb (cmd args) "list" then
        let '(r, hw') := list_command args hw in Some (finish r, hw')
      else if String.eqb (cmd args) "capture" then
        match _resolve_unique_path fuel (fs hw) (out args) with
        | None => None
        | Some out_path =>
            let '(r, hw') := capture_command args out_path hw in
            Some (finish r, hw')
        end
      else Some (Return 2, hw)
  end.

End Tool.
End CaptureScreen.

(** *** tools/test_input.py *)

Module TestInput.
Import WindowsCapture WindowsInput.

Record Namespace : Type := mkNamespace {
  window_title : string;
  cmd : string;
  dx : Z;
  dy : Z
}.

(** What [argparse] answers: the arguments, or the code of its
    [SystemExit]. *)
Class Args : Type := {
  parse_args : list string -> Namespace + Z
}.

Definition f_2 : float := Eval vm_compute in float_lit 2 1.
Definition f_1 : float := Eval vm_compute in float_lit 1 1.

Section Tool.
Context {P : Platform} {S : Screen} {A : Args}.

Record tool_world : Type := mkTool {
  capture : world;
  trace : list event;
  stdout : list string
}.

Definition in_capture {T} (m : M world T) : M tool_world T :=
  fun tw => let '(r, w) := m (capture tw) in
            (r, mkTool w (trace tw) (stdout tw)).

Definition in_input {T} (m : M (list event) T) : M tool_world T :=
  fun tw => let '(r, tr) := m (trace tw) in
            (r, mkTool (capture tw) tr (stdout tw)).

Definition print (line : string) : M tool_world unit :=
  fun tw => (Ok tt, mkTool (capture tw) (trace tw) (stdout tw ++ [line])).

(** [repr] of a [Rect], as the dataclass generates it. *)
Definition Rect_repr (r : Rect) : string :=
  ("Rect(left=" ++ str_of_int (left r) ++ ", top=" ++ str_of_int (top r)
     ++ ", right=" ++ str_of_int (right r) ++ ", bottom="
     ++ str_of_int (bottom r) ++ ")")%string.

(** [int(origin + extent / 2)]. *)
Definition center (origin extent : Z) : result Z :=
  match int_truediv extent 2 with
  | Raise e => Raise e
  | Ok half =>
      match float_of_int origin with
      | Raise e => Raise e
      | Ok o => int_of_float (fadd o half)
      end
  end.

(** [f"({x}, {y})"]. *)
Definition point_str (x y : Z) : string :=
  ("(" ++ str_of_int x ++ ", " ++ str_of_int y ++ ")")%string.

(** [not hwnd]: [None] or the handle 0. *)
Definition falsy (hwnd : option Z) : bool :=
  match hwnd with None => true | Some h => h =? 0 end.

Definition main_body (args : Namespace) : M tool_world Z :=
  hwnd <- in_capture (find_window_hwnd (window_title args) false false) ;;
  if falsy hwnd then
    print ("Window '" ++ window_title args ++ "' not found.")%string ;;;
    ret 1
  else
    let hwnd := match hwnd with Some h => h | None => 0 end in
    rect <- in_capture (get_window_rect hwnd true) ;;
    print ("Found window at: " ++ Rect_repr rect)%string ;;;
    center_x <- lift (center (left rect) (width rect)) ;;
    center_y <- lift (center (top rect) (height rect)) ;;
    (if String.eqb (cmd args) "click-center" then
       print ("Clicking at " ++ point_str center_x center_y
                ++ " in 2 seconds...")%string ;;;
       in_input (sleep f_2) ;;;
       in_input (click_at center_x center_y f_0_05) ;;;
       print "Clicked."%string
     else if String.eqb (cmd args) "drag-test" then
       let '(start_x, start_y) := (center_x, center_y) in
       let '(end_x, end_y) := (center_x + dx args, center_y + dy args) in
       print ("Dragging from " ++ point_str start_x start_y ++ " to "
                ++ point_str end_x end_y ++ " in 2 seconds...")%string ;;;
       in_input (sleep f_2) ;;;
       in_input (drag start_x start_y end_x end_y f_1) ;;;
       print "Dragged."%string
     else ret tt) ;;;
    ret 0.

Definition main (argv : list string) (tw : tool_world)
    : outcome * tool_world :=
  match parse_args argv with
  | inr code => (SystemExit code, tw)
  | inl args => let '(r, tw') := main_body args tw in (finish r, tw')
  end.

End Tool.
End TestInput.

(** *** A sample host *)

Module ToolSamples.
Import WindowsCapture.

(** [name[name.rfind("."):]], or [None] when [name] holds no dot. *)
Fixpoint last_dot_tail (name : string) : option string :=
  match name with
  | EmptyString => None
  | String c rest =>
      match last_dot_tail rest with
      | Some t => Some t
      | None => if Ascii.eqb c "." then Some name else None
      end
  end.

(** The suffix of a file name as [pathlib] reads it: the text from the last
    dot on, unless that dot opens or closes the name. *)
Definition name_suffix (name : string) : string :=
  match name with
  | EmptyString => EmptyString
  | String _ rest =>
      match last_dot_tail rest with
      | Some t => if (1 <? String.length t)%nat then t else EmptyString
      | None => EmptyString
      end
  end.

Definition name_stem (name : string) : string :=
  substring 0 (String.length name - String.length (name_suffix name)) name.

Definition dot : string := ".".

(** [repr] of a [str] of ASCII characters: between apostrophes, or between
    double quotes when the text holds an apostrophe and no double quote;
    the backslash and the quote in use are escaped, and so are the control
    characters. *)
Definition squote : ascii := "'"%char.
Definition dquote : ascii := ascii_of_nat 34.
Definition backslash : ascii := ascii_of_nat 92.

Fixpoint has_char (c : ascii) (s : string) : bool :=
  match s with
  | EmptyString => false
  | String d rest => Ascii.eqb c d || has_char c rest
  end.

Definition hex_digit (n : nat) : ascii :=
  nth n (list_ascii_of_string "0123456789abcdef") "0"%char.

Definition repr_char (q c : ascii) : string :=
  let n := nat_of_ascii c in
  if Ascii.eqb c backslash || Ascii.eqb c q
  then String backslash (String c EmptyString)
  else if Nat.eqb n 9 then String backslash "t"
  else if Nat.eqb n 10 then String backslash "n"
  else if Nat.eqb n 13 then String backslash "r"
  else if Nat.ltb n 32 || Nat.eqb n 127
  then String backslash
         (String "x" (String (hex_digit (Nat.div n 16))
                        (String (hex_digit (Nat.modulo n 16)) EmptyString)))
  else String c EmptyString.

Fixpoint repr_body (q : ascii) (s : string) : string :=
  match s with
  | EmptyString => String q EmptyString
  | String c rest => (repr_char q c ++ repr_body q rest)%string
  end.

Definition py_repr (s : string) : string :=
  let q := if has_char squote s && negb (has_char dquote s)
           then dquote else squote in
  String q (repr_body q s).

(** One flat directory: a path is the name of an entry, [dot] the directory
    itself, whose name is empty; the file system is the list of the
    entries; every frame of three channels can be saved. *)
Definition flat_host (parse : list string -> CaptureScreen.Namespace string + Z)
    : CaptureScreen.Host := {|
  CaptureScreen.Path := string;
  CaptureScreen.Image := frame;
  CaptureScreen.FS := list string;
  CaptureScreen.path_exists :=
    fun s p => String.eqb p dot || existsb (String.eqb p) s;
  CaptureScreen.path_stem :=
    fun p => if String.eqb p dot then EmptyString else name_stem p;
  CaptureScreen.path_suffix :=
    fun p => if String.eqb p dot then EmptyString else name_suffix p;
  CaptureScreen.path_parent := fun _ => dot;
  CaptureScreen.path_join := fun _ name => name;
  CaptureScreen.path_str := fun p => p;
  CaptureScreen.path_mkdir := fun _ s => (Ok tt, s);
  CaptureScreen.pillow_importable := true;
  CaptureScreen.Image_fromarray :=
    fun f => if Nat.eqb (nchan f) 3 then Ok f else Raise ValueError;
  CaptureScreen.Image_save := fun _ path s => (Ok tt, path :: s);
  CaptureScreen.str_repr := py_repr;
  CaptureScreen.parse_args := parse
|}.

(** The command lines [list], [list --contains Q],
    [capture --window-title T] and [capture --monitor N], the other options
    left at their defaults; the sample reads no other command line, and
    answers as [argparse] does to one it refuses. *)
Definition parse_capture_screen (argv : list string)
    : CaptureScreen.Namespace string + Z :=
  match argv with
  | [c] =>
      if String.eqb c "list" then
        inl (CaptureScreen.mkNamespace "list" (Some EmptyString) None None
               false false "capture.png"%string)
      else inr 2
  | [c; flag; v] =>
      if String.eqb c "list" && String.eqb flag "--contains" then
        inl (CaptureScreen.mkNamespace "list" (Some v) None None false false
               "capture.png"%string)
      else if String.eqb c "capture" && String.eqb flag "--window-title" then
        inl (CaptureScreen.mkNamespace "capture" None (Some v) None false
               false "capture.png"%string)
      else if String.eqb c "capture" && String.eqb flag "--monitor" then
        match NilZero.int_of_string v with
        | Some d =>
            inl (CaptureScreen.mkNamespace "capture" None None
                   (Some (Z.of_int d)) false false "capture.png"%string)
        | None => inr 2
        end
      else inr 2
  | _ => inr 2
  end.

Definition sample_host : CaptureScreen.Host := flat_host parse_capture_screen.

(** The sample desktop with two earlier captures in the directory. *)
Definition host0 : @CaptureScreen.host_world sample_host :=
  @CaptureScreen.mkHost sample_host world0
    ["capture.png"; "capture1.png"]%string [].

(** The command lines [click-center] and [drag-test], alone or after
    [--window-title T], the deltas left at their defaults; the sample reads
    no other command line, and answers as [argparse] does to one it
    refuses. *)
Definition parse_test_input (argv : list string) : TestInput.Namespace + Z :=
  match argv with
  | [c] =>
      if String.eqb c "click-center" || String.eqb c "drag-test"
      then inl (TestInput.mkNamespace "Clash Royale" c 100 0)
      else inr 2
  | [flag; t; c] =>
      if String.eqb flag "--window-title" &&
         (String.eqb c "click-center" || String.eqb c "drag-test")
      then inl (TestInput.mkNamespace t c 100 0)
      else inr 2
  | _ => inr 2
  end.

Definition sample_args : TestInput.Args :=
  {| TestInput.parse_args := parse_test_input |}.

Definition tool0 : TestInput.tool_world := TestInput.mkTool world0 [] [].

End ToolSamples.

(** * Properties *)

(** ** Strings *)

Lemma prefix_spec (q t : string) :
  String.prefix q t = true <-> exists post, t = (q ++ post)%string.
Proof.
  revert t; induction q as [|c q IH]; intros t; simpl.
  - split; [intros _; exists t; reflexivity | intros _; now destruct t].
  - destruct t as [|d t]; simpl.
    + split; [discriminate | intros [post H]; discriminate].
    + destruct (Ascii.ascii_dec c d) as [->|Hne].
      * rewrite IH. split; intros [post H]; exists post.
        -- now rewrite H.
        -- now injection H.
      * split; [discriminate|].
        intros [post H]. injection H as H1 H2. now elim Hne.
Qed.

Lemma str_contains_nil (q : string) :
  str_contains q EmptyString = String.prefix q EmptyString.
Proof. simpl. apply orb_false_r. Qed.

Lemma str_contains_cons (q : string) (d : ascii) (t : string) :
  str_contains q (String d t)
  = String.prefix q (String d t) || str_contains q t.
Proof. reflexivity. Qed.

Lemma str_contains_spec (q t : string) :
  str_contains q t = true <-> is_substring q t.
Proof.
  unfold is_substring.
  induction t as [|d t IH].
  - rewrite str_contains_nil, prefix_spec. split.
    + intros [post H]. exists EmptyString, post. exact H.
    + intros [pre [post H]]. destruct pre; simpl in H.
      * now exists post.
      * discriminate.
  - rewrite str_contains_cons, orb_true_iff, prefix_spec, IH. split.
    + intros [[post H]|[pre [post H]]].
      * exists EmptyString, post. exact H.
      * exists (String d pre), post. simpl. now rewrite H.
    + intros [pre [post H]]. destruct pre as [|c pre]; simpl in H.
      * left. now exists post.
      * right. injection H as _ H. now exists pre, post.
Qed.

Lemma str_contains_empty (t : string) : str_contains EmptyString t = true.
Proof. destruct t; reflexivity. Qed.

(** ** Rounding of binary64 operations *)

Lemma fexp_eq (k : Z) : fexp prec emax k = Z.max (k - 53) (-1074).
Proof. reflexivity. Qed.

(** *** Binary digits *)

Lemma pow2_pos (k : Z) : 0 <= k -> 0 < 2 ^ k.
Proof. intros. apply Z.pow_pos_nonneg; lia. Qed.

Lemma pow2_succ (k : Z) : 0 <= k -> 2 ^ (k + 1) = 2 * 2 ^ k.
Proof. intros. rewrite Z.pow_add_r by lia. change (2 ^ 1) with 2. lia. Qed.

Lemma digits2_pos_bounds (p : positive) :
  2 ^ (Zpos (digits2_pos p) - 1) <= Zpos p < 2 ^ Zpos (digits2_pos p).
Proof.
  induction p as [p IH|p IH|]; simpl digits2_pos;
    try (rewrite Pos2Z.inj_succ;
         set (d := Zpos (digits2_pos p)) in *;
         assert (Hd : 0 <= d - 1) by (unfold d; lia);
         replace (Z.succ d) with (d - 1 + 1 + 1) by lia;
         replace (d - 1 + 1 + 1 - 1) with (d - 1 + 1) by lia;
         rewrite (@pow2_succ (d - 1 + 1)) by lia;
         replace d with (d - 1 + 1) in IH at 2 by lia;
         rewrite pow2_succ in * by lia; lia).
  simpl. lia.
Qed.

Lemma Zdigits2_bounds (m : Z) :
  0 < m -> 2 ^ (Zdigits2 m - 1) <= m < 2 ^ Zdigits2 m.
Proof.
  destruct m as [|p|p]; try lia. intros _. apply digits2_pos_bounds.
Qed.

Lemma Zdigits2_pos (m : Z) : 0 < m -> 0 < Zdigits2 m.
Proof. destruct m; simpl; lia. Qed.

Lemma Zdigits2_le (m d : Z) : 0 <= d -> 0 <= m < 2 ^ d -> Zdigits2 m <= d.
Proof.
  intros Hd [H0 H1]. destruct (Z.eq_dec m 0) as [->|Hn]; [simpl; lia|].
  destruct (@Zdigits2_bounds m) as [H3 H4]; [lia|].
  destruct (Z_le_gt_dec (Zdigits2 m) d); auto.
  assert (2 ^ d <= 2 ^ (Zdigits2 m - 1)) by (apply Z.pow_le_mono_r; lia). lia.
Qed.

(** *** Shifting a mantissa right *)

Lemma iter_pos_nat {A} (f : A -> A) (p : positive) (x : A) :
  iter_pos f p x = Nat.iter (Pos.to_nat p) f x.
Proof.
  revert x; induction p as [p IH|p IH|]; intros x; simpl iter_pos.
  - rewrite !IH, Pos2Nat.inj_xI.
    replace (S (2 * Pos.to_nat p))%nat with (Pos.to_nat p + (Pos.to_nat p + 1))%nat by lia.
    rewrite !Nat.iter_add. reflexivity.
  - rewrite !IH, Pos2Nat.inj_xO.
    replace (2 * Pos.to_nat p)%nat with (Pos.to_nat p + Pos.to_nat p)%nat by lia.
    rewrite Nat.iter_add. reflexivity.
  - reflexivity.
Qed.

Lemma shr_1_spec (mrs : shr_record) :
  0 <= shr_m mrs ->
  shr_m (shr_1 mrs) = shr_m mrs / 2 /\
  inexact (shr_1 mrs) = Z.odd (shr_m mrs) || inexact mrs.
Proof.
  destruct mrs as [m r s]. unfold inexact; simpl.
  destruct m as [|[p|p|]|p]; simpl; intros H; try lia; split;
    try reflexivity.
  - rewrite Pos2Z.inj_xI. apply Z.div_unique with 1; lia.
  - rewrite Pos2Z.inj_xO. apply Z.div_unique with 0; lia.
Qed.

Lemma mod_pow2_succ (m : Z) (k : Z) :
  0 <= m -> 0 <= k ->
  (m mod 2 ^ (k + 1) = 0 <-> m mod 2 ^ k = 0 /\ Z.odd (m / 2 ^ k) = false).
Proof.
  intros Hm Hk.
  assert (Hp := pow2_pos Hk).
  rewrite pow2_succ by lia.
  rewrite (Z.mul_comm 2), Z.rem_mul_r by lia.
  pose proof (Z.mod_pos_bound m (2 ^ k) Hp).
  pose proof (Z.mod_pos_bound (m / 2 ^ k) 2 ltac:(lia)).
  rewrite <- Z.negb_even, negb_false_iff, Z.even_spec.
  split.
  - intros H1. assert (m mod 2 ^ k = 0) by nia.
    split; [assumption|]. exists (m / 2 ^ k / 2).
    pose proof (Z.div_mod (m / 2 ^ k) 2 ltac:(lia)). nia.
  - intros [H1 [c Hc]].
    assert (H2 : (m / 2 ^ k) mod 2 = 0).
    { rewrite Hc, Z.mul_comm. apply Z.mod_mul. lia. }
    rewrite H1, H2. lia.
Qed.

Lemma shr_iter_spec (k : nat) (mrs : shr_record) :
  0 <= shr_m mrs ->
  shr_m (Nat.iter k shr_1 mrs) = shr_m mrs / 2 ^ Z.of_nat k /\
  (inexact (Nat.iter k shr_1 mrs) = false <->
   inexact mrs = false /\ shr_m mrs mod 2 ^ Z.of_nat k = 0).
Proof.
  intros Hm. induction k as [|k [IH1 IH2]].
  - simpl. rewrite Z.div_1_r, Z.mod_1_r. tauto.
  - rewrite Nat2Z.inj_succ, <- Z.add_1_r.
    assert (Hk : 0 <= Z.of_nat k) by lia.
    assert (Hp := pow2_pos Hk).
    assert (H0 : 0 <= shr_m (Nat.iter k shr_1 mrs)).
    { rewrite IH1. apply Z.div_pos; lia. }
    simpl Nat.iter. destruct (shr_1_spec _ H0) as [H1 H2].
    split.
    + rewrite H1, IH1, pow2_succ, Z.div_div by lia.
      f_equal. lia.
    + rewrite H2, orb_false_iff, IH2, IH1, mod_pow2_succ by lia. tauto.
Qed.

Lemma shr_record_of_loc_m (m : Z) (l : location) :
  shr_m (shr_record_of_loc m l) = m.
Proof. destruct l as [|[]]; reflexivity. Qed.

Lemma shr_record_of_loc_inexact (m : Z) (l : location) :
  inexact (shr_record_of_loc m l) = false <-> l = loc_Exact.
Proof. destruct l as [|[]]; unfold inexact; simpl; split; congruence. Qed.

Lemma loc_of_shr_record_exact (mrs : shr_record) :
  loc_of_shr_record mrs = loc_Exact <-> inexact mrs = false.
Proof.
  destruct mrs as [m [] []]; unfold inexact; simpl; split; congruence.
Qed.

(** [shr]: the mantissa is divided by [2 ^ n], the exponent grows by [n]. *)
Lemma shr_spec (mrs : shr_record) (e n : Z) :
  0 <= shr_m mrs ->
  let '(mrs', e') := shr mrs e n in
  e' = e + Z.max 0 n /\
  shr_m mrs' = shr_m mrs / 2 ^ Z.max 0 n /\
  (inexact mrs' = false <->
   inexact mrs = false /\ shr_m mrs mod 2 ^ Z.max 0 n = 0).
Proof.
  intros Hm. destruct n as [|p|p]; simpl shr.
  - simpl. rewrite Z.add_0_r, Z.div_1_r, Z.mod_1_r. tauto.
  - rewrite iter_pos_nat.
    destruct (shr_iter_spec (Pos.to_nat p) mrs Hm) as [H1 H2].
    rewrite positive_nat_Z in H1, H2.
    replace (Z.max 0 (Zpos p)) with (Zpos p) by lia. tauto.
  - replace (Z.max 0 (Zneg p)) with 0 by lia.
    simpl. rewrite Z.add_0_r, Z.div_1_r, Z.mod_1_r. tauto.
Qed.

Lemma shr_fexp_spec (m e : Z) (l : location) :
  0 <= m ->
  let n := Z.max 0 (fexp prec emax (Zdigits2 m + e) - e) in
  let '(mrs', e') := shr_fexp prec emax m e l in
  e' = e + n /\
  shr_m mrs' = m / 2 ^ n /\
  (loc_of_shr_record mrs' = loc_Exact <-> l = loc_Exact /\ m mod 2 ^ n = 0).
Proof.
  intros Hm n. unfold shr_fexp.
  pose proof (@shr_spec (shr_record_of_loc m l) e
                (fexp prec emax (Zdigits2 m + e) - e)) as H.
  rewrite shr_record_of_loc_m in H. specialize (H Hm).
  destruct (shr (shr_record_of_loc m l) e _) as [mrs' e'].
  fold n in H. destruct H as (H1 & H2 & H3).
  rewrite loc_of_shr_record_exact, H3, shr_record_of_loc_inexact. tauto.
Qed.

Lemma round_nearest_even_bounds (m : Z) (l : location) :
  m <= round_nearest_even m l <= m + 1 /\
  (l = loc_Exact -> round_nearest_even m l = m).
Proof.
  destruct l as [|[]]; simpl; try destruct (Z.even m); split; try lia;
    congruence.
Qed.

Lemma binary_round_aux_pack (s : bool) (mx ex : Z) (lx : location) :
  binary_round_aux prec emax s mx ex lx =
  let '(mrs, e) := shr_fexp prec emax mx ex lx in
  pack s (round_nearest_even (shr_m mrs) (loc_of_shr_record mrs)) e.
Proof.
  unfold binary_round_aux, pack.
  destruct (shr_fexp prec emax mx ex lx) as [mrs e]. reflexivity.
Qed.

Lemma pack_noshift (s : bool) (M E : Z) :
  0 <= M -> fexp prec emax (Zdigits2 M + E) <= E -> E <= 971 ->
  pack s M E = match M with
               | Zpos m => S754_finite s m E
               | _ => S754_zero s
               end.
Proof.
  intros HM Hf HE. unfold pack.
  pose proof (@shr_fexp_spec M E loc_Exact HM) as H.
  destruct (shr_fexp prec emax M E loc_Exact) as [mrs e].
  replace (Z.max 0 (fexp prec emax (Zdigits2 M + E) - E)) with 0 in H by lia.
  destruct H as (-> & H2 & _). rewrite Z.div_1_r in H2. rewrite H2.
  rewrite Z.add_0_r.
  destruct M as [|m|m]; try lia; [reflexivity|].
  replace (E <=? emax - prec) with true; [reflexivity|].
  symmetry. apply Z.leb_le. unfold emax, prec. lia.
Qed.

Lemma pack_carry (s : bool) (E : Z) :
  -1074 <= E <= 970 ->
  pack s (2 ^ 53) E = S754_finite s (2 ^ 52) (E + 1).
Proof.
  intros HE. unfold pack.
  pose proof (@shr_fexp_spec (2 ^ 53) E loc_Exact ltac:(lia)) as H.
  destruct (shr_fexp prec emax (2 ^ 53) E loc_Exact) as [mrs e].
  replace (Z.max 0 (fexp prec emax (Zdigits2 (2 ^ 53) + E) - E)) with 1 in H
    by (rewrite fexp_eq; change (Zdigits2 (2 ^ 53)) with 54; lia).
  destruct H as (-> & H2 & _). rewrite H2.
  change (2 ^ 53 / 2 ^ 1) with (Zpos (2 ^ 52)).
  replace (E + 1 <=? emax - prec) with true; [reflexivity|].
  symmetry. apply Z.leb_le. unfold emax, prec. lia.
Qed.

Lemma pack_sign (s : bool) (M E : Z) :
  0 <= M ->
  match pack s M E with
  | S754_zero s' | S754_finite s' _ _ | S754_infinity s' => s' = s
  | S754_nan => False
  end.
Proof.
  intros HM. unfold pack.
  pose proof (@shr_fexp_spec M E loc_Exact HM) as H.
  destruct (shr_fexp prec emax M E loc_Exact) as [mrs e].
  destruct H as (_ & H2 & _).
  assert (0 <= shr_m mrs).
  { rewrite H2. apply Z.div_pos; [lia|]. apply pow2_pos. lia. }
  destruct (shr_m mrs); try lia; [reflexivity|].
  destruct (e <=? emax - prec); reflexivity.
Qed.

(** [binary_round_aux] shifts the mantissa to the exponent of the format,
    rounds it to one of its two neighbours, and packs it. *)
Lemma binary_round_aux_spec (s : bool) (mx ex : Z) (lx : location) :
  0 <= mx ->
  let n := Z.max 0 (fexp prec emax (Zdigits2 mx + ex) - ex) in
  exists M,
    binary_round_aux prec emax s mx ex lx = pack s M (ex + n) /\
    mx / 2 ^ n <= M <= mx / 2 ^ n + 1 /\
    (lx = loc_Exact -> mx mod 2 ^ n = 0 -> M = mx / 2 ^ n).
Proof.
  intros Hm n. rewrite binary_round_aux_pack.
  pose proof (@shr_fexp_spec mx ex lx Hm) as H. fold n in H.
  destruct (shr_fexp prec emax mx ex lx) as [mrs e].
  destruct H as (-> & H2 & H3).
  exists (round_nearest_even (shr_m mrs) (loc_of_shr_record mrs)).
  destruct (round_nearest_even_bounds (shr_m mrs) (loc_of_shr_record mrs))
    as [Hb He].
  rewrite H2 in *. split; [reflexivity|]. split; [exact Hb|].
  intros Hl Hmod. apply He. apply H3. tauto.
Qed.

Lemma binary_round_aux_sign (s : bool) (mx ex : Z) (lx : location) :
  0 <= mx ->
  match binary_round_aux prec emax s mx ex lx with
  | S754_zero s' | S754_finite s' _ _ | S754_infinity s' => s' = s
  | S754_nan => False
  end.
Proof.
  intros Hm.
  destruct (@binary_round_aux_spec s mx ex lx Hm) as (M & -> & [HM _] & _).
  apply pack_sign.
  assert (0 <= mx / 2 ^ Z.max 0 (fexp prec emax (Zdigits2 mx + ex) - ex)).
  { apply Z.div_pos; [lia|]. apply pow2_pos. lia. }
  lia.
Qed.

Lemma pow2_lt_inv (a b : Z) : 0 <= b -> 2 ^ a < 2 ^ b -> a < b.
Proof.
  intros Hb H. destruct (Z_lt_le_dec a b) as [|Hle]; [assumption|].
  assert (2 ^ b <= 2 ^ a) by (apply Z.pow_le_mono_r; lia). lia.
Qed.

Lemma Zdigits2_nonneg (m : Z) : 0 <= Zdigits2 m.
Proof. destruct m; simpl; lia. Qed.

Lemma Zdigits2_mono (a b : Z) : 0 <= a <= b -> Zdigits2 a <= Zdigits2 b.
Proof.
  intros [Ha Hab].
  destruct (Z.eq_dec b 0) as [->|Hb].
  { replace a with 0 by lia. lia. }
  destruct (@Zdigits2_bounds b ltac:(lia)) as [_ Hb2].
  apply Zdigits2_le; [apply Zdigits2_nonneg|lia].
Qed.

Lemma Zdigits2_shift (m n : Z) :
  0 <= m -> 0 <= n -> Zdigits2 (m / 2 ^ n) <= Z.max 0 (Zdigits2 m - n).
Proof.
  intros Hm Hn.
  assert (Hp := pow2_pos Hn).
  destruct (Z.eq_dec m 0) as [->|Hm0].
  { rewrite Z.div_0_l by lia. simpl. lia. }
  destruct (@Zdigits2_bounds m ltac:(lia)) as [_ Hd].
  destruct (Z_le_gt_dec n (Zdigits2 m)) as [Hle|Hgt].
  - apply Zdigits2_le; [lia|].
    split; [apply Z.div_pos; lia|].
    apply Z.div_lt_upper_bound; [lia|].
    replace (Z.max 0 (Zdigits2 m - n)) with (Zdigits2 m - n) by lia.
    rewrite <- Z.pow_add_r by lia.
    replace (n + (Zdigits2 m - n)) with (Zdigits2 m) by lia. exact Hd.
  - assert (2 ^ Zdigits2 m <= 2 ^ n)
      by (apply Z.pow_le_mono_r; pose proof (Zdigits2_nonneg m); lia).
    rewrite Z.div_small by lia. simpl. lia.
Qed.

(** Packing a mantissa [M] that is the floor [M'] of the scaled value, or
    one more: the result has the value [M * 2 ^ E], the exponent growing by
    one when the rounding carried into a new bit. *)
Lemma pack_round (s : bool) (M' M E : Z) :
  0 <= M' -> M' <= M <= M' + 1 ->
  fexp prec emax (Zdigits2 M' + E) <= E -> E < 971 ->
  match pack s M E with
  | S754_zero s' => s' = s /\ M = 0
  | S754_finite s' m e =>
      s' = s /\
      ((e = E /\ Zpos m = M) \/ (e = E + 1 /\ 2 * Zpos m = M))
  | _ => False
  end.
Proof.
  intros HM' HM Hf HE.
  assert (Hfit : fexp prec emax (Zdigits2 M + E) <= E ->
                 match pack s M E with
                 | S754_zero s' => s' = s /\ M = 0
                 | S754_finite s' m e =>
                     s' = s /\
                     ((e = E /\ Zpos m = M) \/ (e = E + 1 /\ 2 * Zpos m = M))
                 | _ => False
                 end).
  { intros H. rewrite pack_noshift by lia.
    destruct M as [|m|m]; try lia; [split; reflexivity|].
    split; [reflexivity|left; split; reflexivity]. }
  rewrite fexp_eq in Hf.
  pose proof (Zdigits2_nonneg M') as HD.
  set (D := Zdigits2 M') in *.
  destruct (Z_lt_le_dec M (2 ^ D)) as [Hlt|Hge].
  - apply Hfit. rewrite fexp_eq.
    assert (Zdigits2 M <= D) by (apply Zdigits2_le; lia). lia.
  - assert (HMD : M = 2 ^ D).
    { destruct (Z.eq_dec M' 0) as [H0|H0].
      - unfold D in *. rewrite H0 in *. simpl in *. lia.
      - destruct (@Zdigits2_bounds M' ltac:(lia)) as [_ Hb]. fold D in Hb.
        lia. }
    assert (Hp := pow2_pos HD).
    assert (HdM : Zdigits2 M = D + 1).
    { assert (H1 : Zdigits2 M <= D + 1).
      { apply Zdigits2_le; [lia|]. rewrite pow2_succ by lia. lia. }
      destruct (@Zdigits2_bounds M ltac:(lia)) as [_ Hb].
      rewrite HMD in Hb at 1.
      apply pow2_lt_inv in Hb; [lia|apply Zdigits2_nonneg]. }
    destruct (Z_le_gt_dec (fexp prec emax (Zdigits2 M + E)) E) as [Hle|Hgt].
    + apply Hfit. exact Hle.
    + rewrite fexp_eq, HdM in Hgt.
      assert (HD1 : 1 <= D) by lia.
      unfold pack.
      pose proof (@shr_fexp_spec M E loc_Exact ltac:(lia)) as H.
      destruct (shr_fexp prec emax M E loc_Exact) as [mrs e].
      rewrite fexp_eq, HdM in H.
      replace (Z.max 0 (Z.max (D + 1 + E - 53) (-1074) - E)) with 1 in H
        by lia.
      destruct H as (-> & H2 & _). rewrite H2, HMD.
      replace D with (D - 1 + 1) by lia.
      rewrite pow2_succ by lia.
      change (2 ^ 1) with 2. rewrite Z.mul_comm, Z.div_mul by lia.
      assert (Hp1 := @pow2_pos (D - 1) ltac:(lia)).
      destruct (2 ^ (D - 1)) as [|m|m] eqn:Em; try lia.
      replace (E + 1 <=? emax - prec) with true
        by (symmetry; apply Z.leb_le; unfold emax, prec; lia).
      split; [reflexivity|]. right. split; lia.
Qed.

(** The value of [binary_round_aux]: with [E] the exponent of the format
    and [n] the shift that reaches it, the result is [M * 2 ^ E], where [M]
    is [mx / 2 ^ n] or one more, and is [mx / 2 ^ n] when nothing is lost. *)
Lemma binary_round_aux_value (s : bool) (mx ex : Z) (lx : location) :
  0 <= mx ->
  let n := Z.max 0 (fexp prec emax (Zdigits2 mx + ex) - ex) in
  ex + n < 971 ->
  exists M,
    mx / 2 ^ n <= M <= mx / 2 ^ n + 1 /\
    (lx = loc_Exact -> mx mod 2 ^ n = 0 -> M = mx / 2 ^ n) /\
    match binary_round_aux prec emax s mx ex lx with
    | S754_zero s' => s' = s /\ M = 0
    | S754_finite s' m e =>
        s' = s /\
        ((e = ex + n /\ Zpos m = M) \/ (e = ex + n + 1 /\ 2 * Zpos m = M))
    | _ => False
    end.
Proof.
  intros Hmx n HE.
  destruct (@binary_round_aux_spec s mx ex lx Hmx) as (M & -> & HM & HMe).
  fold n in HM, HMe |- *.
  exists M. split; [exact HM|]. split; [exact HMe|].
  assert (Hn : 0 <= n) by (unfold n; lia).
  assert (Hp := pow2_pos Hn).
  apply pack_round with (M' := mx / 2 ^ n); try lia.
  - apply Z.div_pos; lia.
  - pose proof (@Zdigits2_shift mx n Hmx Hn) as Hs.
    pose proof (Zdigits2_nonneg (mx / 2 ^ n)).
    rewrite fexp_eq. unfold n in *. rewrite fexp_eq in *. lia.
Qed.

Lemma binary_round_aux_between (s : bool) (mx ex lo hi : Z) :
  0 < mx -> ex <= 0 -> 0 <= lo -> hi < 2 ^ 53 ->
  lo * 2 ^ (- ex) <= mx <= hi * 2 ^ (- ex) ->
  mag_between lo hi s (binary_round_aux prec emax s mx ex loc_Exact).
Proof.
  intros Hmx Hex Hlo Hhi [Hl Hh].
  destruct (Zdigits2_bounds Hmx) as [Hd1 Hd2].
  pose proof (Zdigits2_pos Hmx) as Hd0.
  set (d := Zdigits2 mx) in *.
  assert (Hpex := @pow2_pos (- ex) ltac:(lia)).
  assert (Hhi0 : 0 < hi) by nia.
  assert (Hd : d + ex <= 53).
  { assert (2 ^ (d - 1) < 2 ^ (53 - ex)).
    { replace (53 - ex) with (53 + - ex) by lia.
      rewrite Z.pow_add_r by lia. nia. }
    apply pow2_lt_inv in H; lia. }
  destruct (@binary_round_aux_spec s mx ex loc_Exact ltac:(lia))
    as (M & -> & [HM1 HM2] & HMe).
  fold d in HM1, HM2, HMe |- *.
  rewrite fexp_eq in *.
  set (n := Z.max 0 (Z.max (d + ex - 53) (-1074) - ex)) in *.
  destruct (Z.eq_dec n 0) as [Hn|Hn].
  - (* the mantissa already fits *)
    rewrite Hn in *. rewrite Z.div_1_r in *.
    assert (M = mx) by (apply HMe; [reflexivity|apply Z.mod_1_r]). subst M.
    rewrite Z.add_0_r, pack_noshift; try lia.
    + destruct mx as [|m|m]; try lia. simpl. repeat split; lia.
    + rewrite fexp_eq. fold d. lia.
  - set (E := ex + n) in *.
    assert (HE : E = Z.max (d + ex - 53) (-1074)) by lia.
    assert (Hn0 : 0 < n) by lia.
    assert (Hpn := @pow2_pos n ltac:(lia)).
    assert (HpE := @pow2_pos (- E) ltac:(lia)).
    assert (Hsplit : 2 ^ (- ex) = 2 ^ (- E) * 2 ^ n).
    { rewrite <- Z.pow_add_r by lia. f_equal. lia. }
    assert (Hm53 : mx / 2 ^ n < 2 ^ 53).
    { apply Z.div_lt_upper_bound; [lia|].
      rewrite <- Z.pow_add_r by lia.
      assert (2 ^ d <= 2 ^ (n + 53)) by (apply Z.pow_le_mono_r; lia). lia. }
    assert (Hm0 : 0 <= mx / 2 ^ n) by (apply Z.div_pos; lia).
    assert (HlM : lo * 2 ^ (- E) <= mx / 2 ^ n).
    { apply Z.div_le_lower_bound; [lia|]. nia. }
    assert (HhM : M <= hi * 2 ^ (- E)).
    { destruct (Z.eq_dec M (mx / 2 ^ n)) as [->|Hne].
      - apply Z.div_le_upper_bound; [lia|]. nia.
      - assert (Hmod : mx mod 2 ^ n <> 0).
        { intros H0. apply Hne, HMe; [reflexivity|exact H0]. }
        assert (mx / 2 ^ n < hi * 2 ^ (- E)).
        { apply Z.div_lt_upper_bound; [lia|].
          destruct (Z.eq_dec mx (2 ^ n * (hi * 2 ^ (- E)))) as [He|He];
            [|nia].
          exfalso. apply Hmod. rewrite He, Z.mul_comm. apply Z.mod_mul. lia. }
        lia. }
    destruct (Z.eq_dec M (2 ^ 53)) as [->|HM53].
    + assert (HE1 : E + 1 <= 0).
      { destruct (Z.eq_dec E 0) as [HE0|]; [|lia].
        rewrite HE0 in HhM. simpl in HhM. lia. }
      rewrite pack_carry by lia. simpl.
      assert (Hs2 : 2 ^ (- E) = 2 * 2 ^ (- (E + 1))).
      { rewrite <- pow2_succ by lia. f_equal. lia. }
      change (Z.pow_pos 2 52) with (2 ^ 52).
      change (Zpos (2 ^ 52)) with (2 ^ 52).
      assert (2 ^ 53 = 2 * 2 ^ 52) by reflexivity.
      repeat split; try lia; nia.
    + rewrite pack_noshift; try lia.
      * destruct M as [|m|m]; try lia; simpl; repeat split; try lia.
      * rewrite fexp_eq.
        assert (Zdigits2 M <= 53) by (apply Zdigits2_le; lia). lia.
Qed.
Lemma mag_between_pos (lo hi : Z) (f : float) :
  mag_between (Z.max 0 lo) hi false f -> SF_between lo hi f.
Proof.
  destruct f as [s|s| |s m e]; simpl; try tauto.
  - intros [_ H]. lia.
  - intros (-> & He & H1 & H2). simpl. split; [exact He|].
    assert (Hp := @pow2_pos (- e) ltac:(lia)). nia.
Qed.

Lemma mag_between_neg (lo hi : Z) (f : float) :
  mag_between (Z.max 0 (- hi)) (- lo) true f -> SF_between lo hi f.
Proof.
  destruct f as [s|s| |s m e]; simpl; try tauto.
  - intros [_ H]. lia.
  - intros (-> & He & H1 & H2). simpl. split; [exact He|].
    assert (Hp := @pow2_pos (- e) ltac:(lia)). nia.
Qed.

Lemma pos_iter_xO (m d : positive) :
  Zpos (Pos.iter xO m d) = Zpos m * 2 ^ Zpos d.
Proof.
  induction d as [|d IH] using Pos.peano_ind.
  - simpl. lia.
  - rewrite Pos.iter_succ, Pos2Z.inj_xO, IH, Pos2Z.inj_succ.
    rewrite Z.pow_succ_r by lia. lia.
Qed.

Lemma shl_align_spec (mx : positive) (ex ex' : Z) :
  let '(mz, ez) := shl_align mx ex ex' in
  ez = Z.min ex ex' /\ Zpos mz = Zpos mx * 2 ^ (ex - ez).
Proof.
  unfold shl_align. destruct (ex' - ex) as [|d|d] eqn:E.
  - split; [lia|]. replace (ex - ex) with 0 by lia. lia.
  - split; [lia|]. replace (ex - ex) with 0 by lia. lia.
  - split; [lia|]. rewrite pos_iter_xO. f_equal. f_equal. lia.
Qed.

Lemma binary_round_between (s : bool) (mx : positive) (ex lo hi : Z) :
  ex <= 0 -> 0 <= lo -> hi < 2 ^ 53 ->
  lo * 2 ^ (- ex) <= Zpos mx <= hi * 2 ^ (- ex) ->
  mag_between lo hi s (binary_round prec emax s mx ex).
Proof.
  intros Hex Hlo Hhi [H1 H2]. unfold binary_round.
  pose proof (shl_align_spec mx ex
                (fexp prec emax (Zpos (digits2_pos mx) + ex))) as H.
  destruct (shl_align mx ex _) as [mz ez]. destruct H as [Hez Hmz].
  assert (Hp := @pow2_pos (ex - ez) ltac:(lia)).
  assert (Hs : 2 ^ (- ez) = 2 ^ (- ex) * 2 ^ (ex - ez)).
  { rewrite <- Z.pow_add_r by lia. f_equal. lia. }
  apply binary_round_aux_between; try lia.
  rewrite Hmz, Hs. nia.
Qed.

Lemma binary_normalize_between (m e lo hi : Z) :
  e <= 0 -> - 2 ^ 53 < lo -> hi < 2 ^ 53 ->
  lo * 2 ^ (- e) <= m <= hi * 2 ^ (- e) ->
  SF_between lo hi (binary_normalize prec emax m e false).
Proof.
  intros He Hlo Hhi [H1 H2].
  assert (Hp := @pow2_pos (- e) ltac:(lia)).
  destruct m as [|p|p]; simpl binary_normalize.
  - simpl. nia.
  - apply mag_between_pos, binary_round_between; lia || nia.
  - apply mag_between_neg, binary_round_between; lia || nia.
Qed.

(** [float(n)] is exact below [2 ^ 53]. *)
Lemma float_of_int_exact (n : Z) :
  - 2 ^ 53 < n < 2 ^ 53 ->
  exists f, float_of_int n = Ok f /\ SF_between n n f.
Proof.
  intros Hn. unfold float_of_int.
  pose proof (@binary_normalize_between n 0 n n ltac:(lia) ltac:(lia)
                ltac:(lia) ltac:(simpl; lia)) as H.
  destruct (binary_normalize prec emax n 0 false) as [s|s| |s m e];
    simpl in H; try tauto; eexists; (split; [reflexivity|exact H]).
Qed.

Lemma fmul_between (d : Z) (fd t : float) :
  - 2 ^ 53 < d < 2 ^ 53 ->
  SF_between d d fd -> SF_between 0 1 t ->
  SF_between (Z.min 0 d) (Z.max 0 d) (fmul fd t).
Proof.
  intros Hd Hfd Ht.
  destruct fd as [sd|sd| |sd md ed]; cbn [SF_between] in Hfd; try tauto;
    destruct t as [st|st| |st mt et]; cbn [SF_between] in Ht; try tauto;
    try (cbn; lia).
  destruct Hfd as [Hed Hmd], Ht as [Het Hmt].
  rewrite Z.mul_0_l, Z.mul_1_l in Hmt.
  assert (Hpd := @pow2_pos (- ed) ltac:(lia)).
  assert (Hpt := @pow2_pos (- et) ltac:(lia)).
  assert (st = false) by (destruct st; [cbn in Hmt; lia|reflexivity]).
  subst st. cbn [cond_Zopp] in Hmt.
  unfold fmul. cbn [SFmul]. rewrite xorb_false_r.
  assert (Hs : 2 ^ (- (ed + et)) = 2 ^ (- ed) * 2 ^ (- et)).
  { rewrite <- Z.pow_add_r by lia. f_equal. lia. }
  assert (Habs : Z.abs d < 2 ^ 53) by lia.
  assert (Hedt : ed + et <= 0) by lia.
  pose proof (@binary_round_aux_between sd (Zpos (md * mt)) (ed + et) 0
                (Z.abs d) eq_refl Hedt (Z.le_refl 0) Habs) as H.
  rewrite Hs, Pos2Z.inj_mul in H.
  destruct sd; cbn [cond_Zopp] in Hmd.
  - assert (d < 0) by nia.
    apply mag_between_neg.
    replace (Z.max 0 (- Z.max 0 d)) with 0 by lia.
    replace (- Z.min 0 d) with (Z.abs d) by lia.
    apply H. nia.
  - assert (0 < d) by nia.
    apply mag_between_pos.
    replace (Z.max 0 (Z.min 0 d)) with 0 by lia.
    replace (Z.max 0 d) with (Z.abs d) by lia.
    apply H. nia.
Qed.

Lemma cond_Zopp_mul (s : bool) (m k : Z) :
  cond_Zopp s (m * k) = cond_Zopp s m * k.
Proof. destruct s; simpl; lia. Qed.

Lemma fadd_between (a1 a2 b1 b2 : Z) (x y : float) :
  SF_between a1 a2 x -> SF_between b1 b2 y ->
  - 2 ^ 53 < a1 + b1 -> a2 + b2 < 2 ^ 53 ->
  SF_between (a1 + b1) (a2 + b2) (fadd x y).
Proof.
  intros Hx Hy Hlo Hhi.
  destruct x as [sx|sx| |sx mx ex]; cbn [SF_between] in Hx; try tauto;
    destruct y as [sy|sy| |sy my ey]; cbn [SF_between] in Hy; try tauto.
  - unfold fadd, SFadd. destruct sx, sy; cbn [SF_between]; lia.
  - destruct Hy as [He Hm]. unfold fadd, SFadd. cbn [SF_between].
    assert (Hp := @pow2_pos (- ey) ltac:(lia)). split; [exact He|nia].
  - destruct Hx as [He Hm]. unfold fadd, SFadd. cbn [SF_between].
    assert (Hp := @pow2_pos (- ex) ltac:(lia)). split; [exact He|nia].
  - destruct Hx as [Hex Hmx], Hy as [Hey Hmy].
    unfold fadd, SFadd.
    set (ez := Z.min ex ey).
    pose proof (shl_align_spec mx ex ez) as Hax.
    pose proof (shl_align_spec my ey ez) as Hay.
    destruct (shl_align mx ex ez) as [mx' ex'].
    destruct (shl_align my ey ez) as [my' ey'].
    destruct Hax as [Hex' Hmx'], Hay as [Hey' Hmy'].
    cbn [fst]. rewrite Hmx', Hmy', !cond_Zopp_mul.
    replace ex' with ez by lia. replace ey' with ez by lia.
    assert (Hpx := @pow2_pos (ex - ez) ltac:(lia)).
    assert (Hpy := @pow2_pos (ey - ez) ltac:(lia)).
    assert (Hsx : 2 ^ (- ez) = 2 ^ (- ex) * 2 ^ (ex - ez)).
    { rewrite <- Z.pow_add_r by lia. f_equal. lia. }
    assert (Hsy : 2 ^ (- ez) = 2 ^ (- ey) * 2 ^ (ey - ez)).
    { rewrite <- Z.pow_add_r by lia. f_equal. lia. }
    apply binary_normalize_between; try lia.
    split.
    + rewrite Z.mul_add_distr_r. rewrite Hsx at 1. rewrite Hsy. nia.
    + rewrite Z.mul_add_distr_r. rewrite Hsx at 1. rewrite Hsy. nia.
Qed.

Lemma int_of_float_between (lo hi : Z) (f : float) :
  SF_between lo hi f ->
  exists z, int_of_float f = Ok z /\ lo <= z <= hi.
Proof.
  destruct f as [s|s| |s m e]; cbn [SF_between]; try tauto.
  - intros H. exists 0. split; [reflexivity|exact H].
  - intros [He Hm]. eexists. split; [reflexivity|].
    rewrite Z.shiftl_div_pow2 by exact He.
    assert (Hp := @pow2_pos (- e) ltac:(lia)).
    pose proof (Z.mul_div_le (Zpos m) (2 ^ (- e)) Hp).
    pose proof (Z.mod_pos_bound (Zpos m) (2 ^ (- e)) Hp).
    pose proof (Z.div_mod (Zpos m) (2 ^ (- e)) ltac:(lia)).
    destruct s; cbn [cond_Zopp] in *; nia.
Qed.

Lemma new_location_exact (nb r : Z) :
  new_location nb r = loc_Exact <-> r = 0.
Proof.
  unfold new_location, new_location_even, new_location_odd.
  destruct (Z.even nb); destruct (Z.eqb_spec r 0); split; congruence.
Qed.

(** Arithmetic of a quotient [a / b] bracketed on the grid of step [1 / G]:
    [m2 / G <= a / b < (m2 + 1) / G]. *)
Lemma bracket_lower (N a b G m2 : Z) :
  0 < b -> 0 < G -> N * b <= a -> a * G < (m2 + 1) * b -> N * G <= m2.
Proof.
  intros Hb HG HN Hbr.
  assert (N * b * G <= a * G) by (apply Z.mul_le_mono_nonneg_r; lia).
  assert (N * G * b < (m2 + 1) * b) by lia.
  apply Z.mul_lt_mono_pos_r in H0; lia.
Qed.

Lemma bracket_upper (N a b G m2 : Z) :
  0 < b -> 0 < G -> a <= N * b -> m2 * b <= a * G -> m2 <= N * G.
Proof.
  intros Hb HG HN Hbr.
  assert (a * G <= N * b * G) by (apply Z.mul_le_mono_nonneg_r; lia).
  assert (m2 * b <= N * G * b) by lia.
  apply Z.mul_le_mono_pos_r in H0; lia.
Qed.

Lemma bracket_upper_strict (N a b G m2 : Z) :
  0 < b -> 0 < G -> a <= N * b -> m2 * b < a * G -> m2 < N * G.
Proof.
  intros Hb HG HN Hbr.
  assert (a * G <= N * b * G) by (apply Z.mul_le_mono_nonneg_r; lia).
  assert (m2 * b < N * G * b) by lia.
  apply Z.mul_lt_mono_pos_r in H0; lia.
Qed.

Lemma bracket_below (N a b G m2 : Z) :
  0 < b -> 0 < G -> a < N * b -> m2 * b <= a * G -> m2 < N * G.
Proof.
  intros Hb HG HN Hbr.
  assert (a * G < N * b * G) by (apply Z.mul_lt_mono_pos_r; lia).
  assert (m2 * b < N * G * b) by lia.
  apply Z.mul_lt_mono_pos_r in H0; lia.
Qed.

(** When the quotient lies below the integer [N] and rounding up still
    reaches [N], the divisor is at least the grid size. *)
Lemma bracket_gap (N a b G : Z) :
  0 < b -> 0 < G -> a < N * b -> (N * G - 1) * b <= a * G -> G <= b.
Proof.
  intros Hb HG HN Hbr.
  assert ((a + 1) * G <= N * b * G) by (apply Z.mul_le_mono_nonneg_r; lia).
  lia.
Qed.

(** The quotient of two positive integers below [2 ^ 53]: a positive double
    [m * 2 ^ e] that no integer multiple of the divisor separates from the
    exact quotient. *)
Lemma div_core_spec (s : bool) (a b : Z) :
  0 < a < 2 ^ 53 -> 0 < b < 2 ^ 53 ->
  let '(mz, ez, lz) := SFdiv_core_binary prec emax a 0 b 0 in
  exists m e,
    binary_round_aux prec emax s mz ez lz = S754_finite s m e /\
    e <= 0 /\
    (forall N, N * b <= a -> N * 2 ^ (- e) <= Zpos m) /\
    (forall N, a <= N * b -> Zpos m <= N * 2 ^ (- e)) /\
    (forall N, a < N * b -> N * b <= 2 ^ 52 -> Zpos m < N * 2 ^ (- e)).
Proof.
  intros Ha Hb.
  destruct (@Zdigits2_bounds a ltac:(lia)) as [Ha1 Ha2].
  destruct (@Zdigits2_bounds b ltac:(lia)) as [Hb1 Hb2].
  pose proof (@Zdigits2_pos a ltac:(lia)) as Hd1.
  pose proof (@Zdigits2_pos b ltac:(lia)) as Hd2.
  pose proof (@Zdigits2_le a 53 ltac:(lia) ltac:(lia)) as Hd1'.
  pose proof (@Zdigits2_le b 53 ltac:(lia) ltac:(lia)) as Hd2'.
  unfold SFdiv_core_binary. rewrite fexp_eq.
  set (d1 := Zdigits2 a) in *. set (d2 := Zdigits2 b) in *.
  replace (Z.min (Z.max (d1 + 0 - (d2 + 0) - 53) (-1074)) (0 - 0))
    with (d1 - d2 - 53) by lia.
  replace (0 - 0 - (d1 - d2 - 53)) with (53 + d2 - d1) by lia.
  set (sh := 53 + d2 - d1).
  assert (Hsh : 0 < sh) by (unfold sh; lia).
  destruct sh as [|shp|shp] eqn:Esh; try lia. rewrite <- Esh in *.
  rewrite Z.shiftl_mul_pow2 by lia.
  pose proof (Z_div_mod (a * 2 ^ sh) b ltac:(lia)) as Hqr.
  destruct (Z.div_eucl (a * 2 ^ sh) b) as [q r]. destruct Hqr as [Hqr Hr].
  assert (Hpsh := @pow2_pos sh ltac:(lia)).
  (* the quotient has 53 or 54 bits *)
  assert (Hlow : 2 ^ (52 + d2) <= a * 2 ^ sh).
  { replace (52 + d2) with (d1 - 1 + sh) by (unfold sh; lia).
    rewrite Z.pow_add_r by lia. nia. }
  assert (Hupp : a * 2 ^ sh < 2 ^ (53 + d2)).
  { replace (53 + d2) with (d1 + sh) by (unfold sh; lia).
    rewrite Z.pow_add_r by lia. nia. }
  assert (Hq : 2 ^ 52 <= q < 2 ^ 54).
  { replace (52 + d2) with (d2 + 52) in Hlow by lia.
    replace (53 + d2) with (d2 - 1 + 54) in Hupp by lia.
    rewrite Z.pow_add_r in Hlow, Hupp by lia. split; nia. }
  destruct (@Zdigits2_bounds q ltac:(lia)) as [Hq1 Hq2].
  pose proof (@Zdigits2_pos q ltac:(lia)) as Hdq0.
  set (dq := Zdigits2 q) in *.
  assert (Hdq : 53 <= dq <= 54).
  { split.
    - assert (2 ^ 52 < 2 ^ dq) by lia.
      apply pow2_lt_inv in H; lia.
    - assert (2 ^ (dq - 1) < 2 ^ 54) by lia.
      apply pow2_lt_inv in H; lia. }
  destruct (@binary_round_aux_spec s q (d1 - d2 - 53) (new_location b r)
              ltac:(lia)) as (M & -> & [HM1 HM2] & HMe).
  fold dq in HM1, HM2, HMe |- *. rewrite fexp_eq in *.
  replace (Z.max 0 (Z.max (dq + (d1 - d2 - 53) - 53) (-1074)
                    - (d1 - d2 - 53))) with (dq - 53) in * by lia.
  set (n := dq - 53) in *.
  set (g := sh - n).
  assert (Hg : 0 <= g) by (unfold g, sh, n; lia).
  replace (d1 - d2 - 53 + n) with (- g) by (unfold g, sh; lia).
  assert (Hpn := @pow2_pos n ltac:(unfold n; lia)).
  assert (Hpg := @pow2_pos g Hg).
  assert (Hshg : 2 ^ sh = 2 ^ g * 2 ^ n).
  { rewrite <- Z.pow_add_r by (unfold n; lia). f_equal. unfold g. lia. }
  set (m2 := q / 2 ^ n) in *.
  pose proof (Z.div_mod q (2 ^ n) ltac:(lia)) as Hqm. fold m2 in Hqm.
  pose proof (Z.mod_pos_bound q (2 ^ n) Hpn) as Hrho.
  assert (Hm2 : 2 ^ 52 <= m2 < 2 ^ 53).
  { replace dq with (53 + n) in Hq2 by (unfold n; lia).
    replace (dq - 1) with (52 + n) in Hq1 by (unfold n; lia).
    rewrite Z.pow_add_r in Hq1, Hq2 by (unfold n; lia). split; nia. }
  (* the bracket of the exact quotient *)
  assert (Hbr1 : m2 * b <= a * 2 ^ g) by nia.
  assert (Hbr2 : a * 2 ^ g < (m2 + 1) * b) by nia.
  assert (Hbr3 : M <> m2 -> m2 * b < a * 2 ^ g).
  { intros Hne.
    assert (Hinex : r <> 0 \/ q mod 2 ^ n <> 0).
    { destruct (Z.eq_dec r 0) as [Hr0|]; [|now left].
      destruct (Z.eq_dec (q mod 2 ^ n) 0) as [Hq0|]; [|now right].
      exfalso. apply Hne, HMe; [now apply new_location_exact|exact Hq0]. }
    destruct Hinex; nia. }
  destruct (Z.eq_dec M (2 ^ 53)) as [HM53|HM53].
  - (* rounded up to the next power of two *)
    assert (Hne : M <> m2) by lia.
    specialize (Hbr3 Hne).
    assert (Hm2e : m2 = 2 ^ 53 - 1) by lia.
    assert (Hg1 : 1 <= g).
    { destruct (Z.eq_dec g 0) as [Hg0|]; [|lia].
      rewrite Hg0, Hm2e in Hbr3. rewrite Z.pow_0_r, Z.mul_1_r in Hbr3.
      assert (1 * b <= (2 ^ 53 - 1) * b)
        by (apply Z.mul_le_mono_nonneg_r; lia). lia. }
    rewrite HM53, pack_carry by (unfold g, sh, n; lia).
    exists (2 ^ 52)%positive, (- g + 1). split; [reflexivity|].
    split; [lia|].
    replace (- (- g + 1)) with (g - 1) by lia.
    assert (Hs2 : 2 ^ g = 2 * 2 ^ (g - 1)).
    { rewrite <- pow2_succ by lia. f_equal. lia. }
    assert (Hpg1 := @pow2_pos (g - 1) ltac:(lia)).
    change (Zpos (2 ^ 52)) with (2 ^ 52).
    assert (H53 : 2 ^ 53 = 2 * 2 ^ 52) by reflexivity.
    split; [|split].
    + intros N HN.
      pose proof (@bracket_lower N a b (2 ^ g) m2 ltac:(lia) Hpg HN Hbr2).
      lia.
    + intros N HN.
      pose proof (@bracket_upper_strict N a b (2 ^ g) m2 ltac:(lia) Hpg HN
                    Hbr3). lia.
    + intros N HN HN52.
      pose proof (@bracket_upper_strict N a b (2 ^ g) m2 ltac:(lia) Hpg
                    ltac:(lia) Hbr3) as Hlt.
      destruct (Z_lt_le_dec (2 ^ 52) (N * 2 ^ (g - 1))) as [|Hle];
        [assumption|exfalso].
      assert (HNg : N * 2 ^ g = 2 ^ 53) by lia.
      assert (Hgb : 2 ^ g <= b).
      { apply (@bracket_gap N a b (2 ^ g)); try lia;
          rewrite HNg, <- Hm2e; lia. }
      assert (0 < N) by nia.
      assert (N * 2 ^ g <= N * b) by (apply Z.mul_le_mono_nonneg_l; lia).
      lia.
  - assert (HM : 2 ^ 52 <= M < 2 ^ 53) by lia.
    rewrite pack_noshift;
      [ | lia
        | rewrite fexp_eq;
          assert (Zdigits2 M <= 53) by (apply Zdigits2_le; lia);
          unfold g, sh, n; lia
        | unfold g, sh, n; lia ].
    destruct M as [|m|m]; try lia.
    exists m, (- g). split; [reflexivity|]. split; [lia|].
      rewrite Z.opp_involutive.
      split; [|split].
      * intros N HN.
        pose proof (@bracket_lower N a b (2 ^ g) m2 ltac:(lia) Hpg HN Hbr2).
        lia.
      * intros N HN.
        destruct (Z.eq_dec (Zpos m) m2) as [He|Hne].
        -- rewrite He.
           apply (@bracket_upper N a b (2 ^ g) m2);
             [lia|exact Hpg|exact HN|exact Hbr1].
        -- specialize (Hbr3 Hne).
           pose proof (@bracket_upper_strict N a b (2 ^ g) m2 ltac:(lia) Hpg
                         HN Hbr3). lia.
      * intros N HN HN52.
        destruct (Z_lt_le_dec (Zpos m) (N * 2 ^ g)) as [|Hle];
          [assumption|exfalso].
        destruct (Z.eq_dec (Zpos m) m2) as [He|Hne].
        -- pose proof (@bracket_below N a b (2 ^ g) m2 ltac:(lia) Hpg HN
                         Hbr1). lia.
        -- specialize (Hbr3 Hne).
           pose proof (@bracket_upper_strict N a b (2 ^ g) m2 ltac:(lia) Hpg
                         ltac:(lia) Hbr3) as Hlt.
           assert (Hm2e : m2 = N * 2 ^ g - 1) by lia.
           assert (Hgb : 2 ^ g <= b).
           { apply (@bracket_gap N a b (2 ^ g)); try lia;
               rewrite <- Hm2e; lia. }
           assert (0 < N) by (destruct (Z_lt_le_dec 0 N); [assumption|nia]).
           assert (N * 2 ^ g <= N * b)
             by (apply Z.mul_le_mono_nonneg_l; lia).
           lia.
Qed.

(** ** The monad *)

Lemma bind_ok {W A B} (m : M W A) (k : A -> M W B) w a w' :
  m w = (Ok a, w') -> bind m k w = k a w'.
Proof. unfold bind. now intros ->. Qed.

(** ** windows_capture.py *)

Module WindowsCaptureFacts.
Import WindowsCapture.

Section Facts.
Context {P : Platform}.

(** C5. For every [Rect], also one built with [right < left] or
    [bottom < top], the width is [max(0, right - left)] and the height is
    [max(0, bottom - top)], so neither is ever negative and both are [0] on
    such a malformed rectangle; and the value is immutable: every attribute
    assignment is refused with [FrozenInstanceError]. *)
Theorem Rect_width_height_nonneg (r : Rect) :
  width r = Z.max 0 (right r - left r) /\
  height r = Z.max 0 (bottom r - top r) /\
  0 <= width r /\ 0 <= height r /\
  (right r < left r -> width r = 0) /\
  (bottom r < top r -> height r = 0) /\
  (forall name v, Rect_setattr r name v = Raise FrozenInstanceError).
Proof.
  unfold width, height, Rect_setattr.
  repeat split; try reflexivity; lia.
Qed.

(** *** find_window_hwnd *)

Lemma matches_dec (q : string) (exact cs : bool) (title : string) :
  (exact && String.eqb (norm cs title) (norm cs q)
   || negb exact && str_contains (norm cs q) (norm cs title)) = true
  <-> spec_matches q exact cs title.
Proof.
  unfold spec_matches. destruct exact; simpl.
  - rewrite orb_false_r. apply String.eqb_eq.
  - apply str_contains_spec.
Qed.

Lemma find_first_spec (q : string) (exact cs : bool)
    (windows : list (Z * string)) :
  match find_first (norm cs q) exact cs windows with
  | Some h =>
      exists before t after,
        windows = before ++ (h, t) :: after /\
        spec_matches q exact cs t /\
        Forall (fun e => ~ spec_matches q exact cs (snd e)) before
  | None => Forall (fun e => ~ spec_matches q exact cs (snd e)) windows
  end.
Proof.
  induction windows as [|[h t] rest IH]; simpl.
  - constructor.
  - pose proof (matches_dec q exact cs t) as Hm.
    destruct (exact && String.eqb (norm cs t) (norm cs q)) eqn:E1.
    + exists [], t, rest. repeat split; [now apply Hm | constructor].
    + destruct (negb exact && str_contains (norm cs q) (norm cs t)) eqn:E2.
      * exists [], t, rest. repeat split; [now apply Hm | constructor].
      * assert (Hn : ~ spec_matches q exact cs t).
        { intros H. apply Hm in H. discriminate. }
        destruct (find_first (norm cs q) exact cs rest) as [h'|].
        -- destruct IH as (before & t' & after & -> & Ht & Hb).
           exists ((h, t) :: before), t', after.
           repeat split; [exact Ht | now constructor].
        -- now constructor.
Qed.

(** C3. For every query and every window list that the enumeration yields,
    [find_window_hwnd] returns the handle of the first entry, in list order,
    whose normalised title equals the normalised query ([exact]) or contains it
    as a substring (otherwise), the normalisation lower-casing both sides
    exactly when [case_sensitive] is false; with an empty list or no matching
    entry it returns [None], which is a result and not an exception. *)
Theorem find_window_hwnd_first_match (q : string) (exact cs : bool)
    (w w' : world) (windows : list (Z * string)) :
  list_visible_windows w = (Ok windows, w') ->
  (norm true q = q /\ norm false q = str_lower q) /\
  exists r,
    find_window_hwnd q exact cs w = (Ok r, w') /\
    (windows = [] -> r = None) /\
    match r with
    | Some h =>
        exists before t after,
          windows = before ++ (h, t) :: after /\
          spec_matches q exact cs t /\
          Forall (fun e => ~ spec_matches q exact cs (snd e)) before
    | None => Forall (fun e => ~ spec_matches q exact cs (snd e)) windows
    end.
Proof.
  intros Hl. split; [split; reflexivity|].
  exists (find_first (norm cs q) exact cs windows). split; [|split].
  - unfold find_window_hwnd, bind. now rewrite Hl.
  - now intros ->.
  - apply find_first_spec.
Qed.

(** C9. On a non-empty window list an empty query with [exact=false]
    returns the handle of the first entry, the empty string being a substring
    of every title; an empty query is answered [None] only when the list is
    empty, or when [exact] holds and no title is empty. *)
Theorem find_window_hwnd_empty_query (exact cs : bool)
    (w w' : world) (windows : list (Z * string)) :
  str_lower EmptyString = EmptyString ->
  list_visible_windows w = (Ok windows, w') ->
  (forall h t rest,
      windows = (h, t) :: rest ->
      find_window_hwnd EmptyString false cs w = (Ok (Some h), w')) /\
  (find_window_hwnd EmptyString exact cs w = (Ok None, w') ->
   windows = [] \/
   (exact = true /\ Forall (fun e => snd e <> EmptyString) windows)).
Proof.
  intros Hlow Hl.
  assert (Hq : norm cs EmptyString = EmptyString) by now destruct cs.
  split.
  - intros h t rest ->. unfold find_window_hwnd, bind. rewrite Hl, Hq.
    simpl. now rewrite str_contains_empty.
  - unfold find_window_hwnd, bind. rewrite Hl.
    unfold ret. intros H. injection H as H.
    destruct windows as [|[h t] rest]; [now left|right].
    pose proof (find_first_spec EmptyString exact cs ((h, t) :: rest)) as Hs.
    rewrite H in Hs.
    destruct exact.
    + split; [reflexivity|].
      eapply Forall_impl; [|exact Hs].
      intros [h' t'] Hn Ht'. simpl in *. apply Hn.
      unfold spec_matches. now rewrite Ht'.
    + exfalso. inversion Hs as [|? ? Hn _]; subst. apply Hn.
      unfold spec_matches; simpl. rewrite Hq.
      exists EmptyString, (norm cs t). reflexivity.
Qed.

(** *** bgra_to_rgb *)

Lemma stack_row_map (row : list (list Z)) :
  stack_row (map (fun px => nth 2 px 0) row)
            (map (fun px => nth 1 px 0) row)
            (map (fun px => nth 0 px 0) row)
  = map swap_px row.
Proof. induction row as [|px row IH]; simpl; [|rewrite IH]; reflexivity. Qed.

Lemma stack_last_map (rs : list (list (list Z))) :
  stack_last (map (map (fun px => nth 2 px 0)) rs)
             (map (map (fun px => nth 1 px 0)) rs)
             (map (map (fun px => nth 0 px 0)) rs)
  = map (map swap_px) rs.
Proof.
  induction rs as [|row rs IH]; simpl; [|rewrite IH, stack_row_map];
    reflexivity.
Qed.

Lemma bgra_to_rgb_rows (f : frame) (w : world) :
  numpy_importable = true ->
  (3 <= nchan f)%nat ->
  bgra_to_rgb (Some f) w = (Ok (mkFrame 3 (map (map swap_px) (rows f))), w).
Proof.
  intros Hnp Hc.
  unfold bgra_to_rgb, bind, import_module, lift, ret, take_channel.
  rewrite Hnp.
  replace (Nat.ltb 0 (nchan f)) with true
    by (symmetry; apply Nat.ltb_lt; lia).
  replace (Nat.ltb 1 (nchan f)) with true
    by (symmetry; apply Nat.ltb_lt; lia).
  replace (Nat.ltb 2 (nchan f)) with true
    by (symmetry; apply Nat.ltb_lt; lia).
  now rewrite stack_last_map.
Qed.

Lemma pixel_map (g : list Z -> list Z) (n : nat) (rs : list (list (list Z)))
    (i j : nat) :
  pixel (mkFrame n (map (map g) rs)) i j
  = option_map g (pixel (mkFrame 0 rs) i j).
Proof.
  unfold pixel; simpl. rewrite nth_error_map.
  destruct (nth_error rs i) as [row|]; simpl; [|reflexivity].
  now rewrite nth_error_map.
Qed.

(** C4. On a 4-channel BGRA buffer the conversion returns a 3-channel buffer
    of the same height and width, each pixel holding the input's channel 2,
    channel 1 and channel 0 in that order, the alpha sample dropped; on an
    input whose only non-zero colour channel is blue, the first two output
    channels are zero and the blue value is the third. *)
Theorem bgra_to_rgb_channels (f : frame) (h wd : nat) (w : world) :
  numpy_importable = true ->
  nchan f = 4%nat ->
  frame_shape f h wd ->
  exists g,
    bgra_to_rgb (Some f) w = (Ok g, w) /\
    nchan g = 3%nat /\
    frame_shape g h wd /\
    (forall i j b gr r a,
        pixel f i j = Some [b; gr; r; a] -> pixel g i j = Some [r; gr; b]) /\
    (forall i j, pixel g i j = None <-> pixel f i j = None) /\
    ((forall i j px, pixel f i j = Some px ->
                     nth 1 px 0 = 0 /\ nth 2 px 0 = 0) ->
     forall i j px, pixel f i j = Some px ->
                    pixel g i j = Some [0; 0; nth 0 px 0]).
Proof.
  intros Hnp Hc [Hh Hrows].
  exists (mkFrame 3 (map (map swap_px) (rows f))).
  assert (Hpx : forall i j,
             pixel (mkFrame 3 (map (map swap_px) (rows f))) i j
             = option_map swap_px (pixel f i j)).
  { intros i j. rewrite pixel_map. reflexivity. }
  split; [apply bgra_to_rgb_rows; [exact Hnp | lia]|].
  split; [reflexivity|].
  split; [|split; [|split]].
  - split; simpl.
    + now rewrite length_map.
    + rewrite Forall_map. eapply Forall_impl; [|exact Hrows].
      intros row [Hlen _]. rewrite length_map. split; [exact Hlen|].
      rewrite Forall_map. apply Forall_forall. reflexivity.
  - intros i j b gr r a H. rewrite Hpx, H. reflexivity.
  - intros i j. rewrite Hpx. destruct (pixel f i j); simpl; split;
      congruence.
  - intros Hblue i j px H. rewrite Hpx, H. simpl.
    destruct (Hblue i j px H) as [H1 H2]. unfold swap_px.
    now rewrite H1, H2.
Qed.

(** *** capture_fullscreen_rgb *)

(** C6. [capture_fullscreen_rgb] raises its range error exactly when the
    index lies outside [0, len(sct.monitors) - 1] (the capture library being
    importable), and on such an index it reaches the operating system not at
    all: the world, and with it the list of calls, is unchanged, so no grab
    is attempted. *)
Theorem capture_fullscreen_rgb_range (monitor_index : Z) (w : world) :
  let n := Z.of_nat (List.length mss_monitors) in
  (fst (capture_fullscreen_rgb monitor_index w) = Raise ValueError <->
   mss_importable = true /\ (monitor_index < 0 \/ n - 1 < monitor_index)) /\
  (monitor_index < 0 \/ n - 1 < monitor_index ->
   snd (capture_fullscreen_rgb monitor_index w) = w /\
   calls (snd (capture_fullscreen_rgb monitor_index w)) = calls w).
Proof.
  intros n.
  assert (Hout : monitor_index < 0 \/ n - 1 < monitor_index ->
                 snd (capture_fullscreen_rgb monitor_index w) = w).
  { intros Hr. unfold capture_fullscreen_rgb, bind, try_except,
      import_module, raise, ret.
    destruct mss_importable; simpl; [|reflexivity].
    fold n.
    replace ((monitor_index <? 0) || (monitor_index >=? n)) with true;
      [reflexivity|].
    symmetry. apply orb_true_iff. rewrite Z.ltb_lt, Z.geb_le. lia. }
  split.
  - unfold capture_fullscreen_rgb, bind, try_except, import_module, raise,
      ret.
    destruct mss_importable; simpl; [|split; [discriminate|intros [? _]; discriminate]].
    fold n.
    destruct ((monitor_index <? 0) || (monitor_index >=? n)) eqn:E.
    + apply orb_true_iff in E. rewrite Z.ltb_lt, Z.geb_le in E.
      split; [intros _; split; [reflexivity|lia] | reflexivity].
    + apply orb_false_iff in E. destruct E as [E1 E2].
      apply Z.ltb_ge in E1. rewrite Z.geb_leb in E2. apply Z.leb_gt in E2.
      split; [|intros [_ H]; lia].
      destruct (nth_error mss_monitors (Z.to_nat monitor_index)) as [mon|];
        [|discriminate].
      unfold grab, bind, log, raise, ret.
      destruct (mss_grab mon) as [shot|]; [|discriminate].
      unfold bgra_to_rgb, bind, import_module, raise, ret, lift,
        take_channel.
      destruct numpy_importable; simpl; [|discriminate].
      destruct (Nat.ltb 0 (nchan shot)); [|discriminate].
      destruct (Nat.ltb 1 (nchan shot)); [|discriminate].
      destruct (Nat.ltb 2 (nchan shot)); discriminate.
  - intros Hr. rewrite (Hout Hr). split; reflexivity.
Qed.

(** *** _try_set_dpi_awareness *)

(** The awareness of the process once [_try_set_dpi_awareness] has run from
    awareness [d]. *)
Lemma try_set_dpi_awareness_run (w : world) :
  fst (_try_set_dpi_awareness w) = Ok tt /\
  snd (_try_set_dpi_awareness w) =
    if ctypes_importable then
      let '(r1, d1) := shcore_SetProcessDpiAwareness 2 (dpi w) in
      match r1 with
      | Ok _ => mkWorld d1 (calls w ++ [CallSetProcessDpiAwareness 2])
      | Raise _ =>
          let '(_, d2) := user32_SetProcessDPIAware d1 in
          mkWorld d2 (calls w ++ [CallSetProcessDpiAwareness 2;
                                  CallSetProcessDPIAware])
      end
    else w.
Proof.
  unfold _try_set_dpi_awareness, try_except, bind, import_module, dpi_call,
    ret, raise.
  destruct ctypes_importable; simpl; [|split; reflexivity].
  destruct (shcore_SetProcessDpiAwareness 2 (dpi w)) as [[z1|e1] d1]; simpl;
    [split; reflexivity|].
  destruct (user32_SetProcessDPIAware d1) as [[z2|e2] d2]; simpl;
    rewrite <- app_assoc; split; reflexivity.
Qed.

Lemma dpi_after_run (w : world) :
  dpi (snd (_try_set_dpi_awareness w)) = dpi_after (dpi w).
Proof.
  destruct (try_set_dpi_awareness_run w) as [_ ->]. unfold dpi_after.
  destruct ctypes_importable; [|reflexivity].
  destruct (shcore_SetProcessDpiAwareness 2 (dpi w)) as [[z1|e1] d1];
    [reflexivity|].
  now destruct (user32_SetProcessDPIAware d1).
Qed.

(** C7. [_try_set_dpi_awareness] returns [None] and never raises, whatever
    the platform calls answer: it asks for the per-monitor mode first and
    stops there when that call returns; when it raises, the system mode is
    asked for next; when both raise, or ctypes itself cannot be imported,
    nothing is reported.  On a platform that keeps an awareness once one is
    set, a repeated call leaves the awareness as the first call left it. *)
Theorem try_set_dpi_awareness_best_effort (w : world) :
  let out := _try_set_dpi_awareness w in
  fst out = Ok tt /\
  (ctypes_importable = false -> snd out = w) /\
  (ctypes_importable = true ->
   forall r1 d1,
     shcore_SetProcessDpiAwareness 2 (dpi w) = (r1, d1) ->
     (is_ok r1 = true ->
      snd out = mkWorld d1 (calls w ++ [CallSetProcessDpiAwareness 2])) /\
     (is_ok r1 = false ->
      snd out = mkWorld (snd (user32_SetProcessDPIAware d1))
                  (calls w ++ [CallSetProcessDpiAwareness 2;
                               CallSetProcessDPIAware]))) /\
  ((forall v a, snd (shcore_SetProcessDpiAwareness v (Some a)) = Some a) ->
   (forall a, snd (user32_SetProcessDPIAware (Some a)) = Some a) ->
   fst (_try_set_dpi_awareness (snd out)) = Ok tt /\
   dpi (snd (_try_set_dpi_awareness (snd out))) = dpi (snd out)).
Proof.
  intros out. subst out.
  destruct (try_set_dpi_awareness_run w) as [Hr Hw].
  split; [exact Hr|]. split; [|split].
  - intros Hc. now rewrite Hw, Hc.
  - intros Hc r1 d1 H1. rewrite Hw, Hc, H1.
    destruct r1 as [z1|e1]; simpl; split; try discriminate; intros _;
      [reflexivity|].
    now destruct (user32_SetProcessDPIAware d1).
  - intros Hs Hu.
    split; [apply try_set_dpi_awareness_run|].
    rewrite !dpi_after_run.
    assert (Hkeep : forall a, dpi_after (Some a) = Some a).
    { intros a. unfold dpi_after. destruct ctypes_importable; [|reflexivity].
      pose proof (Hs 2 a) as H1.
      destruct (shcore_SetProcessDpiAwareness 2 (Some a)) as [[z1|e1] d1];
        simpl in *; [exact H1|]. subst d1. apply Hu. }
    destruct (dpi_after (dpi w)) as [a|] eqn:Hd; [apply Hkeep|].
    destruct (dpi w) as [a0|]; [|exact Hd].
    rewrite Hkeep in Hd. discriminate.
Qed.

(** *** capture_window_rgb *)

Lemma bgra_to_rgb_not_handle (fr : frame) (w : world) :
  fst (bgra_to_rgb (Some fr) w) <> Raise PyWinError.
Proof.
  unfold bgra_to_rgb, bind, import_module, raise, ret, lift, take_channel.
  destruct numpy_importable; simpl; [|discriminate].
  destruct (Nat.ltb 0 (nchan fr)); [|discriminate].
  destruct (Nat.ltb 1 (nchan fr)); [|discriminate].
  destruct (Nat.ltb 2 (nchan fr)); discriminate.
Qed.

Lemma spec_CaptureRect_not_handle (rect : Rect) (w : world) :
  fst (spec_CaptureRect rect w) <> Raise PyWinError.
Proof.
  unfold spec_CaptureRect, capture_rect_bgra, grab, bind, try_except,
    import_module, log, raise, ret.
  destruct mss_importable; simpl; [|discriminate].
  destruct (mss_grab _) as [shot|]; [|discriminate].
  destruct numpy_importable eqn:Hn; simpl; [|discriminate].
  apply bgra_to_rgb_not_handle.
Qed.

(** C8. [capture_window_rgb] is the composition of [get_window_rect],
    [capture_rect_bgra] and [bgra_to_rgb], that is [GetRect] followed by
    [CaptureRect]; it fails on an invalid handle exactly when
    [get_window_rect] does. *)
Theorem capture_window_rgb_composition (hwnd : Z) (client_area : bool)
    (w : world) :
  capture_window_rgb hwnd client_area w
  = spec_CaptureWindow hwnd client_area w /\
  capture_window_rgb hwnd client_area w
  = match get_window_rect hwnd client_area w with
    | (Ok rect, w1) =>
        match capture_rect_bgra rect w1 with
        | (Ok frame_bgra, w2) => bgra_to_rgb (Some frame_bgra) w2
        | (Raise e, w2) => (Raise e, w2)
        end
    | (Raise e, w1) => (Raise e, w1)
    end /\
  (fst (capture_window_rgb hwnd client_area w) = Raise PyWinError <->
   fst (get_window_rect hwnd client_area w) = Raise PyWinError).
Proof.
  split; [reflexivity|]. split; [reflexivity|].
  change (capture_window_rgb hwnd client_area w)
    with (bind (get_window_rect hwnd client_area) spec_CaptureRect w).
  unfold bind at 1.
  destruct (get_window_rect hwnd client_area w) as [[rect|e] w1]; simpl.
  - split; [|discriminate].
    intros H. now apply spec_CaptureRect_not_handle in H.
  - split; intros H; injection H as ->; reflexivity.
Qed.

End Facts.

(** The sample platform satisfies the assumptions made above. *)

Lemma find_window_hwnd_first_match_witness :
  @list_visible_windows sample_platform world0
  = (Ok [(100, "Foo"%string); (200, "FooBar"%string); (300, "Baz"%string)],
     mkWorld (Some PerMonitorAware)
       [CallSetProcessDpiAwareness 2; CallEnumWindows]) /\
  (@norm sample_platform true "foo" = "foo"%string /\
   @norm sample_platform false "foo" = @str_lower sample_platform "foo") /\
  exists r,
    @find_window_hwnd sample_platform "foo" false false world0
    = (Ok r, mkWorld (Some PerMonitorAware)
               [CallSetProcessDpiAwareness 2; CallEnumWindows]) /\
    ([(100, "Foo"%string); (200, "FooBar"%string); (300, "Baz"%string)] = []
     -> r = None) /\
    match r with
    | Some h =>
        exists before t after,
          [(100, "Foo"%string); (200, "FooBar"%string); (300, "Baz"%string)]
          = before ++ (h, t) :: after /\
          @spec_matches sample_platform "foo" false false t /\
          Forall (fun e => ~ @spec_matches sample_platform "foo" false false
                               (snd e)) before
    | None =>
        Forall (fun e => ~ @spec_matches sample_platform "foo" false false
                             (snd e))
          [(100, "Foo"%string); (200, "FooBar"%string); (300, "Baz"%string)]
    end.
Proof.
  split; [reflexivity|].
  apply (@find_window_hwnd_first_match sample_platform "foo" false false
           world0). reflexivity.
Defined.

Lemma find_window_hwnd_empty_query_witness :
  @str_lower sample_platform EmptyString = EmptyString /\
  @list_visible_windows sample_platform world0
  = (Ok [(100, "Foo"%string); (200, "FooBar"%string); (300, "Baz"%string)],
     mkWorld (Some PerMonitorAware)
       [CallSetProcessDpiAwareness 2; CallEnumWindows]) /\
  (forall h t rest,
      [(100, "Foo"%string); (200, "FooBar"%string); (300, "Baz"%string)]
      = (h, t) :: rest ->
      @find_window_hwnd sample_platform EmptyString false false world0
      = (Ok (Some h), mkWorld (Some PerMonitorAware)
                        [CallSetProcessDpiAwareness 2; CallEnumWindows])) /\
  (@find_window_hwnd sample_platform EmptyString false false world0
   = (Ok None, mkWorld (Some PerMonitorAware)
                 [CallSetProcessDpiAwareness 2; CallEnumWindows]) ->
   [(100, "Foo"%string); (200, "FooBar"%string); (300, "Baz"%string)] = [] \/
   (false = true /\
    Forall (fun e : Z * string => snd e <> EmptyString)
      [(100, "Foo"%string); (200, "FooBar"%string); (300, "Baz"%string)])).
Proof.
  split; [reflexivity|]. split; [reflexivity|].
  apply (@find_window_hwnd_empty_query sample_platform false false world0);
    reflexivity.
Defined.

Lemma bgra_to_rgb_channels_witness :
  @numpy_importable sample_platform = true /\
  nchan sample_frame = 4%nat /\
  frame_shape sample_frame 2 2 /\
  exists g,
    @bgra_to_rgb sample_platform (Some sample_frame) world0 = (Ok g, world0) /\
    nchan g = 3%nat /\
    frame_shape g 2 2 /\
    (forall i j b gr r a,
        pixel sample_frame i j = Some [b; gr; r; a] ->
        pixel g i j = Some [r; gr; b]) /\
    (forall i j, pixel g i j = None <-> pixel sample_frame i j = None) /\
    ((forall i j px, pixel sample_frame i j = Some px ->
                     nth 1 px 0 = 0 /\ nth 2 px 0 = 0) ->
     forall i j px, pixel sample_frame i j = Some px ->
                    pixel g i j = Some [0; 0; nth 0 px 0]).
Proof.
  assert (Hs : frame_shape sample_frame 2 2).
  { split; [reflexivity|]. repeat constructor. }
  split; [reflexivity|]. split; [reflexivity|]. split; [exact Hs|].
  apply (@bgra_to_rgb_channels sample_platform sample_frame 2 2 world0);
    [reflexivity | reflexivity | exact Hs].
Defined.

(** On the sample platform the first call sets the per-monitor mode and stops
    there; the second call is answered with an error code, which the code
    takes as a return, and changes nothing. *)
Example try_set_dpi_awareness_twice :
  @_try_set_dpi_awareness sample_platform world0
  = (Ok tt, mkWorld (Some PerMonitorAware) [CallSetProcessDpiAwareness 2]) /\
  @_try_set_dpi_awareness sample_platform
    (snd (@_try_set_dpi_awareness sample_platform world0))
  = (Ok tt, mkWorld (Some PerMonitorAware)
              [CallSetProcessDpiAwareness 2; CallSetProcessDpiAwareness 2]) /\
  (forall v a, snd (@shcore_SetProcessDpiAwareness sample_platform v (Some a))
               = Some a) /\
  (forall a, snd (@user32_SetProcessDPIAware sample_platform (Some a))
             = Some a).
Proof. repeat split. Qed.

(** The scenario of the specification, with ASCII lower-casing: the first
    match wins, an exact query picks the entry with that title, an unknown
    title is not found; and the case-sensitive search does not lower-case. *)
Example find_window_scenario :
  fst (@find_window_hwnd sample_platform "foo" false false world0)
  = Ok (Some 100) /\
  fst (@find_window_hwnd sample_platform "foobar" true false world0)
  = Ok (Some 200) /\
  fst (@find_window_hwnd sample_platform "qux" false false world0)
  = Ok None /\
  fst (@find_window_hwnd sample_platform "foo" false true world0)
  = Ok None /\
  fst (@find_window_hwnd sample_platform "Foo" false true world0)
  = Ok (Some 100).
Proof. repeat split. Qed.

End WindowsCaptureFacts.

(** ** Python arithmetic on integers below [2 ^ 53] *)

Lemma int_truediv_pos (a b : Z) :
  0 < a < 2 ^ 53 -> 0 < b < 2 ^ 53 ->
  exists m e,
    int_truediv a b = Ok (S754_finite false m e) /\
    e <= 0 /\
    (forall N, N * b <= a -> N * 2 ^ (- e) <= Zpos m) /\
    (forall N, a <= N * b -> Zpos m <= N * 2 ^ (- e)) /\
    (forall N, a < N * b -> N * b <= 2 ^ 52 -> Zpos m < N * 2 ^ (- e)).
Proof.
  intros Ha Hb. unfold int_truediv.
  replace (b =? 0) with false by (symmetry; apply Z.eqb_neq; lia).
  replace (a =? 0) with false by (symmetry; apply Z.eqb_neq; lia).
  replace (a <? 0) with false by (symmetry; apply Z.ltb_ge; lia).
  replace (b <? 0) with false by (symmetry; apply Z.ltb_ge; lia).
  rewrite !Z.abs_eq by lia.
  pose proof (@div_core_spec (xorb false false) a b Ha Hb) as H.
  destruct (SFdiv_core_binary prec emax a 0 b 0) as [[mz ez] lz].
  destruct H as (m & e & -> & H). exists m, e.
  split; [reflexivity|exact H].
Qed.

(** [int(a / b)] is the quotient truncated toward zero. *)
Lemma int_truediv_quot (a b : Z) :
  0 < b -> Z.abs a + b <= 2 ^ 52 ->
  exists f, int_truediv a b = Ok f /\ int_of_float f = Ok (Z.quot a b).
Proof.
  intros Hb Hab.
  assert (Hmag : forall c, 0 < c -> c + b <= 2 ^ 52 ->
            forall s, exists m e,
              binary_round_aux prec emax s
                (fst (fst (SFdiv_core_binary prec emax c 0 b 0)))
                (snd (fst (SFdiv_core_binary prec emax c 0 b 0)))
                (snd (SFdiv_core_binary prec emax c 0 b 0))
              = S754_finite s m e /\
              e <= 0 /\ Z.shiftl (Zpos m) e = c / b).
  { intros c Hc Hcb s.
    pose proof (@div_core_spec s c b ltac:(lia) ltac:(lia)) as H.
    destruct (SFdiv_core_binary prec emax c 0 b 0) as [[mz ez] lz].
    destruct H as (m & e & Hr & He & Hlo & _ & Hst).
    exists m, e. split; [exact Hr|]. split; [exact He|].
    rewrite Z.shiftl_div_pow2 by exact He.
    assert (Hp : 0 < 2 ^ (- e)) by (apply Z.pow_pos_nonneg; lia).
    pose proof (Z.mul_div_le c b ltac:(lia)) as H1.
    pose proof (Z.mul_succ_div_gt c b ltac:(lia)) as H2.
    assert (Hq0 : 0 <= c / b) by (apply Z.div_pos; lia).
    specialize (Hlo (c / b) ltac:(lia)).
    specialize (Hst (c / b + 1) ltac:(lia) ltac:(nia)).
    symmetry. apply Z.div_unique with (Zpos m - 2 ^ (- e) * (c / b)); lia. }
  unfold int_truediv.
  replace (b =? 0) with false by (symmetry; apply Z.eqb_neq; lia).
  replace (b <? 0) with false by (symmetry; apply Z.ltb_ge; lia).
  rewrite (Z.abs_eq b) by lia.
  destruct (Z.eqb_spec a 0) as [->|Hne].
  - eexists. split; [reflexivity|]. reflexivity.
  - destruct (Hmag (Z.abs a) ltac:(lia) Hab (xorb (a <? 0) false))
      as (m & e & Hr & He & Hq).
    destruct (SFdiv_core_binary prec emax (Z.abs a) 0 b 0) as [[mz ez] lz].
    cbn [fst snd] in Hr. rewrite Hr. eexists. split; [reflexivity|].
    cbn [int_of_float]. rewrite Hq. f_equal.
    rewrite xorb_false_r.
    destruct (Z.ltb_spec a 0) as [Hneg|Hpos]; cbn [cond_Zopp].
    + rewrite Z.abs_neq by lia.
      rewrite <- (Z.opp_involutive a) at 2.
      rewrite Z.quot_opp_l by lia. rewrite Z.quot_div_nonneg by lia.
      reflexivity.
    + rewrite Z.abs_eq by lia. rewrite Z.quot_div_nonneg by lia.
      reflexivity.
Qed.

(** A proper fraction [k / n] is a double between 0 and 1, whatever the
    size of the two integers. *)
Lemma int_truediv_unit (k n : Z) :
  0 < k <= n ->
  exists t, int_truediv k n = Ok t /\ SF_between 0 1 t.
Proof.
  intros Hk. unfold int_truediv.
  replace (n =? 0) with false by (symmetry; apply Z.eqb_neq; lia).
  replace (k =? 0) with false by (symmetry; apply Z.eqb_neq; lia).
  replace (k <? 0) with false by (symmetry; apply Z.ltb_ge; lia).
  replace (n <? 0) with false by (symmetry; apply Z.ltb_ge; lia).
  rewrite !Z.abs_eq by lia. cbn [xorb].
  pose proof (@Zdigits2_mono k n ltac:(lia)) as Hd.
  unfold SFdiv_core_binary. rewrite fexp_eq.
  set (d1 := Zdigits2 k) in *. set (d2 := Zdigits2 n) in *.
  replace (Z.min (Z.max (d1 + 0 - (d2 + 0) - 53) (-1074)) (0 - 0))
    with (Z.max (d1 - d2 - 53) (-1074)) by lia.
  set (e' := Z.max (d1 - d2 - 53) (-1074)).
  replace (0 - 0 - e') with (- e') by lia.
  assert (He' : e' <= -53) by (unfold e'; lia).
  destruct (- e') as [|shp|shp] eqn:Esh; try lia. rewrite <- Esh.
  set (sh := - e') in *.
  rewrite Z.shiftl_mul_pow2 by lia.
  assert (Hpsh := @pow2_pos sh ltac:(lia)).
  pose proof (Z_div_mod (k * 2 ^ sh) n ltac:(lia)) as Hqr.
  destruct (Z.div_eucl (k * 2 ^ sh) n) as [q r]. destruct Hqr as [Hqr Hr].
  assert (Hq0 : 0 <= q) by nia.
  assert (Hq : q <= 2 ^ sh).
  { assert (n * q <= n * 2 ^ sh) by nia.
    apply Z.mul_le_mono_pos_l in H; lia. }
  assert (Hdq : Zdigits2 q <= sh + 1).
  { apply Zdigits2_le; [lia|]. rewrite pow2_succ by lia. lia. }
  pose proof (Zdigits2_nonneg q) as Hdq0.
  set (n1 := Z.max 0 (fexp prec emax (Zdigits2 q + e') - e')).
  assert (HE : e' + n1 <= -52).
  { unfold n1. rewrite fexp_eq. unfold sh in *. lia. }
  destruct (@binary_round_aux_value false q e' (new_location n r) Hq0
              ltac:(fold n1; lia)) as (M & HM & HMe & Hres).
  fold n1 in HM, HMe, Hres.
  assert (Hn1 : 0 <= n1) by (unfold n1; lia).
  assert (Hpn := pow2_pos Hn1).
  set (g := - (e' + n1)) in *.
  assert (Hpg := @pow2_pos g ltac:(unfold g; lia)).
  assert (Hsplit : 2 ^ sh = 2 ^ g * 2 ^ n1).
  { rewrite <- Z.pow_add_r by (unfold g; lia). f_equal. unfold g, sh. lia. }
  assert (Hm2 : q / 2 ^ n1 <= 2 ^ g).
  { apply Z.div_le_upper_bound; [lia|]. rewrite Z.mul_comm. lia. }
  assert (HMg : M <= 2 ^ g).
  { destruct (Z.eq_dec (q / 2 ^ n1) (2 ^ g)) as [Heq|Hne]; [|lia].
    pose proof (Z.mul_div_le q (2 ^ n1) Hpn) as Hfl.
    rewrite Heq in Hfl.
    assert (Hq2 : q = 2 ^ sh) by lia.
    assert (Hr0 : r = 0) by nia.
    rewrite HMe; [lia| |].
    - now apply new_location_exact.
    - rewrite Hq2, Hsplit. apply Z.mod_mul. lia. }
  assert (HM0 : 0 <= M).
  { assert (0 <= q / 2 ^ n1) by (apply Z.div_pos; lia). lia. }
  destruct (binary_round_aux prec emax false q e' (new_location n r))
    as [s'|s'| |s' m e]; try tauto.
  - eexists. split; [reflexivity|]. cbn [SF_between]. lia.
  - destruct Hres as [-> Hres]. eexists. split; [reflexivity|].
    cbn [SF_between cond_Zopp].
    destruct Hres as [[-> Hm]|[-> Hm]].
    + replace (- (e' + n1)) with g by reflexivity.
      split; [lia|]. lia.
    + replace (- (e' + n1 + 1)) with (g - 1) by (unfold g; lia).
      assert (Hg1 : 2 ^ g = 2 * 2 ^ (g - 1)).
      { rewrite <- pow2_succ by (unfold g; lia). f_equal. lia. }
      split; [lia|]. lia.
Qed.

(** [float(n)] for an integer that is [m * 2 ^ e] with [m] of at most 53
    bits: the conversion is exact and does not overflow. *)
Lemma float_of_int_dyadic (m : positive) (e : Z) :
  Zpos (digits2_pos m) <= 53 -> 0 <= e <= 971 ->
  exists m' e', float_of_int (Zpos m * 2 ^ e) = Ok (S754_finite false m' e').
Proof.
  intros Hd He.
  assert (Hpe := @pow2_pos e ltac:(lia)).
  destruct (digits2_pos_bounds m) as [_ Hm].
  set (d := Zpos (digits2_pos m)) in *.
  assert (HN : 0 < Zpos m * 2 ^ e) by lia.
  unfold float_of_int.
  destruct (Zpos m * 2 ^ e) as [|p|p] eqn:Ep; try lia.
  cbn [binary_normalize]. unfold binary_round.
  pose proof (shl_align_spec p 0 (fexp prec emax (Zpos (digits2_pos p) + 0)))
    as Hal.
  destruct (shl_align p 0 _) as [mz ez]. destruct Hal as [Hez Hmz].
  rewrite fexp_eq in Hez.
  destruct (digits2_pos_bounds p) as [Hp1 Hp2].
  set (dp := Zpos (digits2_pos p)) in *.
  assert (Hdp : dp <= d + e).
  { assert (2 ^ (dp - 1) < 2 ^ (d + e)).
    { rewrite Z.pow_add_r by (unfold d; lia). rewrite <- Ep in Hp1. nia. }
    apply pow2_lt_inv in H; unfold d in *; lia. }
  assert (Hdp0 : 0 < dp) by (unfold dp; lia).
  assert (Hpz := @pow2_pos (0 - ez) ltac:(lia)).
  destruct (@Zdigits2_bounds (Zpos mz) eq_refl) as [Hz1 Hz2].
  assert (Hdz : Zdigits2 (Zpos mz) = dp - ez).
  { assert (H1 : Zdigits2 (Zpos mz) <= dp - ez).
    { apply Zdigits2_le; [lia|]. split; [lia|].
      rewrite Hmz.
      replace (dp - ez) with (dp + (0 - ez)) by lia.
      rewrite Z.pow_add_r by lia. nia. }
    pose proof (Zdigits2_nonneg (Zpos mz)) as Hdz0.
    set (dz := Zdigits2 (Zpos mz)) in *.
    assert (H2 : 2 ^ (dp - 1 + (0 - ez)) < 2 ^ dz).
    { rewrite Z.pow_add_r by lia. rewrite Hmz in Hz2. nia. }
    apply pow2_lt_inv in H2; lia. }
  destruct (@binary_round_aux_spec false (Zpos mz) ez loc_Exact ltac:(lia))
    as (M & -> & HM & HMe).
  rewrite fexp_eq, Hdz in *.
  replace (dp - ez + ez) with dp in * by lia.
  set (n1 := Z.max 0 (Z.max (dp - 53) (-1074) - ez)) in *.
  assert (Hn1 : n1 = Z.max (dp - 53) (-1074) - ez) by lia.
  assert (Hpn := @pow2_pos n1 ltac:(lia)).
  assert (Hmod : Zpos mz mod 2 ^ n1 = 0).
  { destruct (Z.eq_dec n1 0) as [->|Hn0]; [apply Z.mod_1_r|].
    assert (Hez0 : ez = 0) by lia.
    assert (Hmzp : Zpos mz = Zpos m * 2 ^ e).
    { rewrite Hmz, Hez0. change (2 ^ (0 - 0)) with 1. lia. }
    rewrite Hmzp.
    replace e with (e - n1 + n1) by lia.
    rewrite Z.pow_add_r by lia. rewrite Z.mul_assoc. apply Z.mod_mul. lia. }
  specialize (HMe eq_refl Hmod). subst M.
  assert (HM0 : 0 < Zpos mz / 2 ^ n1).
  { apply Z.div_str_pos. split; [lia|].
    assert (2 ^ n1 <= 2 ^ (dp - ez - 1)) by (apply Z.pow_le_mono_r; lia).
    lia. }
  assert (HMd : Zdigits2 (Zpos mz / 2 ^ n1) <= 53).
  { pose proof (@Zdigits2_shift (Zpos mz) n1 ltac:(lia) ltac:(lia)) as Hs.
    rewrite Hdz in Hs. lia. }
  rewrite pack_noshift; [|lia|rewrite fexp_eq; lia|lia].
  destruct (Zpos mz / 2 ^ n1) as [|m'|m']; try lia.
  exists m', (ez + n1). reflexivity.
Qed.

(** A finite result of [binary_round_aux] has at most 53 bits and an
    exponent of at most 971. *)
Lemma pack_canonical (s : bool) (M E : Z) :
  0 <= M ->
  match pack s M E with
  | S754_finite _ m e => Zpos (digits2_pos m) <= 53 /\ e <= 971
  | _ => True
  end.
Proof.
  intros HM. unfold pack.
  pose proof (@shr_fexp_spec M E loc_Exact HM) as H.
  destruct (shr_fexp prec emax M E loc_Exact) as [mrs e].
  rewrite fexp_eq in H.
  set (n := Z.max 0 (Z.max (Zdigits2 M + E - 53) (-1074) - E)) in *.
  destruct H as (-> & H2 & _). rewrite H2.
  pose proof (@Zdigits2_shift M n HM ltac:(lia)) as Hs.
  destruct (M / 2 ^ n) as [|m|m] eqn:Em; try exact I.
  destruct (Z.leb_spec (E + n) (emax - prec)) as [Hle|Hgt]; [|exact I].
  unfold emax, prec in Hle. cbn [Zdigits2] in Hs.
  split; [|lia].
  destruct (Z.eq_dec n 0) as [Hn|Hn]; [|lia].
  rewrite Hn, Z.div_1_r in Em. subst M. cbn [Zdigits2] in n. lia.
Qed.

Lemma fmul_canonical (x y : float) :
  match fmul x y with
  | S754_finite _ m e => Zpos (digits2_pos m) <= 53 /\ e <= 971
  | _ => True
  end.
Proof.
  unfold fmul.
  destruct x as [sx|sx| |sx mx ex], y as [sy|sy| |sy my ey];
    try exact I.
  cbn [SFmul].
  destruct (@binary_round_aux_spec (xorb sx sy) (Zpos (mx * my)) (ex + ey)
              loc_Exact ltac:(lia)) as (M & -> & HM & _).
  apply pack_canonical.
  assert (0 <= Zpos (mx * my) /
               2 ^ Z.max 0 (fexp prec emax (Zdigits2 (Zpos (mx * my))
                                            + (ex + ey)) - (ex + ey))).
  { apply Z.div_pos; [lia|]. apply pow2_pos. lia. }
  lia.
Qed.

Lemma SFdiv_core_nonneg (m1 e1 m2 e2 : Z) :
  0 < m1 -> 0 < m2 ->
  0 <= fst (fst (SFdiv_core_binary prec emax m1 e1 m2 e2)).
Proof.
  intros H1 H2. unfold SFdiv_core_binary.
  set (sh := e1 - e2 - _).
  set (m' := match sh with Zpos _ => Z.shiftl m1 sh | Z0 => m1 | Zneg _ => 0
             end).
  assert (Hm' : 0 <= m').
  { unfold m'. destruct sh; try lia. apply Z.shiftl_nonneg. lia. }
  pose proof (Z_div_mod m' m2 ltac:(lia)) as H.
  destruct (Z.div_eucl m' m2) as [q r]. cbn [fst]. nia.
Qed.

(** The quotient of a non-negative double by a positive one is neither NaN
    nor negative. *)
Lemma fdiv_nonneg (x : float) (my : positive) (ey : Z) :
  is_finite x = true -> flt x (S754_zero false) = false ->
  is_nan (fdiv x (S754_finite false my ey)) = false /\
  flt (fdiv x (S754_finite false my ey)) (S754_zero false) = false.
Proof.
  intros Hfx Hx.
  destruct x as [sx|sx| |sx mx ex]; try discriminate.
  - split; reflexivity.
  - assert (sx = false) by (destruct sx; [discriminate|reflexivity]).
    subst sx. unfold fdiv, SFdiv.
    pose proof (@SFdiv_core_nonneg (Zpos mx) ex (Zpos my) ey eq_refl eq_refl)
      as Hq.
    destruct (SFdiv_core_binary prec emax (Zpos mx) ex (Zpos my) ey)
      as [[mz ez] lz]. cbn [fst] in Hq.
    pose proof (@binary_round_aux_sign (xorb false false) mz ez lz Hq) as H.
    destruct (binary_round_aux prec emax (xorb false false) mz ez lz)
      as [s|s| |s m e]; try tauto; cbn in H; subst s; split; reflexivity.
Qed.

(** ** windows_input.py *)

Module WindowsInputFacts.
Import WindowsInput.

Section Facts.
Context {S : Screen}.

Lemma to_absolute_coords_quot (x y : Z) :
  0 < SM_CXSCREEN -> 0 < SM_CYSCREEN ->
  Z.abs x * 65535 + SM_CXSCREEN <= 2 ^ 52 ->
  Z.abs y * 65535 + SM_CYSCREEN <= 2 ^ 52 ->
  _to_absolute_coords x y
  = Ok (Z.quot (x * 65535) SM_CXSCREEN, Z.quot (y * 65535) SM_CYSCREEN).
Proof.
  intros HW HH Hx Hy. unfold _to_absolute_coords, _get_screen_size.
  destruct (@int_truediv_quot (x * 65535) SM_CXSCREEN HW
              ltac:(rewrite Z.abs_mul; simpl Z.abs; lia))
    as (fx & -> & ->).
  destruct (@int_truediv_quot (y * 65535) SM_CYSCREEN HH
              ltac:(rewrite Z.abs_mul; simpl Z.abs; lia))
    as (fy & -> & ->).
  reflexivity.
Qed.

Lemma move_mouse_trace (x y : Z) (tr : list event) :
  0 < SM_CXSCREEN -> 0 < SM_CYSCREEN ->
  Z.abs x * 65535 + SM_CXSCREEN <= 2 ^ 52 ->
  Z.abs y * 65535 + SM_CYSCREEN <= 2 ^ 52 ->
  move_mouse x y tr = (Ok tt, tr ++ [move_event x y]).
Proof.
  intros HW HH Hx Hy. unfold move_mouse, bind, lift.
  rewrite to_absolute_coords_quot by assumption. reflexivity.
Qed.

Lemma sleep_trace (secs : float) (tr : list event) :
  is_nan secs = false -> flt secs (S754_zero false) = false ->
  sleep secs tr = (Ok tt, tr ++ [Sleep secs]).
Proof. intros H1 H2. unfold sleep. now rewrite H1, H2. Qed.

(** Every waypoint of the interpolation lies between the two ends. *)
Lemma interpolate_between (start end_ i steps : Z) :
  Z.abs start < 2 ^ 52 -> Z.abs end_ < 2 ^ 52 ->
  0 <= i < steps ->
  exists z, interpolate start end_ i steps = Ok z /\
            Z.min start end_ <= z <= Z.max start end_.
Proof.
  intros Hs He Hi. unfold interpolate.
  destruct (@int_truediv_unit (i + 1) steps ltac:(lia))
    as (t & -> & Ht).
  destruct (@float_of_int_exact (end_ - start) ltac:(lia)) as (d & -> & Hd).
  destruct (@float_of_int_exact start ltac:(lia)) as (s & -> & Hs').
  pose proof (@fmul_between (end_ - start) d t ltac:(lia) Hd Ht) as Hp.
  pose proof (@fadd_between start start _ _ s _ Hs' Hp ltac:(lia)
                ltac:(lia)) as Hsum.
  destruct (@int_of_float_between _ _ _ Hsum) as (z & -> & Hz).
  exists z. split; [reflexivity|lia].
Qed.

Lemma drag_steps_inv (duration : float) (steps : Z) :
  drag_steps duration = Ok steps ->
  is_finite duration = true /\ 10 <= steps /\
  exists n, int_of_float (fmul duration f_60) = Ok n /\ steps = Z.max 10 n.
Proof.
  unfold drag_steps.
  change (float_of_int 60) with (Ok f_60). cbv beta iota.
  destruct (int_of_float (fmul duration f_60)) as [n|e] eqn:E;
    [|discriminate].
  intros H. injection H as <-.
  split; [|split; [lia|now exists n]].
  destruct duration as [s|s| |s m e]; try reflexivity; cbv in E;
    discriminate.
Qed.

(** The step count converts to a positive double. *)
Lemma drag_steps_float (duration : float) (steps : Z) :
  drag_steps duration = Ok steps ->
  exists m e, float_of_int steps = Ok (S754_finite false m e).
Proof.
  intros Hsteps.
  destruct (@drag_steps_inv duration steps Hsteps)
    as (_ & H10 & n & Hn & Hmax).
  destruct (Z_lt_le_dec steps (2 ^ 53)) as [Hlt|Hge].
  - destruct (@float_of_int_exact steps ltac:(lia)) as (fs & Hfs & Hb).
    destruct fs as [s|s| |s m e]; cbn [SF_between] in Hb; try tauto;
      try lia.
    destruct Hb as [He Hm].
    assert (Hp : 0 < 2 ^ (- e)) by (apply Z.pow_pos_nonneg; lia).
    destruct s; cbn [cond_Zopp] in Hm; [nia|].
    now exists m, e.
  - assert (Hsn : steps = n) by lia. subst n.
    pose proof (fmul_canonical duration f_60) as Hc.
    destruct (fmul duration f_60) as [s|s| |s m e]; cbn [int_of_float] in Hn;
      try discriminate.
    + injection Hn as Hn. lia.
    + injection Hn as Hn. destruct Hc as [Hd He].
      destruct (digits2_pos_bounds m) as [_ Hm].
      assert (Hm53 : Zpos m < 2 ^ 53).
      { assert (2 ^ Zpos (digits2_pos m) <= 2 ^ 53)
          by (apply Z.pow_le_mono_r; lia). lia. }
      destruct s; cbn [cond_Zopp] in Hn.
      * pose proof (Z.shiftl_nonneg (Zpos m) e). lia.
      * destruct (Z_lt_le_dec e 0) as [Hneg|Hpos].
        -- rewrite Z.shiftl_div_pow2 in Hn by lia.
           assert (Hp : 0 < 2 ^ (- e)) by (apply Z.pow_pos_nonneg; lia).
           assert (Zpos m / 2 ^ (- e) <= Zpos m).
           { apply Z.div_le_upper_bound; nia. }
           lia.
        -- rewrite Z.shiftl_mul_pow2 in Hn by lia. rewrite <- Hn.
           apply float_of_int_dyadic; lia.
Qed.

(** The delay of one step, [duration / steps], is a valid argument of
    [time.sleep]. *)
Lemma drag_pause (duration : float) (steps : Z) :
  flt duration (S754_zero false) = false ->
  drag_steps duration = Ok steps ->
  exists fs,
    float_of_int steps = Ok fs /\
    float_truediv duration fs = Ok (fdiv duration fs) /\
    is_nan (fdiv duration fs) = false /\
    flt (fdiv duration fs) (S754_zero false) = false.
Proof.
  intros Hd Hs.
  destruct (@drag_steps_inv duration steps Hs) as (Hf & _).
  destruct (@drag_steps_float duration steps Hs) as (m & e & Hfs).
  exists (S754_finite false m e). split; [exact Hfs|].
  split; [reflexivity|]. now apply fdiv_nonneg.
Qed.

Lemma drag_loop_trace (sx sy ex ey : Z) (duration : float) (steps : Z)
    (indices : list Z) (tr : list event) :
  0 < SM_CXSCREEN -> 0 < SM_CYSCREEN ->
  Z.abs sx * 65535 + SM_CXSCREEN <= 2 ^ 52 ->
  Z.abs ex * 65535 + SM_CXSCREEN <= 2 ^ 52 ->
  Z.abs sy * 65535 + SM_CYSCREEN <= 2 ^ 52 ->
  Z.abs ey * 65535 + SM_CYSCREEN <= 2 ^ 52 ->
  flt duration (S754_zero false) = false ->
  drag_steps duration = Ok steps ->
  Forall (fun i => 0 <= i < steps) indices ->
  exists fs wps,
    float_of_int steps = Ok fs /\
    Forall2 (waypoint_at sx sy ex ey steps) indices wps /\
    Forall (in_box sx sy ex ey) wps /\
    drag_loop sx sy ex ey duration steps indices tr
    = (Ok tt,
       tr ++ flat_map (fun p => [move_event (fst p) (snd p);
                                 Sleep (fdiv duration fs)]) wps).
Proof.
  intros HW HH Hsx Hex Hsy Hey Hd Hs Hind.
  destruct (@drag_pause duration steps Hd Hs)
    as (fs & Hfs & Hdiv & Hnan & Hneg).
  exists fs.
  revert tr. induction Hind as [|i rest Hi Hrest IH]; intros tr.
  - exists []. split; [exact Hfs|]. split; [constructor|].
    split; [constructor|]. simpl. now rewrite app_nil_r.
  - destruct (@interpolate_between sx ex i steps ltac:(lia) ltac:(lia) Hi)
      as (cx & Hcx & Hbx).
    destruct (@interpolate_between sy ey i steps ltac:(lia) ltac:(lia) Hi)
      as (cy & Hcy & Hby).
    destruct (IH (tr ++ [move_event cx cy; Sleep (fdiv duration fs)]))
      as (wps & _ & Hw2 & Hbox & Hloop).
    exists ((cx, cy) :: wps).
    split; [exact Hfs|]. split; [|split].
    + constructor; [split; assumption|exact Hw2].
    + constructor; [split; assumption|exact Hbox].
    + cbn [drag_loop]. unfold bind at 1. unfold lift at 1. rewrite Hcx.
      unfold bind at 1. unfold lift at 1. rewrite Hcy.
      unfold bind at 1.
      rewrite move_mouse_trace by (assumption || lia).
      unfold bind at 1. unfold lift at 1. rewrite Hfs, Hdiv.
      unfold bind at 1. rewrite sleep_trace by assumption.
      rewrite <- app_assoc. cbn [app]. rewrite Hloop.
      cbn [flat_map fst snd app]. rewrite <- app_assoc. reflexivity.
Qed.

Lemma last_move_app (l1 l2 : list event) (acc : option (Z * Z)) :
  last_move (l1 ++ l2) acc = last_move l2 (last_move l1 acc).
Proof.
  revert acc. induction l1 as [|e l1 IH]; intros acc; [reflexivity|].
  cbn [app last_move].
  destruct e as [[|[ty [m|k|h]] [|i2 rest]]|secs]; try apply IH.
  destruct (Z.land (dwFlags m) MOUSEEVENTF_MOVE =? 0); apply IH.
Qed.

Lemma quot_near_full (W : Z) :
  0 < W ->
  65535 - 65535 / W - 1 <= Z.quot ((W - 1) * 65535) W <= 65535.
Proof.
  intros HW. rewrite Z.quot_div_nonneg by lia.
  pose proof (Z.mul_div_le ((W - 1) * 65535) W HW) as H1.
  pose proof (Z.mul_succ_div_gt ((W - 1) * 65535) W HW) as H2.
  pose proof (Z.mul_div_le 65535 W HW) as H3.
  pose proof (Z.mul_succ_div_gt 65535 W HW) as H4.
  split; nia.
Qed.

(** C1 (amended).  On a screen of at most [2 ^ 36] pixels a side
    and for pixel coordinates of magnitude at most [2 ^ 35], [move_mouse]
    converts each coordinate on its own, x with the screen width and y with
    the screen height, to [pixel * 65535 / dimension] truncated toward zero
    (not rounded to nearest), and injects one absolute move event with that
    pair; the mapping is monotonic in each coordinate, sends pixel (0, 0) to
    (0, 0), and sends pixel (width - 1, height - 1) to within
    [65535 / dimension + 1] below 65535 in each coordinate. *)
Theorem to_absolute_coords_truncates (x y x' y' : Z) (tr : list event) :
  0 < SM_CXSCREEN <= 2 ^ 36 -> 0 < SM_CYSCREEN <= 2 ^ 36 ->
  Z.abs x <= 2 ^ 35 -> Z.abs y <= 2 ^ 35 ->
  Z.abs x' <= 2 ^ 35 -> Z.abs y' <= 2 ^ 35 ->
  _to_absolute_coords x y
  = Ok (Z.quot (x * 65535) SM_CXSCREEN, Z.quot (y * 65535) SM_CYSCREEN) /\
  move_mouse x y tr
  = (Ok tt, tr ++ [SendInput [move_input (Z.quot (x * 65535) SM_CXSCREEN)
                                         (Z.quot (y * 65535) SM_CYSCREEN)]])
  /\
  (exists ax ay ax' ay',
      _to_absolute_coords x y = Ok (ax, ay) /\
      _to_absolute_coords x' y' = Ok (ax', ay') /\
      (x <= x' -> ax <= ax') /\ (y <= y' -> ay <= ay')) /\
  _to_absolute_coords 0 0 = Ok (0, 0) /\
  (exists bx by_,
      _to_absolute_coords (SM_CXSCREEN - 1) (SM_CYSCREEN - 1)
      = Ok (bx, by_) /\
      65535 - 65535 / SM_CXSCREEN - 1 <= bx <= 65535 /\
      65535 - 65535 / SM_CYSCREEN - 1 <= by_ <= 65535).
Proof.
  intros HW HH Hx Hy Hx' Hy'.
  assert (H36 : 2 ^ 36 * 65536 = 2 ^ 52) by reflexivity.
  assert (H35 : 2 ^ 35 * 2 = 2 ^ 36) by reflexivity.
  assert (Hq : forall u v,
             Z.abs u <= 2 ^ 36 - 1 -> Z.abs v <= 2 ^ 36 - 1 ->
             _to_absolute_coords u v
             = Ok (Z.quot (u * 65535) SM_CXSCREEN,
                   Z.quot (v * 65535) SM_CYSCREEN)).
  { intros u v Hu Hv. apply to_absolute_coords_quot; lia. }
  split; [apply Hq; lia|].
  split; [apply move_mouse_trace; lia|].
  split; [|split].
  - do 4 eexists. split; [apply Hq; lia|]. split; [apply Hq; lia|].
    split; intros Hle; apply Z.quot_le_mono; lia.
  - rewrite Hq by lia. reflexivity.
  - do 2 eexists. split; [apply Hq; lia|].
    split; apply quot_near_full; lia.
Qed.

(** C2 (amended).  When the duration is non-negative and
    [int(duration * 60)] is defined, some [n], and the coordinates are in
    the range of [move_mouse], [drag] completes; it
    uses [steps = max(10, n)] steps, [n] being [duration * 60] truncated
    toward zero (not rounded to nearest); the loop emits, at each step [i] of
    [range(steps)], a move to [int(start + (end - start) * t)] with
    [t = (i + 1) / steps], computed in double precision and truncated
    toward zero, followed by a sleep of [duration / steps]; the loop is
    followed by a move to the end point, so that the last move of the whole
    trace is the move to [(end_x, end_y)], whatever the waypoints were, also
    when start and end coincide. *)
Theorem drag_lands_on_end (sx sy ex ey : Z) (duration : float) (steps : Z)
    (tr : list event) :
  0 < SM_CXSCREEN -> 0 < SM_CYSCREEN ->
  Z.abs sx * 65535 + SM_CXSCREEN <= 2 ^ 52 ->
  Z.abs ex * 65535 + SM_CXSCREEN <= 2 ^ 52 ->
  Z.abs sy * 65535 + SM_CYSCREEN <= 2 ^ 52 ->
  Z.abs ey * 65535 + SM_CYSCREEN <= 2 ^ 52 ->
  flt duration (S754_zero false) = false ->
  drag_steps duration = Ok steps ->
  (exists n, int_of_float (fmul duration f_60) = Ok n /\
             steps = Z.max 10 n) /\
  exists fs wps,
    float_of_int steps = Ok fs /\
    Forall2 (waypoint_at sx sy ex ey steps) (range steps) wps /\
    List.length wps = Z.to_nat steps /\
    drag sx sy ex ey duration tr
    = (Ok tt,
       tr ++ [move_event sx sy; Sleep f_0_05; down_event; Sleep f_0_05]
          ++ flat_map (fun p => [move_event (fst p) (snd p);
                                 Sleep (fdiv duration fs)]) wps
          ++ [move_event ex ey; Sleep f_0_05; up_event]) /\
    last_move (snd (drag sx sy ex ey duration tr)) None
    = Some (c_long (Z.quot (ex * 65535) SM_CXSCREEN),
            c_long (Z.quot (ey * 65535) SM_CYSCREEN)).
Proof.
  intros HW HH Hsx Hex Hsy Hey Hd Hsteps.
  destruct (@drag_steps_inv duration steps Hsteps) as (Hf & H10 & Hn).
  split; [exact Hn|].
  assert (Hrange : Forall (fun i => 0 <= i < steps) (range steps)).
  { unfold range. apply Forall_forall. intros i Hi.
    apply in_map_iff in Hi. destruct Hi as (k & <- & Hk).
    apply in_seq in Hk. lia. }
  destruct (@drag_loop_trace sx sy ex ey duration steps (range steps)
              ((((tr ++ [move_event sx sy]) ++ [Sleep f_0_05])
                  ++ [down_event]) ++ [Sleep f_0_05])
              HW HH Hsx Hex Hsy Hey Hd Hsteps Hrange)
    as (fs & wps & Hfs & Hw2 & _ & Hloop).
  exists fs, wps. split; [exact Hfs|]. split; [exact Hw2|].
  split.
  { rewrite <- (Forall2_length Hw2). unfold range.
    now rewrite length_map, length_seq. }
  assert (Hdrag :
    drag sx sy ex ey duration tr
    = (Ok tt,
       tr ++ [move_event sx sy; Sleep f_0_05; down_event; Sleep f_0_05]
          ++ flat_map (fun p => [move_event (fst p) (snd p);
                                 Sleep (fdiv duration fs)]) wps
          ++ [move_event ex ey; Sleep f_0_05; up_event])).
  { unfold drag.
    erewrite bind_ok by (apply move_mouse_trace; assumption).
    erewrite bind_ok by (apply sleep_trace; reflexivity).
    erewrite bind_ok by reflexivity.
    erewrite bind_ok by (apply sleep_trace; reflexivity).
    erewrite bind_ok by (unfold lift; rewrite Hsteps; reflexivity).
    erewrite bind_ok by (exact Hloop).
    erewrite bind_ok by (apply move_mouse_trace; assumption).
    erewrite bind_ok by (apply sleep_trace; reflexivity).
    unfold mouse_up, _send_input, emit. f_equal.
    repeat rewrite <- app_assoc. reflexivity. }
  split; [exact Hdrag|].
  rewrite Hdrag. cbn [snd].
  rewrite !app_assoc. rewrite last_move_app. reflexivity.
Qed.

(** The whole trace of a drag. *)
Lemma drag_run (sx sy ex ey : Z) (duration : float) (steps : Z)
    (tr : list event) :
  0 < SM_CXSCREEN -> 0 < SM_CYSCREEN ->
  Z.abs sx * 65535 + SM_CXSCREEN <= 2 ^ 52 ->
  Z.abs ex * 65535 + SM_CXSCREEN <= 2 ^ 52 ->
  Z.abs sy * 65535 + SM_CYSCREEN <= 2 ^ 52 ->
  Z.abs ey * 65535 + SM_CYSCREEN <= 2 ^ 52 ->
  flt duration (S754_zero false) = false ->
  drag_steps duration = Ok steps ->
  exists fs wps,
    float_of_int steps = Ok fs /\
    Forall2 (waypoint_at sx sy ex ey steps) (range steps) wps /\
    Forall (in_box sx sy ex ey) wps /\
    drag sx sy ex ey duration tr
    = (Ok tt,
       tr ++ [move_event sx sy; Sleep f_0_05; down_event; Sleep f_0_05]
          ++ flat_map (fun p => [move_event (fst p) (snd p);
                                 Sleep (fdiv duration fs)]) wps
          ++ [move_event ex ey; Sleep f_0_05; up_event]).
Proof.
  intros HW HH Hsx Hex Hsy Hey Hd Hsteps.
  assert (Hrange : Forall (fun i => 0 <= i < steps) (range steps)).
  { unfold range. apply Forall_forall. intros i Hi.
    apply in_map_iff in Hi. destruct Hi as (k & <- & Hk).
    apply in_seq in Hk. lia. }
  destruct (@drag_loop_trace sx sy ex ey duration steps (range steps)
              ((((tr ++ [move_event sx sy]) ++ [Sleep f_0_05])
                  ++ [down_event]) ++ [Sleep f_0_05])
              HW HH Hsx Hex Hsy Hey Hd Hsteps Hrange)
    as (fs & wps & Hfs & Hw2 & Hbox & Hloop).
  exists fs, wps. split; [exact Hfs|]. split; [exact Hw2|].
  split; [exact Hbox|].
  unfold drag.
  erewrite bind_ok by (apply move_mouse_trace; assumption).
  erewrite bind_ok by (apply sleep_trace; reflexivity).
  erewrite bind_ok by reflexivity.
  erewrite bind_ok by (apply sleep_trace; reflexivity).
  erewrite bind_ok by (unfold lift; rewrite Hsteps; reflexivity).
  erewrite bind_ok by (exact Hloop).
  erewrite bind_ok by (apply move_mouse_trace; assumption).
  erewrite bind_ok by (apply sleep_trace; reflexivity).
  unfold mouse_up, _send_input, emit. f_equal.
  repeat rewrite <- app_assoc. reflexivity.
Qed.

(** When the step count is not defined, the drag stops before its loop. *)
Lemma drag_no_steps (sx sy ex ey : Z) (duration : float) (e : exn)
    (tr : list event) :
  0 < SM_CXSCREEN -> 0 < SM_CYSCREEN ->
  Z.abs sx * 65535 + SM_CXSCREEN <= 2 ^ 52 ->
  Z.abs sy * 65535 + SM_CYSCREEN <= 2 ^ 52 ->
  drag_steps duration = Raise e ->
  drag sx sy ex ey duration tr
  = (Raise e, tr ++ [move_event sx sy; Sleep f_0_05; down_event;
                     Sleep f_0_05]).
Proof.
  intros HW HH Hx Hy Hs. unfold drag.
  erewrite bind_ok by (apply move_mouse_trace; assumption).
  erewrite bind_ok by (apply sleep_trace; reflexivity).
  erewrite bind_ok by reflexivity.
  erewrite bind_ok by (apply sleep_trace; reflexivity).
  unfold bind, lift. rewrite Hs. f_equal.
  unfold mouse_down, _send_input, emit.
  repeat rewrite <- app_assoc. reflexivity.
Qed.

(** C10 (amended).  For every call [drag(start_x, start_y, end_x, end_y,
    duration)] with a duration that is not negative and with start and end
    coordinates in the range of [move_mouse] (a screen of positive size and
    [|coordinate| * 65535 + dimension <= 2 ^ 52]), every intermediate
    waypoint emitted during the interpolation loop lies in the bounding box
    of the two ends: the events that the call adds to the trace are the
    move to the start, a pause, the press, a pause, then for each waypoint
    of the loop a move to it and a pause, then what follows the loop; each
    waypoint that is moved to has its x between [min(start_x, end_x)] and
    [max(start_x, end_x)] and its y between [min(start_y, end_y)] and
    [max(start_y, end_y)], so the pointer never leaves the box.  When the
    step count is defined the waypoints are those of [range(steps)], one
    for each index, and the loop is followed by the move to the end, a pause
    and the release; when it is not (the duration is NaN, or too large to
    be multiplied by 60) the call stops before the loop and no waypoint is
    emitted. *)
Theorem drag_waypoints_in_box (sx sy ex ey : Z) (duration : float)
    (tr : list event) :
  0 < SM_CXSCREEN -> 0 < SM_CYSCREEN ->
  Z.abs sx * 65535 + SM_CXSCREEN <= 2 ^ 52 ->
  Z.abs ex * 65535 + SM_CXSCREEN <= 2 ^ 52 ->
  Z.abs sy * 65535 + SM_CYSCREEN <= 2 ^ 52 ->
  Z.abs ey * 65535 + SM_CYSCREEN <= 2 ^ 52 ->
  flt duration (S754_zero false) = false ->
  exists (wps : list (Z * Z)) (pause : float) (rest : list event),
    snd (drag sx sy ex ey duration tr)
    = tr ++ [move_event sx sy; Sleep f_0_05; down_event; Sleep f_0_05]
         ++ flat_map (fun p => [move_event (fst p) (snd p); Sleep pause]) wps
         ++ rest /\
    Forall (in_box sx sy ex ey) wps /\
    match drag_steps duration with
    | Ok steps =>
        Forall2 (waypoint_at sx sy ex ey steps) (range steps) wps /\
        rest = [move_event ex ey; Sleep f_0_05; up_event]
    | Raise _ => wps = [] /\ rest = []
    end.
Proof.
  intros HW HH Hsx Hex Hsy Hey Hd.
  destruct (drag_steps duration) as [steps|e] eqn:Hsteps.
  - destruct (@drag_run sx sy ex ey duration steps tr
                HW HH Hsx Hex Hsy Hey Hd Hsteps)
      as (fs & wps & _ & Hw2 & Hbox & Hrun).
    exists wps, (fdiv duration fs), [move_event ex ey; Sleep f_0_05; up_event].
    rewrite Hrun. split; [reflexivity|]. split; [exact Hbox|].
    split; [exact Hw2|reflexivity].
  - exists [], f_0_05, [].
    rewrite (@drag_no_steps sx sy ex ey duration e tr HW HH Hsx Hsy Hsteps).
    split; [reflexivity|]. split; [constructor|]. split; reflexivity.
Qed.

End Facts.

(** *** The assumptions hold on a 1920 x 1080 screen *)

Lemma to_absolute_coords_truncates_witness :
  (0 < @SM_CXSCREEN screen_1920x1080 <= 2 ^ 36 /\
   0 < @SM_CYSCREEN screen_1920x1080 <= 2 ^ 36 /\
   Z.abs 960 <= 2 ^ 35 /\ Z.abs 540 <= 2 ^ 35 /\
   Z.abs 1000 <= 2 ^ 35 /\ Z.abs 600 <= 2 ^ 35) /\
  @_to_absolute_coords screen_1920x1080 960 540
  = Ok (Z.quot (960 * 65535) 1920, Z.quot (540 * 65535) 1080).
Proof.
  assert (H1 : 0 < @SM_CXSCREEN screen_1920x1080 <= 2 ^ 36)
    by (split; [reflexivity|discriminate]).
  assert (H2 : 0 < @SM_CYSCREEN screen_1920x1080 <= 2 ^ 36)
    by (split; [reflexivity|discriminate]).
  assert (H3 : Z.abs 960 <= 2 ^ 35) by discriminate.
  assert (H4 : Z.abs 540 <= 2 ^ 35) by discriminate.
  assert (H5 : Z.abs 1000 <= 2 ^ 35) by discriminate.
  assert (H6 : Z.abs 600 <= 2 ^ 35) by discriminate.
  split; [repeat split; assumption|].
  exact (proj1 (@to_absolute_coords_truncates screen_1920x1080
                  960 540 1000 600 [] H1 H2 H3 H4 H5 H6)).
Defined.

Lemma drag_lands_on_end_witness :
  (0 < @SM_CXSCREEN screen_1920x1080 /\
   0 < @SM_CYSCREEN screen_1920x1080 /\
   Z.abs 100 * 65535 + @SM_CXSCREEN screen_1920x1080 <= 2 ^ 52 /\
   Z.abs 300 * 65535 + @SM_CXSCREEN screen_1920x1080 <= 2 ^ 52 /\
   Z.abs 200 * 65535 + @SM_CYSCREEN screen_1920x1080 <= 2 ^ 52 /\
   flt f_0_5 (S754_zero false) = false /\
   drag_steps f_0_5 = Ok 30) /\
  @last_move (snd (@drag screen_1920x1080 100 200 300 200 f_0_5 [])) None
  = Some (c_long (Z.quot (300 * 65535) 1920),
          c_long (Z.quot (200 * 65535) 1080)).
Proof.
  assert (H1 : 0 < @SM_CXSCREEN screen_1920x1080) by reflexivity.
  assert (H2 : 0 < @SM_CYSCREEN screen_1920x1080) by reflexivity.
  assert (H3 : Z.abs 100 * 65535 + @SM_CXSCREEN screen_1920x1080 <= 2 ^ 52)
    by discriminate.
  assert (H4 : Z.abs 300 * 65535 + @SM_CXSCREEN screen_1920x1080 <= 2 ^ 52)
    by discriminate.
  assert (H5 : Z.abs 200 * 65535 + @SM_CYSCREEN screen_1920x1080 <= 2 ^ 52)
    by discriminate.
  assert (H6 : flt f_0_5 (S754_zero false) = false) by reflexivity.
  assert (H7 : drag_steps f_0_5 = Ok 30) by (vm_compute; reflexivity).
  split; [repeat split; assumption|].
  destruct (@drag_lands_on_end screen_1920x1080 100 200 300 200 f_0_5 30
              [] H1 H2 H3 H4 H5 H5 H6 H7)
    as (_ & fs & wps & _ & _ & _ & _ & Hlast).
  exact Hlast.
Defined.

Lemma drag_waypoints_in_box_witness :
  (0 < @SM_CXSCREEN screen_1920x1080 /\
   0 < @SM_CYSCREEN screen_1920x1080 /\
   Z.abs 100 * 65535 + @SM_CXSCREEN screen_1920x1080 <= 2 ^ 52 /\
   Z.abs 300 * 65535 + @SM_CXSCREEN screen_1920x1080 <= 2 ^ 52 /\
   Z.abs 200 * 65535 + @SM_CYSCREEN screen_1920x1080 <= 2 ^ 52 /\
   Z.abs 250 * 65535 + @SM_CYSCREEN screen_1920x1080 <= 2 ^ 52 /\
   flt f_0_5 (S754_zero false) = false) /\
  exists (wps : list (Z * Z)) (pause : float),
    snd (@drag screen_1920x1080 100 200 300 250 f_0_5 [])
    = [@move_event screen_1920x1080 100 200; Sleep f_0_05; down_event;
       Sleep f_0_05]
        ++ flat_map (fun p => [@move_event screen_1920x1080 (fst p) (snd p);
                               Sleep pause]) wps
        ++ [@move_event screen_1920x1080 300 250; Sleep f_0_05; up_event] /\
    Forall (in_box 100 200 300 250) wps /\
    Forall2 (waypoint_at 100 200 300 250 30) (range 30) wps.
Proof.
  assert (H1 : 0 < @SM_CXSCREEN screen_1920x1080) by reflexivity.
  assert (H2 : 0 < @SM_CYSCREEN screen_1920x1080) by reflexivity.
  assert (H3 : Z.abs 100 * 65535 + @SM_CXSCREEN screen_1920x1080 <= 2 ^ 52)
    by discriminate.
  assert (H4 : Z.abs 300 * 65535 + @SM_CXSCREEN screen_1920x1080 <= 2 ^ 52)
    by discriminate.
  assert (H5 : Z.abs 200 * 65535 + @SM_CYSCREEN screen_1920x1080 <= 2 ^ 52)
    by discriminate.
  assert (H6 : Z.abs 250 * 65535 + @SM_CYSCREEN screen_1920x1080 <= 2 ^ 52)
    by discriminate.
  assert (H7 : flt f_0_5 (S754_zero false) = false) by reflexivity.
  assert (H8 : drag_steps f_0_5 = Ok 30) by (vm_compute; reflexivity).
  split; [repeat split; assumption|].
  destruct (@drag_waypoints_in_box screen_1920x1080 100 200 300 250 f_0_5
              [] H1 H2 H3 H4 H5 H6 H7)
    as (wps & pause & rest & Htrace & Hbox & Hsteps).
  rewrite H8 in Hsteps. destruct Hsteps as [Hw2 Hrest].
  exists wps, pause. rewrite Htrace, Hrest.
  split; [reflexivity|]. split; [exact Hbox|exact Hw2].
Defined.

(** *** Where the claims as worded part from the code *)

(** C1 as worded fails: on a 1366 x 768 screen pixel (1, 1) maps to
    (47, 85), the truncation of 47.97..., where rounding gives (48, 85). *)
Lemma to_absolute_coords_not_rounded :
  @_to_absolute_coords screen_1366x768 1 1 = Ok (47, 85) /\
  @spec_to_absolute screen_1366x768 1 1 = Ok (48, 85).
Proof. split; vm_compute; reflexivity. Qed.

(** C2 as worded fails: a duration of 0.51 s gives [int(30.6) = 30] steps,
    where rounding gives 31; the trace of the drag then holds 34 injected
    events: the move to the start, the press, 30 waypoint moves, the move to
    the end and the release. *)
Lemma drag_steps_not_rounded :
  drag_steps f_0_51 = Ok 30 /\
  spec_steps f_0_51 = Ok 31 /\
  List.length
    (filter (fun e => match e with SendInput _ => true | Sleep _ => false end)
       (snd (@drag screen_1920x1080 0 0 100 0 f_0_51 [])))
  = 34%nat.
Proof. repeat split; vm_compute; reflexivity. Qed.

(** A negative duration is refused by [time.sleep] at the first step: the
    drag stops there with the button held, short of the end point. *)
Example drag_negative_duration :
  fst (@drag screen_1920x1080 0 0 100 0 f_neg_1 []) = Raise ValueError /\
  @last_move (snd (@drag screen_1920x1080 0 0 100 0 f_neg_1 [])) None
  = Some (Z.quot (10 * 65535) 1920, 0).
Proof. split; vm_compute; reflexivity. Qed.

(** The waypoint formula is evaluated in double precision: with 49 steps
    from 0 to 49 the first waypoint is [int(49 * (1 / 49))], and the double
    product is 0.9999999999999999. *)
Example interpolate_in_doubles :
  interpolate 0 49 0 49 = Ok 0 /\ interpolate 0 49 48 49 = Ok 49.
Proof. split; vm_compute; reflexivity. Qed.

(** C10 as worded fails: Python converts an [int] beyond [2 ^ 53] to the
    nearest double, so a drag from and to x = 2^53 + 1, whose box holds that
    one column only, computes the waypoint x = 2^53 at its first step and
    moves the pointer there: the fifth event of the trace, the first of the
    loop, is the move that [move_mouse(2 ** 53, 0)] injects, which is not
    the move to the start: their [dx] fields are 0 and 64. *)
Lemma drag_waypoint_outside_box :
  fst (@drag screen_1920x1080 (2 ^ 53 + 1) 0 (2 ^ 53 + 1) 0 f_0_5 [])
  = Ok tt /\
  drag_steps f_0_5 = Ok 30 /\
  interpolate (2 ^ 53 + 1) (2 ^ 53 + 1) 0 30 = Ok (2 ^ 53) /\
  interpolate 0 0 0 30 = Ok 0 /\
  2 ^ 53 < Z.min (2 ^ 53 + 1) (2 ^ 53 + 1) /\
  nth_error
    (snd (@drag screen_1920x1080 (2 ^ 53 + 1) 0 (2 ^ 53 + 1) 0 f_0_5 [])) 4
  = nth_error (snd (@move_mouse screen_1920x1080 (2 ^ 53) 0 [])) 0 /\
  snd (@move_mouse screen_1920x1080 (2 ^ 53) 0 [])
  = [SendInput [move_input 307441043312214016 0]] /\
  snd (@move_mouse screen_1920x1080 (2 ^ 53 + 1) 0 [])
  = [SendInput [move_input 307441043312214080 0]] /\
  c_long 307441043312214016 = 0 /\
  c_long 307441043312214080 = 64.
Proof. repeat split; vm_compute; reflexivity. Qed.

End WindowsInputFacts.

(** * Further properties *)

(** ** Delays *)



(** ** Exact products and quotients *)

(** A product by 1.0 is exact. *)
Lemma fmul_one (d : Z) (fd t : float) :
  - 2 ^ 53 < d < 2 ^ 53 ->
  SF_between d d fd -> SF_between 1 1 t -> SF_between d d (fmul fd t).
Proof.
  intros Hd Hfd Ht.
  destruct fd as [sd|sd| |sd md ed]; cbn [SF_between] in Hfd; try tauto;
    destruct t as [st|st| |st mt et]; cbn [SF_between] in Ht; try tauto;
    try (cbn; lia).
  destruct Hfd as [Hed Hmd], Ht as [Het Hmt].
  rewrite Z.mul_1_l in Hmt.
  assert (Hpd := @pow2_pos (- ed) ltac:(lia)).
  assert (Hpt := @pow2_pos (- et) ltac:(lia)).
  assert (st = false) by (destruct st; [cbn in Hmt; lia|reflexivity]).
  subst st. cbn [cond_Zopp] in Hmt.
  assert (Hmt' : Zpos mt = 2 ^ (- et)) by lia.
  unfold fmul. cbn [SFmul]. rewrite xorb_false_r.
  assert (Hs : 2 ^ (- (ed + et)) = 2 ^ (- ed) * 2 ^ (- et)).
  { rewrite <- Z.pow_add_r by lia. f_equal. lia. }
  assert (Habs : Z.abs d < 2 ^ 53) by lia.
  assert (Hedt : ed + et <= 0) by lia.
  pose proof (@binary_round_aux_between sd (Zpos (md * mt)) (ed + et)
                (Z.abs d) (Z.abs d) eq_refl Hedt (Z.abs_nonneg d) Habs) as H.
  destruct sd; cbn [cond_Zopp] in Hmd.
  - assert (d < 0) by nia.
    apply mag_between_neg.
    replace (Z.max 0 (- d)) with (Z.abs d) by lia.
    replace (- d) with (Z.abs d) by lia.
    apply H. rewrite Hs, Pos2Z.inj_mul, Hmt', Z.mul_assoc.
    replace (Z.abs d) with (- d) by lia.
    assert (Hm : Zpos md = - d * 2 ^ (- ed)) by lia. rewrite Hm. lia.
  - assert (0 < d) by nia.
    apply mag_between_pos.
    replace (Z.max 0 d) with (Z.abs d) by lia.
    replace d with (Z.abs d) at 2 by lia.
    apply H. rewrite Hs, Pos2Z.inj_mul, Hmt', Z.mul_assoc.
    replace (Z.abs d) with d by lia.
    assert (Hm : Zpos md = d * 2 ^ (- ed)) by lia. rewrite Hm. lia.
Qed.

(** [k / k] is 1.0. *)
Lemma int_truediv_self (k : Z) :
  0 < k < 2 ^ 53 ->
  exists t, int_truediv k k = Ok t /\ SF_between 1 1 t.
Proof.
  intros Hk.
  destruct (@int_truediv_pos k k Hk Hk) as (m & e & Hq & He & Hlo & Hhi & _).
  exists (S754_finite false m e). split; [exact Hq|].
  cbn [SF_between cond_Zopp]. split; [exact He|]. split.
  - apply Hlo. lia.
  - apply Hhi. lia.
Qed.

Lemma append_empty_r (s : string) : (s ++ EmptyString)%string = s.
Proof. induction s as [|c s IH]; simpl; [reflexivity|now rewrite IH]. Qed.

(** ** windows_capture.py: complete runs *)

Module WindowsCaptureRuns.
Import WindowsCapture.

Section Facts.
Context {P : Platform}.

(** *** The three checks that open the window functions *)

Lemma require_windows_run (w : world) :
  _require_windows w = if is_windows then (Ok tt, w) else (Raise OSError, w).
Proof. unfold _require_windows. now destruct is_windows. Qed.

Lemma require_pywin32_run (w : world) :
  _require_pywin32 w
  = if pywin32_importable then (Ok tt, w) else (Raise ImportError, w).
Proof.
  unfold _require_pywin32, try_except, import_module.
  now destruct pywin32_importable.
Qed.

Lemma try_set_dpi_awareness_ok (w : world) :
  _try_set_dpi_awareness w = (Ok tt, snd (_try_set_dpi_awareness w)).
Proof.
  destruct (WindowsCaptureFacts.try_set_dpi_awareness_run w) as [Hr _].
  destruct (_try_set_dpi_awareness w) as [r w']. simpl in *. now subst r.
Qed.

(** The attempt adds calls to the two DPI functions only, and forgets none
    of the calls made before. *)
Lemma try_set_dpi_awareness_calls (w : world) :
  exists cs, calls (snd (_try_set_dpi_awareness w)) = calls w ++ cs /\
             Forall not_grab cs.
Proof.
  destruct (WindowsCaptureFacts.try_set_dpi_awareness_run w) as [_ ->].
  destruct ctypes_importable.
  - destruct (shcore_SetProcessDpiAwareness 2 (dpi w)) as [[z|e] d1].
    + eexists. split; [reflexivity|]. repeat constructor.
    + destruct (user32_SetProcessDPIAware d1) as [r2 d2].
      eexists. split; [reflexivity|]. repeat constructor.
  - exists []. split; [now rewrite app_nil_r | constructor].
Qed.

(** The prelude shared by [list_visible_windows] and [get_window_rect]. *)
Lemma prelude_run {A} (k : M world A) (w : world) :
  (_require_windows ;;; _try_set_dpi_awareness ;;; _require_pywin32 ;;; k) w
  = if is_windows then
      if pywin32_importable then k (snd (_try_set_dpi_awareness w))
      else (Raise ImportError, snd (_try_set_dpi_awareness w))
    else (Raise OSError, w).
Proof.
  unfold bind at 1. rewrite require_windows_run.
  destruct is_windows; [|reflexivity].
  unfold bind at 1. rewrite try_set_dpi_awareness_ok.
  unfold bind at 1. rewrite require_pywin32_run.
  now destruct pywin32_importable.
Qed.

(** *** Closed forms of the runs *)

Lemma fold_enum_handler (hs : list Z) (acc : list (Z * string)) :
  fold_left enum_handler hs acc
  = acc ++ map (fun h => (h, str_strip (GetWindowText h)))
             (filter (fun h => IsWindowVisible h &&
                        negb (String.eqb (str_strip (GetWindowText h))
                                         EmptyString)) hs).
Proof.
  revert acc. induction hs as [|h hs IH]; intros acc; simpl.
  - now rewrite app_nil_r.
  - rewrite IH. unfold enum_handler.
    destruct (IsWindowVisible h); simpl; [|reflexivity].
    destruct (String.eqb (str_strip (GetWindowText h)) EmptyString); simpl;
      [reflexivity|].
    now rewrite <- app_assoc.
Qed.

Lemma list_visible_windows_run (w : world) :
  is_windows = true -> pywin32_importable = true ->
  list_visible_windows w
  = (Ok (map (fun h => (h, str_strip (GetWindowText h)))
           (filter (fun h => IsWindowVisible h &&
                      negb (String.eqb (str_strip (GetWindowText h))
                                       EmptyString)) top_level_windows)),
     mkWorld (dpi (snd (_try_set_dpi_awareness w)))
       (calls (snd (_try_set_dpi_awareness w)) ++ [CallEnumWindows])).
Proof.
  intros Hw Hp. unfold list_visible_windows. rewrite prelude_run, Hw, Hp.
  unfold bind, log, ret. now rewrite fold_enum_handler.
Qed.

Lemma get_window_rect_run (hwnd : Z) (client_area : bool) (w : world) :
  is_windows = true -> pywin32_importable = true ->
  get_window_rect hwnd client_area w
  = let w1 := snd (_try_set_dpi_awareness w) in
    if client_area then
      match win32_ClientToScreen hwnd (0, 0) with
      | None =>
          (Raise PyWinError,
           mkWorld (dpi w1) (calls w1 ++ [CallClientToScreen hwnd]))
      | Some (l, t) =>
          (match win32_GetClientRect hwnd with
           | None => Raise PyWinError
           | Some (c0, c1, c2, c3) =>
               Ok (mkRect l t (l + (c2 - c0)) (t + (c3 - c1)))
           end,
           mkWorld (dpi w1) (calls w1 ++ [CallClientToScreen hwnd;
                                          CallGetClientRect hwnd]))
      end
    else
      (match win32_GetWindowRect hwnd with
       | None => Raise PyWinError
       | Some (l, t, r, b) => Ok (mkRect l t r b)
       end,
       mkWorld (dpi w1) (calls w1 ++ [CallGetWindowRect hwnd])).
Proof.
  intros Hw Hp. unfold get_window_rect. rewrite prelude_run, Hw, Hp.
  unfold win32_call, bind, log, ret, raise. cbv zeta.
  destruct client_area.
  - destruct (win32_ClientToScreen hwnd (0, 0)) as [[l t]|]; [|reflexivity].
    simpl. rewrite <- app_assoc. simpl.
    now destruct (win32_GetClientRect hwnd) as [[[[c0 c1] c2] c3]|].
  - now destruct (win32_GetWindowRect hwnd) as [[[[l t] r] b]|].
Qed.

Lemma capture_rect_bgra_run (rect : Rect) (w : world) :
  mss_importable = true ->
  capture_rect_bgra rect w
  = (match mss_grab (mkMonitor (left rect) (top rect) (width rect)
                       (height rect)) with
     | None => Raise ScreenShotError
     | Some shot => if numpy_importable then Ok shot else Raise ImportError
     end,
     mkWorld (dpi w)
       (calls w ++ [CallGrab (mkMonitor (left rect) (top rect) (width rect)
                                (height rect))])).
Proof.
  intros Hm.
  unfold capture_rect_bgra, try_except, bind, import_module, grab, log,
    ret, raise. rewrite Hm.
  destruct (mss_grab _) as [shot|]; [|reflexivity].
  now destruct numpy_importable.
Qed.

Lemma bgra_to_rgb_run (x : option frame) (w : world) :
  bgra_to_rgb x w
  = (if numpy_importable then
       match x with
       | None => Raise ValueError
       | Some f =>
           if Nat.ltb (nchan f) 3 then Raise IndexError
           else Ok (mkFrame 3 (map (map swap_px) (rows f)))
       end
     else Raise ImportError, w).
Proof.
  destruct numpy_importable eqn:Hn.
  - destruct x as [f|].
    + destruct (Nat.ltb (nchan f) 3) eqn:E.
      * apply Nat.ltb_lt in E.
        unfold bgra_to_rgb, bind, import_module, lift, ret, take_channel.
        rewrite Hn.
        destruct (Nat.ltb 0 (nchan f)) eqn:E0; [|reflexivity].
        destruct (Nat.ltb 1 (nchan f)) eqn:E1; [|reflexivity].
        destruct (Nat.ltb 2 (nchan f)) eqn:E2; [|reflexivity].
        apply Nat.ltb_lt in E2. lia.
      * apply Nat.ltb_ge in E.
        now apply WindowsCaptureFacts.bgra_to_rgb_rows.
    + unfold bgra_to_rgb, bind, import_module. now rewrite Hn.
  - unfold bgra_to_rgb, bind, import_module. now rewrite Hn.
Qed.

Lemma swap_px_involutive (px : list Z) :
  List.length px = 3%nat -> swap_px (swap_px px) = px.
Proof.
  destruct px as [|a [|b [|c [|d px]]]]; try discriminate. reflexivity.
Qed.

Lemma map_swap_twice (rs : list (list (list Z))) :
  Forall (fun row => Forall (fun px => List.length px = 3%nat) row) rs ->
  map (map swap_px) (map (map swap_px) rs) = rs.
Proof.
  induction 1 as [|row rs Hrow _ IH]; simpl; [reflexivity|].
  rewrite IH. f_equal.
  induction Hrow as [|px row Hpx _ IHr]; simpl; [reflexivity|].
  now rewrite IHr, swap_px_involutive.
Qed.

Lemma swapped_shape (f : frame) (h wd : nat) :
  frame_shape f h wd ->
  frame_shape (mkFrame 3 (map (map swap_px) (rows f))) h wd.
Proof.
  intros [Hh Hrows]. split; simpl; [now rewrite length_map|].
  rewrite Forall_map. eapply Forall_impl; [|exact Hrows].
  intros row [Hlen _]. rewrite length_map. split; [exact Hlen|].
  rewrite Forall_map. apply Forall_forall. reflexivity.
Qed.

(** *** list_visible_windows and find_window_hwnd *)

(** X1. On Windows with pywin32, [list_visible_windows] returns, in the
    order of the enumeration, one entry for every top-level window that is
    visible and whose title is not empty once stripped, and no other entry;
    the title of an entry is the stripped title of its window.  The
    enumeration is the one call it adds after the DPI attempt. *)
Theorem list_visible_windows_entries (w : world) :
  is_windows = true -> pywin32_importable = true ->
  exists l w',
    list_visible_windows w = (Ok l, w') /\
    calls w' = calls (snd (_try_set_dpi_awareness w)) ++ [CallEnumWindows] /\
    l = map (fun h => (h, str_strip (GetWindowText h)))
          (filter (fun h => IsWindowVisible h &&
                     negb (String.eqb (str_strip (GetWindowText h))
                                      EmptyString)) top_level_windows) /\
    (forall h t,
        In (h, t) l <->
        In h top_level_windows /\ IsWindowVisible h = true /\
        t = str_strip (GetWindowText h) /\ t <> EmptyString).
Proof.
  intros Hw Hp. eexists. eexists.
  split; [now apply list_visible_windows_run|].
  split; [reflexivity|]. split; [reflexivity|].
  intros h t. rewrite in_map_iff. split.
  - intros (h' & E & Hin). injection E as -> <-.
    apply filter_In in Hin. destruct Hin as [Hin Hk].
    apply andb_true_iff in Hk. destruct Hk as [Hv Hn].
    repeat split; try assumption.
    intros E. rewrite E in Hn. discriminate.
  - intros (Hin & Hv & -> & Hn). exists h. split; [reflexivity|].
    apply filter_In. split; [exact Hin|]. rewrite Hv. simpl.
    destruct (String.eqb_spec (str_strip (GetWindowText h)) EmptyString);
      [contradiction|reflexivity].
Qed.

(** X2. On a system that is not Windows the four window functions raise
    [OSError] and reach the operating system not at all.  On Windows without
    pywin32 they raise [ImportError], yet only once the DPI attempt has been
    made: its effect on the process stays. *)
Theorem window_functions_prelude_errors (w : world) :
  (is_windows = false ->
   list_visible_windows w = (Raise OSError, w) /\
   (forall q exact cs, find_window_hwnd q exact cs w = (Raise OSError, w)) /\
   (forall hwnd ca, get_window_rect hwnd ca w = (Raise OSError, w)) /\
   (forall hwnd ca, capture_window_rgb hwnd ca w = (Raise OSError, w))) /\
  (is_windows = true -> pywin32_importable = false ->
   let w1 := snd (_try_set_dpi_awareness w) in
   dpi w1 = dpi_after (dpi w) /\
   list_visible_windows w = (Raise ImportError, w1) /\
   (forall q exact cs,
       find_window_hwnd q exact cs w = (Raise ImportError, w1)) /\
   (forall hwnd ca, get_window_rect hwnd ca w = (Raise ImportError, w1)) /\
   (forall hwnd ca, capture_window_rgb hwnd ca w = (Raise ImportError, w1))).
Proof.
  split.
  - intros Hw.
    assert (Hl : list_visible_windows w = (Raise OSError, w))
      by (unfold list_visible_windows; now rewrite prelude_run, Hw).
    assert (Hg : forall hwnd ca,
               get_window_rect hwnd ca w = (Raise OSError, w))
      by (intros; unfold get_window_rect; now rewrite prelude_run, Hw).
    repeat split; try assumption.
    + intros. unfold find_window_hwnd, bind. now rewrite Hl.
    + intros. unfold capture_window_rgb, bind. now rewrite Hg.
  - intros Hw Hp w1.
    assert (Hl : list_visible_windows w = (Raise ImportError, w1))
      by (unfold list_visible_windows; now rewrite prelude_run, Hw, Hp).
    assert (Hg : forall hwnd ca,
               get_window_rect hwnd ca w = (Raise ImportError, w1))
      by (intros; unfold get_window_rect; now rewrite prelude_run, Hw, Hp).
    split; [apply WindowsCaptureFacts.dpi_after_run|].
    repeat split; try assumption.
    + intros. unfold find_window_hwnd, bind. now rewrite Hl.
    + intros. unfold capture_window_rgb, bind. now rewrite Hg.
Qed.

Lemma find_first_In (q : string) (exact cs : bool)
    (windows : list (Z * string)) (h : Z) :
  find_first q exact cs windows = Some h ->
  exists t, In (h, t) windows.
Proof.
  induction windows as [|[h' t'] rest IH]; simpl; [discriminate|].
  destruct (exact && String.eqb (norm cs t') q).
  - intros E. injection E as ->. exists t'. now left.
  - destruct (negb exact && str_contains q (norm cs t')).
    + intros E. injection E as ->. exists t'. now left.
    + intros E. destruct (IH E) as (t & Ht). exists t. now right.
Qed.

(** X3. A handle that [find_window_hwnd] returns is the handle of a
    top-level window that is visible and has a title that is not empty once
    stripped: a hidden or untitled window is never found, whatever the
    query. *)
Theorem find_window_hwnd_visible (q : string) (exact cs : bool)
    (w w' : world) (h : Z) :
  find_window_hwnd q exact cs w = (Ok (Some h), w') ->
  In h top_level_windows /\ IsWindowVisible h = true /\
  str_strip (GetWindowText h) <> EmptyString.
Proof.
  unfold find_window_hwnd. unfold bind at 1.
  destruct (list_visible_windows w) as [[l|e] w1] eqn:Hl; [|discriminate].
  unfold ret. intros E. injection E as E _.
  destruct (@find_first_In _ _ _ _ _ E) as (t & Hin).
  assert (Hw : is_windows = true).
  { destruct is_windows eqn:Hw; [reflexivity|].
    unfold list_visible_windows in Hl. rewrite prelude_run, Hw in Hl.
    discriminate. }
  assert (Hp : pywin32_importable = true).
  { destruct pywin32_importable eqn:Hp; [reflexivity|].
    unfold list_visible_windows in Hl. rewrite prelude_run, Hw, Hp in Hl.
    discriminate. }
  rewrite list_visible_windows_run in Hl by assumption.
  injection Hl as <- _.
  apply in_map_iff in Hin. destruct Hin as (h' & E' & Hin).
  injection E' as -> _.
  apply filter_In in Hin. destruct Hin as [Hin Hk].
  apply andb_true_iff in Hk. destruct Hk as [Hv Hn].
  repeat split; try assumption.
  intros E'. rewrite E' in Hn. discriminate.
Qed.

(** Two splits of one list at elements [x] and [y]: when nothing before
    [x] satisfies what [y] satisfies, [x] comes no later than [y]. *)
Lemma split_position {A} (Q : A -> Prop) (b1 b2 a1 a2 : list A) (x y : A) :
  b1 ++ x :: a1 = b2 ++ y :: a2 ->
  Forall Q b1 -> ~ Q y ->
  (List.length b1 <= List.length b2)%nat.
Proof.
  revert b2. induction b1 as [|z b1 IH]; intros b2 E HQ Hy; simpl; [lia|].
  destruct b2 as [|z2 b2]; simpl in E.
  - injection E as -> _. inversion HQ; subst. contradiction.
  - injection E as _ E. inversion HQ; subst.
    specialize (IH b2 E ltac:(assumption) Hy). simpl. lia.
Qed.

(** X27. Whenever the exact search finds a window, the substring search
    with the same query and case flag finds one too, and the window it
    finds comes no later in the enumeration: an exact match is a
    substring match, but an earlier title that merely contains the query
    wins the substring search. *)
Theorem find_window_hwnd_exact_then_contains (q : string) (cs : bool)
    (w w' : world) (windows : list (Z * string)) (h : Z) :
  list_visible_windows w = (Ok windows, w') ->
  find_window_hwnd q true cs w = (Ok (Some h), w') ->
  exists h' b1 t1 a1 b2 t2 a2,
    find_window_hwnd q false cs w = (Ok (Some h'), w') /\
    windows = b1 ++ (h', t1) :: a1 /\
    windows = b2 ++ (h, t2) :: a2 /\
    (List.length b1 <= List.length b2)%nat.
Proof.
  intros Hl. unfold find_window_hwnd, bind. rewrite Hl. unfold ret.
  intros E. injection E as E.
  pose proof (WindowsCaptureFacts.find_first_spec q true cs windows) as Hx.
  rewrite E in Hx.
  destruct Hx as (b2 & t2 & a2 & Hw2 & Hm2 & _).
  assert (Hsub : spec_matches q false cs t2).
  { unfold spec_matches in *. rewrite Hm2.
    exists EmptyString, EmptyString. simpl.
    symmetry. apply append_empty_r. }
  pose proof (WindowsCaptureFacts.find_first_spec q false cs windows) as Hc.
  destruct (find_first (norm cs q) false cs windows) as [h'|].
  - destruct Hc as (b1 & t1 & a1 & Hw1 & Hm1 & Hb1).
    exists h', b1, t1, a1, b2, t2, a2.
    split; [reflexivity|]. split; [exact Hw1|]. split; [exact Hw2|].
    apply (@split_position _ (fun e => ~ spec_matches q false cs (snd e))
             b1 b2 a1 a2 (h', t1) (h, t2)).
    + now rewrite <- Hw1, <- Hw2.
    + exact Hb1.
    + simpl. tauto.
  - exfalso. rewrite Hw2 in Hc. apply Forall_app in Hc.
    destruct Hc as [_ Hc]. inversion Hc; subst. simpl in *. contradiction.
Qed.

(** *** get_window_rect *)

(** X4. For a live window, on Windows with pywin32: with [client_area] the
    rectangle has its top-left corner where [ClientToScreen] puts the client
    point (0, 0) and the extent of the client rectangle, [client[2] -
    client[0]] by [client[3] - client[1]], whatever the origin of that
    rectangle; the two calls are made in that order.  Without [client_area]
    the rectangle is that of [GetWindowRect], unchanged. *)
Theorem get_window_rect_geometry (hwnd : Z) (w : world) :
  is_windows = true -> pywin32_importable = true ->
  let w1 := snd (_try_set_dpi_awareness w) in
  (forall l t c0 c1 c2 c3,
      win32_ClientToScreen hwnd (0, 0) = Some (l, t) ->
      win32_GetClientRect hwnd = Some (c0, c1, c2, c3) ->
      exists r,
        get_window_rect hwnd true w
        = (Ok r, mkWorld (dpi w1)
                   (calls w1 ++ [CallClientToScreen hwnd;
                                 CallGetClientRect hwnd])) /\
        left r = l /\ top r = t /\
        right r - left r = c2 - c0 /\ bottom r - top r = c3 - c1 /\
        width r = Z.max 0 (c2 - c0) /\ height r = Z.max 0 (c3 - c1)) /\
  (forall l t r b,
      win32_GetWindowRect hwnd = Some (l, t, r, b) ->
      get_window_rect hwnd false w
      = (Ok (mkRect l t r b),
         mkWorld (dpi w1) (calls w1 ++ [CallGetWindowRect hwnd]))).
Proof.
  intros Hw Hp w1. split.
  - intros l t c0 c1 c2 c3 H1 H2.
    exists (mkRect l t (l + (c2 - c0)) (t + (c3 - c1))).
    split.
    + rewrite get_window_rect_run by assumption. cbv zeta.
      now rewrite H1, H2.
    + unfold width, height. simpl. repeat split; lia.
  - intros l t r b H.
    rewrite get_window_rect_run by assumption. cbv zeta. now rewrite H.
Qed.

(** X5. On a handle that is not a live window, [get_window_rect] raises
    the error of pywin32, and [capture_window_rgb] raises it too, leaving
    the world as [get_window_rect] left it: among the calls added there is
    no screen grab. *)
Theorem dead_handle_never_grabs (hwnd : Z) (client_area : bool) (w : world) :
  is_windows = true -> pywin32_importable = true ->
  (if client_area
   then win32_ClientToScreen hwnd (0, 0) = None \/
        win32_GetClientRect hwnd = None
   else win32_GetWindowRect hwnd = None) ->
  exists w' cs,
    get_window_rect hwnd client_area w = (Raise PyWinError, w') /\
    capture_window_rgb hwnd client_area w = (Raise PyWinError, w') /\
    calls w' = calls w ++ cs /\ Forall not_grab cs.
Proof.
  intros Hw Hp Hd.
  destruct (try_set_dpi_awareness_calls w) as (cs & Hcs & Hng).
  assert (Hgoal : exists w' cs',
             get_window_rect hwnd client_area w = (Raise PyWinError, w') /\
             calls w' = calls w ++ cs' /\ Forall not_grab cs').
  { rewrite get_window_rect_run by assumption. cbv zeta.
    destruct client_area.
    - destruct (win32_ClientToScreen hwnd (0, 0)) as [[l t]|] eqn:E1.
      + destruct Hd as [Hd|Hd]; [discriminate|]. rewrite Hd.
        eexists.
        exists (cs ++ [CallClientToScreen hwnd; CallGetClientRect hwnd]).
        split; [reflexivity|]. simpl. rewrite Hcs, <- !app_assoc.
        split; [reflexivity|].
        apply Forall_app. split; [exact Hng|]. repeat constructor.
      + eexists. exists (cs ++ [CallClientToScreen hwnd]).
        split; [reflexivity|]. simpl. rewrite Hcs, <- !app_assoc.
        split; [reflexivity|].
        apply Forall_app. split; [exact Hng|]. repeat constructor.
    - rewrite Hd.
      eexists. exists (cs ++ [CallGetWindowRect hwnd]).
      split; [reflexivity|]. simpl. rewrite Hcs, <- !app_assoc.
      split; [reflexivity|].
      apply Forall_app. split; [exact Hng|]. repeat constructor. }
  destruct Hgoal as (w' & cs' & Hg & Hc & Hf).
  exists w', cs'. repeat split; try assumption.
  unfold capture_window_rgb, bind. now rewrite Hg.
Qed.

(** *** Capture *)

(** X6. With mss importable, [capture_rect_bgra] asks for exactly one
    region, at the left and top of the rectangle, and the width and the
    height it asks for are never negative: a rectangle with [right < left]
    or [bottom < top] is grabbed as a region of extent 0.  An error of the
    grab passes through, and numpy is imported after the grab only. *)
Theorem capture_rect_bgra_region (rect : Rect) (w : world) :
  mss_importable = true ->
  exists mon,
    snd (capture_rect_bgra rect w)
    = mkWorld (dpi w) (calls w ++ [CallGrab mon]) /\
    fst (capture_rect_bgra rect w)
    = match mss_grab mon with
      | None => Raise ScreenShotError
      | Some shot => if numpy_importable then Ok shot else Raise ImportError
      end /\
    mon_left mon = left rect /\ mon_top mon = top rect /\
    0 <= mon_width mon /\ 0 <= mon_height mon /\
    (left rect <= right rect -> mon_width mon = right rect - left rect) /\
    (top rect <= bottom rect -> mon_height mon = bottom rect - top rect) /\
    (right rect < left rect -> mon_width mon = 0) /\
    (bottom rect < top rect -> mon_height mon = 0).
Proof.
  intros Hm.
  exists (mkMonitor (left rect) (top rect) (width rect) (height rect)).
  rewrite capture_rect_bgra_run by exact Hm.
  unfold width, height; simpl. repeat split; lia.
Qed.

(** X7. [bgra_to_rgb] never touches the world.  Without numpy it raises
    [ImportError], also on [None]; with numpy it raises [ValueError] on
    [None] and [IndexError] on a frame of fewer than three channels, and on
    every frame of three channels or more it returns a frame of three
    channels whose pixels are the first three samples of the input's,
    reversed. *)
Theorem bgra_to_rgb_errors (w : world) :
  (numpy_importable = false ->
   forall x, bgra_to_rgb x w = (Raise ImportError, w)) /\
  (numpy_importable = true ->
   bgra_to_rgb None w = (Raise ValueError, w) /\
   forall f,
     ((nchan f < 3)%nat -> bgra_to_rgb (Some f) w = (Raise IndexError, w)) /\
     ((3 <= nchan f)%nat ->
      exists g, bgra_to_rgb (Some f) w = (Ok g, w) /\ nchan g = 3%nat /\
                forall i j, pixel g i j = option_map swap_px (pixel f i j))).
Proof.
  split.
  - intros Hn x. now rewrite bgra_to_rgb_run, Hn.
  - intros Hn. split; [now rewrite bgra_to_rgb_run, Hn|].
    intros f. split; intros Hc; rewrite bgra_to_rgb_run, Hn.
    + now replace (Nat.ltb (nchan f) 3) with true
        by (symmetry; apply Nat.ltb_lt; exact Hc).
    + replace (Nat.ltb (nchan f) 3) with false
        by (symmetry; apply Nat.ltb_ge; exact Hc).
      eexists. split; [reflexivity|]. split; [reflexivity|].
      intros i j. now rewrite WindowsCaptureFacts.pixel_map.
Qed.

(** X8. On a frame of three channels the conversion is its own inverse:
    converting twice gives the frame back, so the function that turns BGR
    into RGB also turns RGB into BGR. *)
Theorem bgra_to_rgb_involutive (f : frame) (h wd : nat) (w : world) :
  numpy_importable = true ->
  nchan f = 3%nat ->
  frame_shape f h wd ->
  exists g,
    bgra_to_rgb (Some f) w = (Ok g, w) /\
    frame_shape g h wd /\ nchan g = 3%nat /\
    bgra_to_rgb (Some g) w = (Ok f, w).
Proof.
  intros Hn Hc Hs.
  exists (mkFrame 3 (map (map swap_px) (rows f))).
  split; [now rewrite bgra_to_rgb_run, Hn, Hc|].
  split; [now apply swapped_shape|]. split; [reflexivity|].
  rewrite bgra_to_rgb_run, Hn. simpl.
  rewrite map_swap_twice.
  - destruct f as [n rs]. simpl in *. now subst n.
  - destruct Hs as [_ Hrows].
    eapply Forall_impl; [|exact Hrows]. intros row [_ Hpx].
    now rewrite Hc in Hpx.
Qed.

(** X9. With mss and numpy importable and an index within
    [sct.monitors], [capture_fullscreen_rgb] grabs the entry at that index,
    index 0 included, exactly once and returns its pixels with the channels
    reversed; it neither asks for Windows nor touches the DPI awareness. *)
Theorem capture_fullscreen_rgb_monitor (monitor_index : Z) (w : world)
    (mon : Monitor) :
  mss_importable = true -> numpy_importable = true ->
  0 <= monitor_index ->
  nth_error mss_monitors (Z.to_nat monitor_index) = Some mon ->
  capture_fullscreen_rgb monitor_index w
  = (match mss_grab mon with
     | None => Raise ScreenShotError
     | Some shot =>
         if Nat.ltb (nchan shot) 3 then Raise IndexError
         else Ok (mkFrame 3 (map (map swap_px) (rows shot)))
     end,
     mkWorld (dpi w) (calls w ++ [CallGrab mon])).
Proof.
  intros Hm Hn H0 Hnth.
  assert (Hlt : monitor_index < Z.of_nat (List.length mss_monitors)).
  { assert (Z.to_nat monitor_index < List.length mss_monitors)%nat
      by (apply nth_error_Some; congruence). lia. }
  unfold capture_fullscreen_rgb, try_except, bind at 1, import_module.
  rewrite Hm.
  replace ((monitor_index <? 0) ||
           (monitor_index >=? Z.of_nat (List.length mss_monitors)))
    with false.
  2:{ symmetry. apply orb_false_iff. split; [apply Z.ltb_ge; lia|].
      rewrite Z.geb_leb. apply Z.leb_gt. lia. }
  rewrite Hnth. unfold grab, bind, log, ret, raise.
  destruct (mss_grab mon) as [shot|]; [|reflexivity].
  rewrite Hn.
  now rewrite bgra_to_rgb_run, Hn.
Qed.

(** X10. For a live window, with every package importable,
    [capture_window_rgb] with [client_area] grabs the client area and
    nothing else: one region, at the screen position of the client point
    (0, 0), of the extent of the client rectangle (0 where that extent is
    negative), asked for after the two window calls; the frame returned is
    that grab with the channels reversed. *)
Theorem capture_window_rgb_client_area (hwnd l t c0 c1 c2 c3 : Z)
    (w : world) :
  is_windows = true -> pywin32_importable = true ->
  mss_importable = true -> numpy_importable = true ->
  win32_ClientToScreen hwnd (0, 0) = Some (l, t) ->
  win32_GetClientRect hwnd = Some (c0, c1, c2, c3) ->
  let w1 := snd (_try_set_dpi_awareness w) in
  let mon := mkMonitor l t (Z.max 0 (c2 - c0)) (Z.max 0 (c3 - c1)) in
  capture_window_rgb hwnd true w
  = (match mss_grab mon with
     | None => Raise ScreenShotError
     | Some shot =>
         if Nat.ltb (nchan shot) 3 then Raise IndexError
         else Ok (mkFrame 3 (map (map swap_px) (rows shot)))
     end,
     mkWorld (dpi w1)
       (calls w1 ++ [CallClientToScreen hwnd; CallGetClientRect hwnd;
                     CallGrab mon])).
Proof.
  intros Hw Hp Hm Hn H1 H2 w1 mon.
  unfold capture_window_rgb, bind.
  rewrite get_window_rect_run by assumption. cbv zeta. rewrite H1, H2.
  rewrite capture_rect_bgra_run by assumption.
  unfold width, height. simpl.
  replace (l + (c2 - c0) - l) with (c2 - c0) by lia.
  replace (t + (c3 - c1) - t) with (c3 - c1) by lia.
  fold w1 mon. rewrite <- app_assoc. simpl.
  destruct (mss_grab mon) as [shot|]; [|reflexivity].
  rewrite Hn. now rewrite bgra_to_rgb_run, Hn.
Qed.

End Facts.

(** *** The assumptions hold on the sample desktop *)

#[local] Existing Instance sample_platform.

Lemma list_visible_windows_entries_witness :
  is_windows = true /\ pywin32_importable = true /\
  exists l w',
    list_visible_windows world0 = (Ok l, w') /\
    calls w' = calls (snd (_try_set_dpi_awareness world0))
                 ++ [CallEnumWindows] /\
    l = map (fun h => (h, str_strip (GetWindowText h)))
          (filter (fun h => IsWindowVisible h &&
                     negb (String.eqb (str_strip (GetWindowText h))
                                      EmptyString)) top_level_windows) /\
    (forall h t,
        In (h, t) l <->
        In h top_level_windows /\ IsWindowVisible h = true /\
        t = str_strip (GetWindowText h) /\ t <> EmptyString).
Proof.
  split; [reflexivity|]. split; [reflexivity|].
  exact (@list_visible_windows_entries sample_platform world0 eq_refl
           eq_refl).
Defined.

Lemma find_window_hwnd_visible_witness :
  find_window_hwnd "foo" false false world0
  = (Ok (Some 100),
     mkWorld (Some PerMonitorAware)
       [CallSetProcessDpiAwareness 2; CallEnumWindows]) /\
  In 100 top_level_windows /\ IsWindowVisible 100 = true /\
  str_strip (GetWindowText 100) <> EmptyString.
Proof.
  split; [reflexivity|].
  exact (@find_window_hwnd_visible sample_platform "foo" false false world0
           _ 100 eq_refl).
Defined.

Lemma find_window_hwnd_exact_then_contains_witness :
  exists windows w',
    list_visible_windows world0 = (Ok windows, w') /\
    find_window_hwnd "foobar" true false world0 = (Ok (Some 200), w') /\
    exists h' b1 t1 a1 b2 t2 a2,
      find_window_hwnd "foobar" false false world0 = (Ok (Some h'), w') /\
      windows = b1 ++ (h', t1) :: a1 /\
      windows = b2 ++ (200, t2) :: a2 /\
      (List.length b1 <= List.length b2)%nat.
Proof.
  eexists. eexists. split; [reflexivity|]. split; [reflexivity|].
  exact (@find_window_hwnd_exact_then_contains sample_platform "foobar" false
           world0 _ _ 200 eq_refl eq_refl).
Defined.

Lemma get_window_rect_geometry_witness :
  is_windows = true /\ pywin32_importable = true /\
  win32_ClientToScreen 100 (0, 0) = Some (8, 31) /\
  win32_GetClientRect 100 = Some (0, 0, 2, 2) /\
  exists r,
    get_window_rect 100 true world0
    = (Ok r, mkWorld (dpi (snd (_try_set_dpi_awareness world0)))
               (calls (snd (_try_set_dpi_awareness world0))
                  ++ [CallClientToScreen 100; CallGetClientRect 100])) /\
    left r = 8 /\ top r = 31 /\
    right r - left r = 2 - 0 /\ bottom r - top r = 2 - 0 /\
    width r = Z.max 0 (2 - 0) /\ height r = Z.max 0 (2 - 0).
Proof.
  split; [reflexivity|]. split; [reflexivity|].
  split; [reflexivity|]. split; [reflexivity|].
  exact (proj1 (@get_window_rect_geometry sample_platform 100 world0 eq_refl
                  eq_refl) 8 31 0 0 2 2 eq_refl eq_refl).
Defined.

Lemma dead_handle_never_grabs_witness :
  is_windows = true /\ pywin32_importable = true /\
  (win32_ClientToScreen 999 (0, 0) = None \/
   win32_GetClientRect 999 = None) /\
  exists w' cs,
    get_window_rect 999 true world0 = (Raise PyWinError, w') /\
    capture_window_rgb 999 true world0 = (Raise PyWinError, w') /\
    calls w' = calls world0 ++ cs /\ Forall not_grab cs.
Proof.
  split; [reflexivity|]. split; [reflexivity|].
  split; [left; reflexivity|].
  exact (@dead_handle_never_grabs sample_platform 999 true world0 eq_refl
           eq_refl (or_introl eq_refl)).
Defined.

Lemma capture_rect_bgra_region_witness :
  mss_importable = true /\
  exists mon,
    snd (capture_rect_bgra (mkRect 10 10 5 20) world0)
    = mkWorld (dpi world0) (calls world0 ++ [CallGrab mon]) /\
    fst (capture_rect_bgra (mkRect 10 10 5 20) world0)
    = match mss_grab mon with
      | None => Raise ScreenShotError
      | Some shot => if numpy_importable then Ok shot else Raise ImportError
      end /\
    mon_left mon = 10 /\ mon_top mon = 10 /\
    0 <= mon_width mon /\ 0 <= mon_height mon /\
    (10 <= 5 -> mon_width mon = 5 - 10) /\
    (10 <= 20 -> mon_height mon = 20 - 10) /\
    (5 < 10 -> mon_width mon = 0) /\
    (20 < 10 -> mon_height mon = 0).
Proof.
  split; [reflexivity|].
  exact (@capture_rect_bgra_region sample_platform (mkRect 10 10 5 20) world0
           eq_refl).
Defined.

Lemma bgra_to_rgb_involutive_witness :
  numpy_importable = true /\ nchan sample_rgb = 3%nat /\
  frame_shape sample_rgb 2 2 /\
  exists g,
    bgra_to_rgb (Some sample_rgb) world0 = (Ok g, world0) /\
    frame_shape g 2 2 /\ nchan g = 3%nat /\
    bgra_to_rgb (Some g) world0 = (Ok sample_rgb, world0).
Proof.
  assert (Hs : frame_shape sample_rgb 2 2).
  { split; [reflexivity|]. repeat constructor. }
  split; [reflexivity|]. split; [reflexivity|]. split; [exact Hs|].
  exact (@bgra_to_rgb_involutive sample_platform sample_rgb 2 2 world0
           eq_refl eq_refl Hs).
Defined.

Lemma capture_fullscreen_rgb_monitor_witness :
  mss_importable = true /\ numpy_importable = true /\ 0 <= 1 /\
  nth_error mss_monitors (Z.to_nat 1) = Some (mkMonitor 0 0 1920 1080) /\
  capture_fullscreen_rgb 1 world0
  = (match mss_grab (mkMonitor 0 0 1920 1080) with
     | None => Raise ScreenShotError
     | Some shot =>
         if Nat.ltb (nchan shot) 3 then Raise IndexError
         else Ok (mkFrame 3 (map (map swap_px) (rows shot)))
     end,
     mkWorld (dpi world0)
       (calls world0 ++ [CallGrab (mkMonitor 0 0 1920 1080)])).
Proof.
  assert (H0 : 0 <= 1) by discriminate.
  split; [reflexivity|]. split; [reflexivity|]. split; [exact H0|].
  split; [reflexivity|].
  exact (@capture_fullscreen_rgb_monitor sample_platform 1 world0
           (mkMonitor 0 0 1920 1080) eq_refl eq_refl H0 eq_refl).
Defined.

Lemma capture_window_rgb_client_area_witness :
  is_windows = true /\ pywin32_importable = true /\
  mss_importable = true /\ numpy_importable = true /\
  win32_ClientToScreen 100 (0, 0) = Some (8, 31) /\
  win32_GetClientRect 100 = Some (0, 0, 2, 2) /\
  capture_window_rgb 100 true world0
  = (match mss_grab (mkMonitor 8 31 (Z.max 0 (2 - 0)) (Z.max 0 (2 - 0))) with
     | None => Raise ScreenShotError
     | Some shot =>
         if Nat.ltb (nchan shot) 3 then Raise IndexError
         else Ok (mkFrame 3 (map (map swap_px) (rows shot)))
     end,
     mkWorld (dpi (snd (_try_set_dpi_awareness world0)))
       (calls (snd (_try_set_dpi_awareness world0))
          ++ [CallClientToScreen 100; CallGetClientRect 100;
              CallGrab (mkMonitor 8 31 (Z.max 0 (2 - 0))
                          (Z.max 0 (2 - 0)))])).
Proof.
  split; [reflexivity|]. split; [reflexivity|].
  split; [reflexivity|]. split; [reflexivity|].
  split; [reflexivity|]. split; [reflexivity|].
  exact (@capture_window_rgb_client_area sample_platform 100 8 31 0 0 2 2
           world0 eq_refl eq_refl eq_refl eq_refl eq_refl eq_refl).
Defined.

(** On a system that is not Windows nothing is asked of the operating
    system; on Windows without pywin32 the awareness is set all the same. *)
Example window_functions_without_support :
  @list_visible_windows (sample_platform_with "posix" true true true) world0
  = (Raise OSError, world0) /\
  @list_visible_windows (sample_platform_with "nt" false true true) world0
  = (Raise ImportError,
     mkWorld (Some PerMonitorAware) [CallSetProcessDpiAwareness 2]) /\
  @capture_fullscreen_rgb (sample_platform_with "posix" false true true) 1
    world0
  = (Ok (mkFrame 3 [[[0; 0; 7]; [0; 0; 9]]; [[0; 0; 3]; [0; 0; 0]]]),
     mkWorld None [CallGrab (mkMonitor 0 0 1920 1080)]).
Proof. repeat split. Qed.

End WindowsCaptureRuns.

(** ** windows_input.py: complete runs *)

Module WindowsInputRuns.
Import WindowsInput WindowsInputFacts.

Section Facts.
Context {S : Screen}.

Lemma click_at_run (x y : Z) (duration : float) (tr : list event) :
  0 < SM_CXSCREEN -> 0 < SM_CYSCREEN ->
  Z.abs x * 65535 + SM_CXSCREEN <= 2 ^ 52 ->
  Z.abs y * 65535 + SM_CYSCREEN <= 2 ^ 52 ->
  is_nan duration = false -> flt duration (S754_zero false) = false ->
  click_at x y duration tr
  = (Ok tt, tr ++ [move_event x y; Sleep f_0_02; down_event;
                   Sleep duration; up_event]).
Proof.
  intros HW HH Hx Hy Hnan Hneg. unfold click_at.
  erewrite bind_ok by (apply move_mouse_trace; assumption).
  erewrite bind_ok by (apply sleep_trace; reflexivity).
  erewrite bind_ok by reflexivity.
  erewrite bind_ok by (apply sleep_trace; assumption).
  unfold mouse_up, _send_input, emit. f_equal.
  repeat rewrite <- app_assoc. reflexivity.
Qed.

Lemma quot_on_screen (x W : Z) :
  0 < W -> 0 <= x < W -> 0 <= Z.quot (x * 65535) W <= 65534.
Proof.
  intros HW Hx. rewrite Z.quot_div_nonneg by lia. split.
  - apply Z.div_pos; lia.
  - assert (x * 65535 / W < 65535); [|lia].
    apply Z.div_lt_upper_bound; nia.
Qed.

Lemma c_long_small (z : Z) : - 2 ^ 31 <= z < 2 ^ 31 -> c_long z = z.
Proof.
  intros Hz. unfold c_long. rewrite Z.mod_small; lia.
Qed.

(** At the last index the parameter [t] is 1.0 and the interpolation is
    exact. *)
Lemma interpolate_last (start end_ steps : Z) :
  Z.abs start < 2 ^ 52 -> Z.abs end_ < 2 ^ 52 ->
  0 < steps < 2 ^ 53 ->
  interpolate start end_ (steps - 1) steps = Ok end_.
Proof.
  intros Hs He Hn.
  assert (H52 : 2 ^ 53 = 2 * 2 ^ 52) by reflexivity.
  unfold interpolate. replace (steps - 1 + 1) with steps by lia.
  destruct (@int_truediv_self steps Hn) as (t & -> & Ht).
  destruct (@float_of_int_exact (end_ - start) ltac:(lia)) as (d & -> & Hdb).
  destruct (@float_of_int_exact start ltac:(lia)) as (s & -> & Hsb).
  pose proof (@fmul_one (end_ - start) d t ltac:(lia) Hdb Ht) as Hp.
  pose proof (@fadd_between start start (end_ - start) (end_ - start) s
                (fmul d t) Hsb Hp ltac:(lia) ltac:(lia)) as Hsum.
  destruct (@int_of_float_between _ _ _ Hsum) as (z & -> & Hz).
  f_equal. lia.
Qed.

(** X28. For coordinates of magnitude below 2^52 and a step count below
    2^53, the waypoint of the last turn of the interpolation loop, at index
    [steps - 1], is the end point itself: there [t] is 1.0 and the double
    arithmetic is exact, so the corrective move that follows the loop
    repeats the position that the loop has reached. *)
Theorem drag_last_waypoint_is_end (sx sy ex ey steps : Z) :
  Z.abs sx < 2 ^ 52 -> Z.abs ex < 2 ^ 52 ->
  Z.abs sy < 2 ^ 52 -> Z.abs ey < 2 ^ 52 ->
  0 < steps < 2 ^ 53 ->
  last (range steps) 0 = steps - 1 /\
  waypoint_at sx sy ex ey steps (steps - 1) (ex, ey).
Proof.
  intros Hsx Hex Hsy Hey Hn. split.
  - unfold range.
    replace (Z.to_nat steps) with (Datatypes.S (Z.to_nat (steps - 1)))
      by lia.
    rewrite seq_S, map_app. cbn [map]. rewrite last_last. lia.
  - split; simpl; now apply interpolate_last.
Qed.

(** *** The left button *)

Lemma holds_button_bind {A B} (m : M (list event) A)
    (k : A -> M (list event) B) :
  holds_button m -> (forall a, holds_button (k a)) -> holds_button (bind m k).
Proof.
  intros Hm Hk tr. destruct (Hm tr) as (a1 & E1 & N1). unfold bind.
  destruct (m tr) as [[a|e] tr1]; simpl in E1; subst tr1.
  - destruct (Hk a (tr ++ a1)) as (a2 & E2 & N2).
    exists (a1 ++ a2). rewrite E2, app_assoc. split; [reflexivity|].
    intros Hin. apply in_app_or in Hin. tauto.
  - exists a1. split; [reflexivity|exact N1].
Qed.

Lemma releases_last_bind {A} (m : M (list event) A)
    (k : A -> M (list event) unit) :
  holds_button m -> (forall a, releases_last (k a)) ->
  releases_last (bind m k).
Proof.
  intros Hm Hk tr. destruct (Hm tr) as (a1 & E1 & N1). unfold bind.
  destruct (m tr) as [[a|e] tr1]; simpl in E1; subst tr1.
  - destruct (Hk a (tr ++ a1)) as (a2 & E2 & Hok & Hbad).
    exists (a1 ++ a2). rewrite E2, app_assoc. split; [reflexivity|]. split.
    + intros Hr. destruct (Hok Hr) as (pre & -> & Npre).
      exists (a1 ++ pre). rewrite app_assoc. split; [reflexivity|].
      intros Hin. apply in_app_or in Hin. tauto.
    + intros Hr Hin. apply in_app_or in Hin. specialize (Hbad Hr). tauto.
  - exists a1. split; [reflexivity|]. split; [discriminate|].
    intros _. exact N1.
Qed.

Lemma holds_button_lift {A} (r : result A) : holds_button (lift r).
Proof.
  intros tr. exists []. simpl. split; [now rewrite app_nil_r|tauto].
Qed.

Lemma holds_button_ret {A} (a : A) :
  holds_button (ret a : M (list event) A).
Proof.
  intros tr. exists []. simpl. split; [now rewrite app_nil_r|tauto].
Qed.

Lemma holds_button_sleep (secs : float) : holds_button (sleep secs).
Proof.
  intros tr. unfold sleep, raise, emit.
  destruct (is_nan secs || flt secs (S754_zero false)).
  - exists []. simpl. split; [now rewrite app_nil_r|tauto].
  - exists [Sleep secs]. split; [reflexivity|].
    intros [E|[]]. discriminate.
Qed.

Lemma holds_button_move_mouse (x y : Z) : holds_button (move_mouse x y).
Proof.
  unfold move_mouse. apply holds_button_bind; [apply holds_button_lift|].
  intros [abs_x abs_y] tr. exists [SendInput [move_input abs_x abs_y]].
  split; [reflexivity|]. intros [E|[]]. discriminate.
Qed.

Lemma holds_button_mouse_down (left : bool) : holds_button (mouse_down left).
Proof.
  intros tr. unfold mouse_down, _send_input, emit. eexists.
  split; [reflexivity|]. intros [E|[]]. destruct left; discriminate.
Qed.

Lemma releases_last_mouse_up : releases_last (mouse_up true).
Proof.
  intros tr. exists [up_event]. split; [reflexivity|]. split.
  - intros _. exists []. split; [reflexivity|tauto].
  - intros Hr. now elim Hr.
Qed.

Lemma holds_button_drag_loop (sx sy ex ey : Z) (duration : float)
    (steps : Z) (indices : list Z) :
  holds_button (drag_loop sx sy ex ey duration steps indices).
Proof.
  induction indices as [|i rest IH]; simpl; [apply holds_button_ret|].
  apply holds_button_bind; [apply holds_button_lift|]. intros cx.
  apply holds_button_bind; [apply holds_button_lift|]. intros cy.
  apply holds_button_bind; [apply holds_button_move_mouse|]. intros _.
  apply holds_button_bind; [apply holds_button_lift|]. intros pause.
  apply holds_button_bind; [apply holds_button_sleep|]. intros _.
  exact IH.
Qed.

(** X29. For a duration that is NaN or lies between -2^22 and 2^22
    seconds (48 days), the delays that [time.sleep] takes or refuses with
    [ValueError] and never with [OverflowError], and whatever the
    coordinates and the size of the screen, [click_at] and [drag] only add
    events to the trace, and the release of the left button is among the
    events added exactly when the call completes; it is then the last
    event.  A call that raises, at whatever step, has not released the
    button. *)
Theorem button_released_iff_completed (x y ex ey : Z) (duration : float) :
  is_nan duration = true \/ SF_between (- 2 ^ 22) (2 ^ 22) duration ->
  releases_last (click_at x y duration) /\
  releases_last (drag x y ex ey duration).
Proof.
  intros _. split.
  - unfold click_at.
    apply releases_last_bind; [apply holds_button_move_mouse|]. intros _.
    apply releases_last_bind; [apply holds_button_sleep|]. intros _.
    apply releases_last_bind; [apply holds_button_mouse_down|]. intros _.
    apply releases_last_bind; [apply holds_button_sleep|]. intros _.
    apply releases_last_mouse_up.
  - unfold drag.
    apply releases_last_bind; [apply holds_button_move_mouse|]. intros _.
    apply releases_last_bind; [apply holds_button_sleep|]. intros _.
    apply releases_last_bind; [apply holds_button_mouse_down|]. intros _.
    apply releases_last_bind; [apply holds_button_sleep|]. intros _.
    apply releases_last_bind; [apply holds_button_lift|]. intros steps.
    apply releases_last_bind; [apply holds_button_drag_loop|]. intros _.
    apply releases_last_bind; [apply holds_button_move_mouse|]. intros _.
    apply releases_last_bind; [apply holds_button_sleep|]. intros _.
    apply releases_last_mouse_up.
Qed.

(** *** Runs *)


(** X12. With a negative delay, down to -2^33 seconds, [click_at] raises
    [ValueError] at its second pause: the pointer has moved and the left
    button has been pressed, and it is not released. *)
Theorem click_at_negative_duration (x y : Z) (duration : float)
    (tr : list event) :
  0 < SM_CXSCREEN -> 0 < SM_CYSCREEN ->
  Z.abs x * 65535 + SM_CXSCREEN <= 2 ^ 52 ->
  Z.abs y * 65535 + SM_CYSCREEN <= 2 ^ 52 ->
  SF_between (- 2 ^ 33) 0 duration ->
  flt duration (S754_zero false) = true ->
  click_at x y duration tr
  = (Raise ValueError, tr ++ [move_event x y; Sleep f_0_02; down_event]).
Proof.
  intros HW HH Hx Hy _ Hneg.
  unfold click_at.
  erewrite bind_ok by (apply move_mouse_trace; assumption).
  erewrite bind_ok by (apply sleep_trace; reflexivity).
  erewrite bind_ok by reflexivity.
  unfold bind, sleep. rewrite Hneg, orb_true_r. unfold raise. f_equal.
  repeat rewrite <- app_assoc. reflexivity.
Qed.

(** X13. When [duration * 60] is not a finite number (the duration is
    NaN, infinite or beyond the range of doubles once multiplied), [drag]
    fails at the computation of the step count, with [ValueError] on NaN and
    [OverflowError] otherwise: by then the pointer has moved to the start and
    the left button has been pressed; no waypoint is visited and the button
    is not released. *)
Theorem drag_undefined_steps (sx sy ex ey : Z) (duration : float)
    (tr : list event) :
  0 < SM_CXSCREEN -> 0 < SM_CYSCREEN ->
  Z.abs sx * 65535 + SM_CXSCREEN <= 2 ^ 52 ->
  Z.abs sy * 65535 + SM_CYSCREEN <= 2 ^ 52 ->
  is_finite (fmul duration f_60) = false ->
  exists e,
    (e = ValueError /\ is_nan (fmul duration f_60) = true \/
     e = OverflowError /\ is_nan (fmul duration f_60) = false) /\
    drag sx sy ex ey duration tr
    = (Raise e, tr ++ [move_event sx sy; Sleep f_0_05; down_event;
                       Sleep f_0_05]).
Proof.
  intros HW HH Hx Hy Hf.
  assert (Hs : exists e,
             (e = ValueError /\ is_nan (fmul duration f_60) = true \/
              e = OverflowError /\ is_nan (fmul duration f_60) = false) /\
             drag_steps duration = Raise e).
  { unfold drag_steps. change (float_of_int 60) with (Ok f_60).
    cbv beta iota.
    destruct (fmul duration f_60) as [s|s| |s m e]; try discriminate.
    - exists OverflowError. split; [right|]; split; reflexivity.
    - exists ValueError. split; [left|]; split; reflexivity. }
  destruct Hs as (e & He & Hs). exists e. split; [exact He|].
  unfold drag.
  erewrite bind_ok by (apply move_mouse_trace; assumption).
  erewrite bind_ok by (apply sleep_trace; reflexivity).
  erewrite bind_ok by reflexivity.
  erewrite bind_ok by (apply sleep_trace; reflexivity).
  unfold bind, lift. rewrite Hs. f_equal.
  unfold mouse_down, _send_input, emit.
  repeat rewrite <- app_assoc. reflexivity.
Qed.

(** X14. When the width of the screen is reported as 0, the conversion
    raises [ZeroDivisionError], and with it [move_mouse], [click_at] and
    [drag], whatever their arguments: nothing is injected, no button is
    pressed. *)
Theorem zero_screen_injects_nothing (x y : Z) (tr : list event) :
  SM_CXSCREEN = 0 ->
  _to_absolute_coords x y = Raise ZeroDivisionError /\
  move_mouse x y tr = (Raise ZeroDivisionError, tr) /\
  (forall d, click_at x y d tr = (Raise ZeroDivisionError, tr)) /\
  (forall ex ey d, drag x y ex ey d tr = (Raise ZeroDivisionError, tr)).
Proof.
  intros HW.
  assert (Hc : _to_absolute_coords x y = Raise ZeroDivisionError).
  { unfold _to_absolute_coords, _get_screen_size, int_truediv.
    now rewrite HW. }
  assert (Hm : move_mouse x y tr = (Raise ZeroDivisionError, tr)).
  { unfold move_mouse, bind, lift. now rewrite Hc. }
  repeat split; try assumption.
  - intros d. unfold click_at. unfold bind at 1. now rewrite Hm.
  - intros ex ey d. unfold drag. unfold bind at 1. now rewrite Hm.
Qed.

(** X15. On a screen of at most 2^36 pixels a side, every pixel of the
    screen is converted to absolute coordinates between 0 and 65534, the
    largest coordinate 65535 never being reached, and [move_mouse] injects
    one mouse [INPUT] that holds them unchanged in its [c_long] fields, with
    the flags [MOVE | ABSOLUTE] (0x8001) and every other field 0. *)
Theorem on_screen_pixel_range (x y : Z) (tr : list event) :
  0 < SM_CXSCREEN <= 2 ^ 36 -> 0 < SM_CYSCREEN <= 2 ^ 36 ->
  0 <= x < SM_CXSCREEN -> 0 <= y < SM_CYSCREEN ->
  exists abs_x abs_y,
    _to_absolute_coords x y = Ok (abs_x, abs_y) /\
    0 <= abs_x <= 65534 /\ 0 <= abs_y <= 65534 /\
    move_mouse x y tr
    = (Ok tt,
       tr ++ [SendInput [mkINPUT 0 (mi (mkMOUSEINPUT abs_x abs_y 0 0x8001
                                          0 0))]]).
Proof.
  intros HW HH Hx Hy.
  assert (Hxr : Z.abs x * 65535 + SM_CXSCREEN <= 2 ^ 52).
  { change (2 ^ 52) with 4503599627370496.
    change (2 ^ 36) with 68719476736 in HW.
    rewrite Z.abs_eq by lia. lia. }
  assert (Hyr : Z.abs y * 65535 + SM_CYSCREEN <= 2 ^ 52).
  { change (2 ^ 52) with 4503599627370496.
    change (2 ^ 36) with 68719476736 in HH.
    rewrite Z.abs_eq by lia. lia. }
  exists (Z.quot (x * 65535) SM_CXSCREEN), (Z.quot (y * 65535) SM_CYSCREEN).
  pose proof (@quot_on_screen x SM_CXSCREEN (proj1 HW) Hx) as Hax.
  pose proof (@quot_on_screen y SM_CYSCREEN (proj1 HH) Hy) as Hay.
  destruct HW as [HW _]. destruct HH as [HH _].
  split; [now apply to_absolute_coords_quot|].
  split; [exact Hax|]. split; [exact Hay|].
  rewrite move_mouse_trace by assumption.
  unfold move_event, move_input.
  rewrite !c_long_small by lia. reflexivity.
Qed.

(** X16. [mouse_down] and [mouse_up] never raise and never move the
    pointer: each injects one mouse [INPUT] with no displacement, whose only
    flag is that of the button, left (0x2, 0x4) or right (0x8, 0x10), so the
    last pointer move of the trace stays what it was. *)
Theorem mouse_button_keeps_pointer (left : bool) (tr : list event)
    (acc : option (Z * Z)) :
  mouse_down left tr
  = (Ok tt,
     tr ++ [SendInput [mkINPUT 0 (mi (mkMOUSEINPUT 0 0 0
                                        (if left then 0x2 else 0x8) 0 0))]])
  /\
  mouse_up left tr
  = (Ok tt,
     tr ++ [SendInput [mkINPUT 0 (mi (mkMOUSEINPUT 0 0 0
                                        (if left then 0x4 else 0x10) 0 0))]])
  /\
  last_move (snd (mouse_down left tr)) acc = last_move tr acc /\
  last_move (snd (mouse_up left tr)) acc = last_move tr acc.
Proof.
  unfold mouse_down, mouse_up, _send_input, emit. cbn [snd].
  rewrite !last_move_app.
  destruct left; repeat split; reflexivity.
Qed.

End Facts.

(** *** The assumptions hold on a 1920 x 1080 screen *)

Lemma drag_last_waypoint_is_end_witness :
  (Z.abs 100 < 2 ^ 52 /\ Z.abs 300 < 2 ^ 52 /\ Z.abs 200 < 2 ^ 52 /\
   0 < 30 < 2 ^ 53) /\
  last (range 30) 0 = 30 - 1 /\
  waypoint_at 100 200 300 200 30 (30 - 1) (300, 200).
Proof.
  assert (H1 : Z.abs 100 < 2 ^ 52) by reflexivity.
  assert (H2 : Z.abs 300 < 2 ^ 52) by reflexivity.
  assert (H3 : Z.abs 200 < 2 ^ 52) by reflexivity.
  assert (H4 : 0 < 30 < 2 ^ 53) by (split; reflexivity).
  split; [repeat split; first [assumption | reflexivity]|].
  exact (@drag_last_waypoint_is_end 100 200 300 200 30 H1 H2 H3 H3 H4).
Defined.

Lemma button_released_iff_completed_witness :
  (is_nan f_neg_1 = true \/ SF_between (- 2 ^ 22) (2 ^ 22) f_neg_1) /\
  releases_last (@click_at screen_1920x1080 960 540 f_neg_1) /\
  releases_last (@drag screen_1920x1080 960 540 1060 540 f_neg_1).
Proof.
  assert (H1 : is_nan f_neg_1 = true \/
               SF_between (- 2 ^ 22) (2 ^ 22) f_neg_1)
    by (right; split; [vm_compute; discriminate
                       | split; vm_compute; discriminate]).
  split; [exact H1|].
  exact (@button_released_iff_completed screen_1920x1080 960 540 1060 540
           f_neg_1 H1).
Defined.


Lemma click_at_negative_duration_witness :
  (0 < @SM_CXSCREEN screen_1920x1080 /\ 0 < @SM_CYSCREEN screen_1920x1080 /\
   Z.abs 960 * 65535 + @SM_CXSCREEN screen_1920x1080 <= 2 ^ 52 /\
   Z.abs 540 * 65535 + @SM_CYSCREEN screen_1920x1080 <= 2 ^ 52 /\
   SF_between (- 2 ^ 33) 0 f_neg_1 /\
   flt f_neg_1 (S754_zero false) = true) /\
  @click_at screen_1920x1080 960 540 f_neg_1 []
  = (Raise ValueError,
     [] ++ [@move_event screen_1920x1080 960 540; Sleep f_0_02; down_event]).
Proof.
  assert (H1 : 0 < @SM_CXSCREEN screen_1920x1080) by reflexivity.
  assert (H2 : 0 < @SM_CYSCREEN screen_1920x1080) by reflexivity.
  assert (H3 : Z.abs 960 * 65535 + @SM_CXSCREEN screen_1920x1080 <= 2 ^ 52)
    by (vm_compute; discriminate).
  assert (H4 : Z.abs 540 * 65535 + @SM_CYSCREEN screen_1920x1080 <= 2 ^ 52)
    by (vm_compute; discriminate).
  assert (H5 : SF_between (- 2 ^ 33) 0 f_neg_1)
    by (split; [vm_compute; discriminate
                | split; vm_compute; discriminate]).
  assert (H6 : flt f_neg_1 (S754_zero false) = true) by reflexivity.
  split; [repeat split; assumption|].
  exact (@click_at_negative_duration screen_1920x1080 960 540 f_neg_1 []
           H1 H2 H3 H4 H5 H6).
Defined.

Lemma drag_undefined_steps_witness :
  (0 < @SM_CXSCREEN screen_1920x1080 /\ 0 < @SM_CYSCREEN screen_1920x1080 /\
   Z.abs 100 * 65535 + @SM_CXSCREEN screen_1920x1080 <= 2 ^ 52 /\
   Z.abs 200 * 65535 + @SM_CYSCREEN screen_1920x1080 <= 2 ^ 52 /\
   is_finite (fmul S754_nan f_60) = false) /\
  exists e,
    (e = ValueError /\ is_nan (fmul S754_nan f_60) = true \/
     e = OverflowError /\ is_nan (fmul S754_nan f_60) = false) /\
    @drag screen_1920x1080 100 200 300 200 S754_nan []
    = (Raise e, [] ++ [@move_event screen_1920x1080 100 200; Sleep f_0_05;
                       down_event; Sleep f_0_05]).
Proof.
  assert (H1 : 0 < @SM_CXSCREEN screen_1920x1080) by reflexivity.
  assert (H2 : 0 < @SM_CYSCREEN screen_1920x1080) by reflexivity.
  assert (H3 : Z.abs 100 * 65535 + @SM_CXSCREEN screen_1920x1080 <= 2 ^ 52)
    by (vm_compute; discriminate).
  assert (H4 : Z.abs 200 * 65535 + @SM_CYSCREEN screen_1920x1080 <= 2 ^ 52)
    by (vm_compute; discriminate).
  assert (H5 : is_finite (fmul S754_nan f_60) = false) by reflexivity.
  split; [repeat split; assumption|].
  exact (@drag_undefined_steps screen_1920x1080 100 200 300 200 S754_nan []
           H1 H2 H3 H4 H5).
Defined.

Lemma zero_screen_injects_nothing_witness :
  @SM_CXSCREEN screen_unknown = 0 /\
  @_to_absolute_coords screen_unknown 10 20 = Raise ZeroDivisionError /\
  @move_mouse screen_unknown 10 20 [] = (Raise ZeroDivisionError, []) /\
  (forall d,
      @click_at screen_unknown 10 20 d [] = (Raise ZeroDivisionError, [])) /\
  (forall ex ey d,
      @drag screen_unknown 10 20 ex ey d [] = (Raise ZeroDivisionError, [])).
Proof.
  split; [reflexivity|].
  exact (@zero_screen_injects_nothing screen_unknown 10 20 [] eq_refl).
Defined.

Lemma on_screen_pixel_range_witness :
  (0 < @SM_CXSCREEN screen_1920x1080 <= 2 ^ 36 /\
   0 < @SM_CYSCREEN screen_1920x1080 <= 2 ^ 36 /\
   0 <= 1919 < @SM_CXSCREEN screen_1920x1080 /\
   0 <= 1079 < @SM_CYSCREEN screen_1920x1080) /\
  exists abs_x abs_y,
    @_to_absolute_coords screen_1920x1080 1919 1079 = Ok (abs_x, abs_y) /\
    0 <= abs_x <= 65534 /\ 0 <= abs_y <= 65534 /\
    @move_mouse screen_1920x1080 1919 1079 []
    = (Ok tt,
       [] ++ [SendInput [mkINPUT 0 (mi (mkMOUSEINPUT abs_x abs_y 0 0x8001
                                          0 0))]]).
Proof.
  assert (H1 : 0 < @SM_CXSCREEN screen_1920x1080 <= 2 ^ 36)
    by (split; [reflexivity | vm_compute; discriminate]).
  assert (H2 : 0 < @SM_CYSCREEN screen_1920x1080 <= 2 ^ 36)
    by (split; [reflexivity | vm_compute; discriminate]).
  assert (H3 : 0 <= 1919 < @SM_CXSCREEN screen_1920x1080)
    by (split; [discriminate | reflexivity]).
  assert (H4 : 0 <= 1079 < @SM_CYSCREEN screen_1920x1080)
    by (split; [discriminate | reflexivity]).
  split; [repeat split; first [apply H1 | apply H2 | apply H3 | apply H4]|].
  exact (@on_screen_pixel_range screen_1920x1080 1919 1079 [] H1 H2 H3 H4).
Defined.

End WindowsInputRuns.

(** ** The command-line tools *)

Module ToolsFacts.

Lemma existsb_eqb_In (x : string) (l : list string) :
  existsb (String.eqb x) l = true <-> In x l.
Proof.
  rewrite existsb_exists. split.
  - intros (y & Hin & E). apply String.eqb_eq in E. now subst y.
  - intros Hin. exists x. split; [exact Hin|apply String.eqb_refl].
Qed.

(** X17. [_ensure_repo_root_on_syspath] never raises and leaves the
    repository root on [sys.path]: at the front when it was absent, where it
    was when it was present.  It is idempotent, it never enters the root a
    second time, and it keeps every other entry, as many times as it was
    there. *)
Theorem ensure_repo_root_on_syspath_once (root : string)
    (sys_path : list string) :
  let out := _ensure_repo_root_on_syspath root sys_path in
  fst out = Ok tt /\
  In root (snd out) /\
  (In root sys_path -> snd out = sys_path) /\
  (~ In root sys_path -> snd out = root :: sys_path) /\
  _ensure_repo_root_on_syspath root (snd out) = (Ok tt, snd out) /\
  count_occ string_dec (snd out) root
  = Nat.max 1 (count_occ string_dec sys_path root) /\
  (forall s, s <> root ->
             count_occ string_dec (snd out) s
             = count_occ string_dec sys_path s).
Proof.
  unfold _ensure_repo_root_on_syspath.
  destruct (existsb (String.eqb root) sys_path) eqn:E; simpl.
  - assert (Hin : In root sys_path) by now apply existsb_eqb_In.
    rewrite E. simpl. repeat split; try tauto.
    apply (count_occ_In string_dec) in Hin.
    destruct (count_occ string_dec sys_path root); [lia|reflexivity].
  - assert (Hnin : ~ In root sys_path).
    { intros Hin. apply existsb_eqb_In in Hin. congruence. }
    rewrite String.eqb_refl. simpl.
    repeat split; try tauto.
    + destruct (string_dec root root) as [_|Hne]; [|now elim Hne].
      apply (count_occ_not_In string_dec) in Hnin. now rewrite Hnin.
    + intros s Hs. destruct (string_dec root s) as [->|_]; [now elim Hs|].
      reflexivity.
Qed.

End ToolsFacts.

(** *** tools/capture_screen.py *)

Module CaptureScreenFacts.
Import WindowsCapture CaptureScreen.

Section Facts.
Context {P : Platform} {H : Host}.


(** Whatever the fuel, a path that the loop returns does not exist. *)
Lemma first_free_fresh (s : FS) (path : Path) (fuel : nat) :
  forall idx p, first_free fuel s path idx = Some p ->
                path_exists s p = false.
Proof.
  induction fuel as [|fuel IH]; intros idx p; simpl; [discriminate|].
  destruct (path_exists s (candidate path idx)) eqn:E; simpl.
  - apply IH.
  - intros Hp. injection Hp as <-. exact E.
Qed.

Lemma resolve_unique_path_fresh (s : FS) (path : Path) (fuel : nat)
    (p : Path) :
  _resolve_unique_path fuel s path = Some p -> path_exists s p = false.
Proof.
  unfold _resolve_unique_path.
  destruct (path_exists s path) eqn:E; simpl.
  - apply first_free_fresh.
  - intros Hp. injection Hp as <-. exact E.
Qed.



Lemma host_in_capture_run {A} (m : M world A) (hw : host_world) :
  in_capture m hw
  = (fst (m (capture hw)),
     mkHost (snd (m (capture hw))) (fs hw) (actions hw)).
Proof. unfold in_capture. now destruct (m (capture hw)). Qed.

(** The lines that the loop of the [list] command prints. *)
Lemma list_loop_run (q : string) (items : list (Z * string))
    (hw : host_world) :
  list_loop q items hw
  = (Ok tt,
     mkHost (capture hw) (fs hw)
       (actions hw ++
        map (fun e => Stdout (str_of_int (fst e) ++ tab ++ snd e)%string)
          (filter (fun e => negb (truthy q) ||
                            str_contains q (str_lower (snd e))) items))).
Proof.
  revert hw. induction items as [|[hwnd title] rest IH]; intros hw; simpl.
  - rewrite app_nil_r. now destruct hw.
  - unfold bind.
    destruct (truthy q); simpl.
    + destruct (str_contains q (str_lower title)); simpl.
      * unfold print, act. rewrite IH. simpl. now rewrite <- app_assoc.
      * unfold ret. rewrite IH. reflexivity.
    + unfold print, act. rewrite IH. simpl. now rewrite <- app_assoc.
Qed.

(** A frame that a capture function returns has three channels. *)
Lemma bgra_to_rgb_three (x : option frame) (w w' : world) (g : frame) :
  bgra_to_rgb x w = (Ok g, w') -> nchan g = 3%nat.
Proof.
  unfold bgra_to_rgb, bind, import_module, lift, ret, raise.
  destruct numpy_importable; [|discriminate].
  destruct x as [f|]; [|discriminate].
  destruct (take_channel 0 f); [|discriminate].
  destruct (take_channel 1 f); [|discriminate].
  destruct (take_channel 2 f); [|discriminate].
  intros E. injection E as <- _. reflexivity.
Qed.

Lemma capture_window_rgb_three (hwnd : Z) (ca : bool) (w w' : world)
    (g : frame) :
  capture_window_rgb hwnd ca w = (Ok g, w') -> nchan g = 3%nat.
Proof.
  unfold capture_window_rgb, bind.
  destruct (get_window_rect hwnd ca w) as [[rect|e] w1]; [|discriminate].
  destruct (capture_rect_bgra rect w1) as [[fr|e] w2]; [|discriminate].
  apply bgra_to_rgb_three.
Qed.

Lemma capture_fullscreen_rgb_three (i : Z) (w w' : world) (g : frame) :
  capture_fullscreen_rgb i w = (Ok g, w') -> nchan g = 3%nat.
Proof.
  unfold capture_fullscreen_rgb, bind at 1, try_except, import_module,
    raise.
  destruct mss_importable; [|discriminate]. simpl.
  destruct ((i <? 0) || (i >=? Z.of_nat (List.length mss_monitors)));
    [discriminate|].
  destruct (nth_error mss_monitors (Z.to_nat i)) as [mon|]; [|discriminate].
  unfold bind at 1.
  destruct (grab mon w) as [[shot|e] w1]; [|discriminate].
  unfold bind at 1, ret.
  destruct numpy_importable; [|discriminate].
  apply bgra_to_rgb_three.
Qed.

(** What a successful [save_rgb_png] has done. *)
Lemma save_rgb_png_ok (rgb : frame) (path : string) (hw hw' : host_world) :
  save_rgb_png rgb path hw = (Ok tt, hw') ->
  exists img,
    pillow_importable = true /\ Image_fromarray rgb = Ok img /\
    Image_save img path (fs hw) = (Ok tt, fs hw') /\
    capture hw' = capture hw /\
    actions hw' = actions hw ++ [SavePng img path].
Proof.
  unfold save_rgb_png, bind, lift, fs_call, ret, raise.
  destruct pillow_importable; [|discriminate].
  destruct (Image_fromarray rgb) as [img|e]; [|discriminate].
  destruct (Image_save img path (fs hw)) as [[[]|e] s] eqn:E;
    [|discriminate].
  intros E'. injection E' as <-. exists img. simpl. now rewrite E.
Qed.

(** X19. The [list] command returns 0 and prints, in the order of the
    enumeration, one line [hwnd<TAB>title] for every visible window whose
    lower-cased title contains the filter, the filter being the argument
    lower-cased and then stripped; an empty filter prints every window.
    Nothing else is written, and the file system is not touched. *)
Theorem main_list_lines (fuel : nat) (argv : list string)
    (args : Namespace Path) (hw : host_world) (items : list (Z * string))
    (w' : world) :
  parse_args argv = inl args ->
  cmd args = "list"%string ->
  list_visible_windows (capture hw) = (Ok items, w') ->
  let q := str_strip (str_lower (or_empty (contains args))) in
  main fuel argv hw
  = Some (Return 0,
          mkHost w' (fs hw)
            (actions hw ++
             map (fun e => Stdout (str_of_int (fst e) ++ tab ++ snd e)%string)
               (filter (fun e => String.eqb q EmptyString ||
                                 str_contains q (str_lower (snd e)))
                  items))).
Proof.
  intros Hp Hc Hl q. unfold main. rewrite Hp, Hc. simpl.
  unfold list_command, bind. rewrite host_in_capture_run, Hl. simpl.
  rewrite list_loop_run. simpl. unfold truthy. fold q.
  now rewrite negb_involutive.
Qed.



(** X22. Whenever the [capture] command returns, its code is 0 or 2.  It
    is 0 only when one image, built from a frame of three channels, has been
    saved, and then it was saved under the resolved output path, which did
    not exist when [main] began: no existing file is overwritten; the
    actions are the creation of the directory, that save and one line on the
    standard output.  When the code is 2, the directory has been created and
    at most lines on the standard error follow: nothing is saved. *)
Theorem main_capture_exit_code (fuel : nat) (argv : list string)
    (args : Namespace Path) (hw hw' : host_world) (code : Z) :
  parse_args argv = inl args ->
  cmd args = "capture"%string ->
  main fuel argv hw = Some (Return code, hw') ->
  exists out_path,
    _resolve_unique_path fuel (fs hw) (out args) = Some out_path /\
    path_exists (fs hw) out_path = false /\
    (code = 0 \/ code = 2) /\
    (code = 0 ->
     exists rgb img line,
       nchan rgb = 3%nat /\ Image_fromarray rgb = Ok img /\
       actions hw' = actions hw ++ [Mkdir (path_parent out_path);
                                    SavePng img (path_str out_path);
                                    Stdout line]) /\
    (code = 2 ->
     fst (path_mkdir (path_parent out_path) (fs hw)) = Ok tt /\
     fs hw' = snd (path_mkdir (path_parent out_path) (fs hw)) /\
     exists errs,
       actions hw' = actions hw ++ Mkdir (path_parent out_path) :: errs /\
       Forall (fun a => exists line, a = Stderr line) errs).
Proof.
  intros Hp Hc. unfold main. rewrite Hp, Hc. simpl.
  destruct (_resolve_unique_path fuel (fs hw) (out args))
    as [out_path|] eqn:Hr; [|discriminate].
  destruct (capture_command args out_path hw) as [r hw1] eqn:Hrun.
  intros E. injection E as E <-. destruct r as [c|e]; [|discriminate].
  injection E as ->.
  exists out_path. split; [reflexivity|].
  split; [eapply resolve_unique_path_fresh; exact Hr|].
  revert Hrun. unfold capture_command, bind at 1, fs_call.
  destruct (path_mkdir (path_parent out_path) (fs hw)) as [[[]|e] s1] eqn:Hm;
    [|discriminate].
  set (hw0 := mkHost (capture hw) s1
                (actions hw ++ [Mkdir (path_parent out_path)])).
  destruct (truthy (or_empty (window_title args))).
  - unfold bind at 1. rewrite host_in_capture_run.
    destruct (find_window_hwnd (or_empty (window_title args)) (exact args)
                false (capture hw0)) as [[[h|]|e] w1] eqn:Hf; simpl;
      [| |discriminate].
    + unfold bind at 1. rewrite host_in_capture_run. simpl.
      destruct (capture_window_rgb h (negb (include_borders args)) w1)
        as [[rgb|e] w2] eqn:Hcap; simpl; [|discriminate].
      unfold bind at 1.
      destruct (save_rgb_png rgb (path_str out_path)
                  (mkHost w2 s1
                     (actions hw ++ [Mkdir (path_parent out_path)])))
        as [[[]|e] hw2] eqn:Hs; [|discriminate].
      apply save_rgb_png_ok in Hs.
      destruct Hs as (img & _ & Hi & _ & _ & Ha).
      unfold bind, print, act, ret. intros E. injection E as <- <-.
      split; [now left|]. split; [|discriminate].
      intros _. exists rgb, img. eexists.
      split; [eapply capture_window_rgb_three; exact Hcap|].
      split; [exact Hi|].
      simpl. rewrite Ha. simpl. rewrite <- !app_assoc. reflexivity.
    + unfold bind, print_stderr, act, ret. intros E. injection E as <- <-.
      split; [now right|]. split; [discriminate|].
      intros _. simpl. split; [reflexivity|]. split; [reflexivity|].
      eexists. rewrite <- app_assoc. split; [reflexivity|].
      constructor; [eexists; reflexivity|constructor].
  - destruct (monitor args) as [m|].
    + unfold bind at 1. rewrite host_in_capture_run. simpl.
      destruct (capture_fullscreen_rgb m (capture hw))
        as [[rgb|e] w2] eqn:Hcap; simpl; [|discriminate].
      unfold bind at 1.
      destruct (save_rgb_png rgb (path_str out_path)
                  (mkHost w2 s1
                     (actions hw ++ [Mkdir (path_parent out_path)])))
        as [[[]|e] hw2] eqn:Hs; [|discriminate].
      apply save_rgb_png_ok in Hs.
      destruct Hs as (img & _ & Hi & _ & _ & Ha).
      unfold bind, print, act, ret. intros E. injection E as <- <-.
      split; [now left|]. split; [|discriminate].
      intros _. exists rgb, img. eexists.
      split; [eapply capture_fullscreen_rgb_three; exact Hcap|].
      split; [exact Hi|].
      simpl. rewrite Ha. simpl. rewrite <- !app_assoc. reflexivity.
    + unfold ret. intros E. injection E as <- <-.
      split; [now right|]. split; [discriminate|].
      intros _. simpl. split; [reflexivity|]. split; [reflexivity|].
      exists []. split; [reflexivity|constructor].
Qed.

End Facts.

(** *** The assumptions hold on the sample host *)

Import ToolSamples.

#[local] Existing Instance sample_platform.
#[local] Existing Instance sample_host.


Lemma main_list_lines_witness :
  exists items w',
    parse_args ["list"; "--contains"; " Foo "]%string
    = inl (mkNamespace "list" (Some " Foo "%string) None None false false
             "capture.png"%string) /\
    list_visible_windows (capture host0) = (Ok items, w') /\
    main 0 ["list"; "--contains"; " Foo "]%string host0
    = Some (Return 0,
            mkHost w' (fs host0)
              (actions host0 ++
               map (fun e => Stdout (str_of_int (fst e) ++ tab
                                       ++ snd e)%string)
                 (filter (fun e =>
                            String.eqb
                              (str_strip (str_lower " Foo "%string))
                              EmptyString ||
                            str_contains
                              (str_strip (str_lower " Foo "%string))
                              (str_lower (snd e)))
                    items))).
Proof.
  eexists. eexists. split; [reflexivity|]. split; [reflexivity|].
  exact (@main_list_lines sample_platform sample_host 0
           ["list"; "--contains"; " Foo "]%string
           (mkNamespace "list" (Some " Foo "%string) None None false false
              "capture.png"%string)
           host0 _ _ eq_refl eq_refl eq_refl).
Defined.



Lemma main_capture_exit_code_witness :
  exists hw',
    parse_args ["capture"; "--monitor"; "1"]%string
    = inl (mkNamespace "capture" None None (Some 1) false false
             "capture.png"%string) /\
    main 2 ["capture"; "--monitor"; "1"]%string host0
    = Some (Return 0, hw') /\
    exists out_path,
      _resolve_unique_path 2 (fs host0) "capture.png"%string
      = Some out_path /\
      path_exists (fs host0) out_path = false /\
      (0 = 0 \/ 0 = 2) /\
      (0 = 0 ->
       exists rgb img line,
         nchan rgb = 3%nat /\ Image_fromarray rgb = Ok img /\
         actions hw' = actions host0 ++ [Mkdir (path_parent out_path);
                                         SavePng img (path_str out_path);
                                         Stdout line]) /\
      (0 = 2 ->
       fst (path_mkdir (path_parent out_path) (fs host0)) = Ok tt /\
       fs hw' = snd (path_mkdir (path_parent out_path) (fs host0)) /\
       exists errs,
         actions hw' = actions host0 ++ Mkdir (path_parent out_path) :: errs /\
         Forall (fun a => exists line, a = Stderr line) errs).
Proof.
  eexists. split; [reflexivity|]. split; [reflexivity|].
  exact (@main_capture_exit_code sample_platform sample_host 2
           ["capture"; "--monitor"; "1"]%string
           (mkNamespace "capture" None None (Some 1) false false
              "capture.png"%string)
           host0 _ 0 eq_refl eq_refl eq_refl).
Defined.

(** A capture on the sample host: the two earlier captures are left alone
    and the frame goes to [capture2.png]; with too little fuel the search
    for that name is cut short. *)
Example main_capture_sample :
  option_map fst (main 2 ["capture"; "--monitor"; "1"]%string host0)
  = Some (Return 0) /\
  option_map (fun r => fs (snd r))
    (main 2 ["capture"; "--monitor"; "1"]%string host0)
  = Some ["capture2.png"; "capture.png"; "capture1.png"]%string /\
  main 1 ["capture"; "--monitor"; "1"]%string host0 = None /\
  option_map fst (main 2 ["capture"; "--monitor"; "7"]%string host0)
  = Some (Uncaught ValueError) /\
  option_map fst (main 2 ["shoot"]%string host0) = Some (SystemExit 2).
Proof. repeat split. Qed.

End CaptureScreenFacts.

(** *** tools/test_input.py *)

Module TestInputFacts.
Import WindowsCapture WindowsInput WindowsInputFacts WindowsInputRuns.
Import TestInput.

(** Half of a non-negative extent, in doubles, lies between the two
    integers nearest to it. *)
Lemma int_truediv_half (extent : Z) :
  0 <= extent < 2 ^ 53 ->
  exists half, int_truediv extent 2 = Ok half /\
               SF_between (extent / 2) ((extent + 1) / 2) half.
Proof.
  intros He.
  destruct (Z.eq_dec extent 0) as [->|Hne].
  - exists (S754_zero false). split; [reflexivity|].
    cbn [SF_between]. change (0 / 2) with 0. change ((0 + 1) / 2) with 0.
    lia.
  - destruct (@int_truediv_pos extent 2 ltac:(lia)
                ltac:(split; [lia|reflexivity]))
      as (m & e & Hq & Hle & Hlo & Hhi & _).
    exists (S754_finite false m e). split; [exact Hq|].
    cbn [SF_between cond_Zopp]. split; [exact Hle|]. split.
    + apply Hlo. pose proof (Z.mul_div_le extent 2 ltac:(lia)). lia.
    + apply Hhi.
      pose proof (Z.mul_succ_div_gt (extent + 1) 2 ltac:(lia)). lia.
Qed.

Lemma center_between (origin extent : Z) :
  Z.abs origin < 2 ^ 52 -> 0 <= extent < 2 ^ 52 ->
  exists c, center origin extent = Ok c /\
            origin + extent / 2 <= c <= origin + (extent + 1) / 2.
Proof.
  intros Ho He.
  assert (H52 : 2 ^ 53 = 2 * 2 ^ 52) by reflexivity.
  assert (Hp : 0 < 2 ^ 52) by reflexivity.
  destruct (@int_truediv_half extent ltac:(lia)) as (half & Hh & Hb).
  destruct (@float_of_int_exact origin ltac:(lia)) as (o & Hfo & Hob).
  assert (H1 : 0 <= extent / 2) by (apply Z.div_pos; lia).
  assert (H2 : (extent + 1) / 2 <= 2 ^ 51).
  { apply Z.div_le_upper_bound; [lia|].
    change (2 * 2 ^ 51) with (2 ^ 52). lia. }
  assert (H51 : 2 ^ 52 = 2 * 2 ^ 51) by reflexivity.
  pose proof (@fadd_between origin origin (extent / 2) ((extent + 1) / 2)
                o half Hob Hb ltac:(lia) ltac:(lia)) as Hsum.
  destruct (@int_of_float_between _ _ _ Hsum) as (c & Hc & Hcb).
  exists c. split; [|exact Hcb].
  unfold center. now rewrite Hh, Hfo.
Qed.

Lemma half_bounds (extent : Z) :
  0 <= extent -> 0 <= extent / 2 /\ (extent + 1) / 2 <= extent.
Proof.
  intros He. split; [apply Z.div_pos; lia|].
  destruct (Z.eq_dec extent 0) as [->|]; [reflexivity|].
  apply Z.div_le_upper_bound; lia.
Qed.

Section Facts.
Context {P : Platform} {S : Screen} {A : Args}.

Lemma tool_in_capture_run {T} (m : M world T) (tw : tool_world) :
  in_capture m tw
  = (fst (m (capture tw)),
     mkTool (snd (m (capture tw))) (trace tw) (stdout tw)).
Proof. unfold in_capture. now destruct (m (capture tw)). Qed.

Lemma tool_in_input_run {T} (m : M (list event) T) (tw : tool_world) :
  in_input m tw
  = (fst (m (trace tw)),
     mkTool (capture tw) (snd (m (trace tw))) (stdout tw)).
Proof. unfold in_input. now destruct (m (trace tw)). Qed.

(** The part of [main] shared by the two commands: the window is found,
    its client rectangle read and its centre computed. *)
Lemma main_body_found (args : Namespace) (tw : tool_world) (h : Z)
    (w1 w2 : world) (rect : Rect) (cx cy : Z) :
  find_window_hwnd (window_title args) false false (capture tw)
  = (Ok (Some h), w1) ->
  h <> 0 ->
  get_window_rect h true w1 = (Ok rect, w2) ->
  center (left rect) (width rect) = Ok cx ->
  center (top rect) (height rect) = Ok cy ->
  main_body args tw
  = ((if String.eqb (cmd args) "click-center" then
        print ("Clicking at " ++ point_str cx cy
                 ++ " in 2 seconds...")%string ;;;
        in_input (sleep f_2) ;;;
        in_input (click_at cx cy f_0_05) ;;;
        print "Clicked."%string
      else if String.eqb (cmd args) "drag-test" then
        print ("Dragging from " ++ point_str cx cy ++ " to "
                 ++ point_str (cx + dx args) (cy + dy args)
                 ++ " in 2 seconds...")%string ;;;
        in_input (sleep f_2) ;;;
        in_input (drag cx cy (cx + dx args) (cy + dy args) f_1) ;;;
        print "Dragged."%string
      else ret tt) ;;; ret 0)
      (mkTool w2 (trace tw)
         (stdout tw ++ [("Found window at: " ++ Rect_repr rect)%string])).
Proof.
  intros Hf Hh Hr Hcx Hcy.
  unfold main_body. unfold bind at 1. rewrite tool_in_capture_run, Hf. simpl.
  replace (h =? 0) with false by (symmetry; now apply Z.eqb_neq).
  unfold bind at 1. rewrite tool_in_capture_run. simpl. rewrite Hr. simpl.
  unfold bind at 1, print at 1. simpl.
  unfold bind at 1, lift at 1. rewrite Hcx.
  unfold bind at 1, lift at 1. rewrite Hcy.
  reflexivity.
Qed.

(** X23. For a rectangle within 2^52 pixels, the centre that [main]
    computes, [int(left + width / 2)] and [int(top + height / 2)] in
    doubles, is defined, lies within half a pixel of the exact midpoint
    (between its floor and its ceiling) and so within the rectangle; on a
    rectangle of negative extent it is the corner [(left, top)]. *)
Theorem center_in_rect (r : Rect) :
  Z.abs (left r) < 2 ^ 52 -> Z.abs (top r) < 2 ^ 52 ->
  width r < 2 ^ 52 -> height r < 2 ^ 52 ->
  exists cx cy,
    center (left r) (width r) = Ok cx /\
    center (top r) (height r) = Ok cy /\
    left r + width r / 2 <= cx <= left r + (width r + 1) / 2 /\
    top r + height r / 2 <= cy <= top r + (height r + 1) / 2 /\
    left r <= cx <= left r + width r /\
    top r <= cy <= top r + height r /\
    (left r <= right r -> cx <= right r) /\
    (top r <= bottom r -> cy <= bottom r) /\
    (right r < left r -> cx = left r) /\
    (bottom r < top r -> cy = top r).
Proof.
  intros Hl Ht Hw Hh.
  assert (H0w : 0 <= width r) by (unfold width; lia).
  assert (H0h : 0 <= height r) by (unfold height; lia).
  destruct (@center_between (left r) (width r) Hl ltac:(lia))
    as (cx & Hcx & Hbx).
  destruct (@center_between (top r) (height r) Ht ltac:(lia))
    as (cy & Hcy & Hby).
  exists cx, cy.
  pose proof (@half_bounds (width r) H0w) as Hdw.
  pose proof (@half_bounds (height r) H0h) as Hdh.
  repeat split; try assumption; try lia.
  - intros Hlr. unfold width in *. lia.
  - intros Htb. unfold height in *. lia.
  - intros Hlr. unfold width in *.
    replace (Z.max 0 (right r - left r)) with 0 in * by lia.
    change (0 / 2) with 0 in Hbx. change ((0 + 1) / 2) with 0 in Hbx. lia.
  - intros Htb. unfold height in *.
    replace (Z.max 0 (bottom r - top r)) with 0 in * by lia.
    change (0 / 2) with 0 in Hby. change ((0 + 1) / 2) with 0 in Hby. lia.
Qed.

(** X24. When no visible window matches the title, and also when the
    window found has the handle 0, [main] prints that the window was not
    found and returns 1: no rectangle is read and no input is injected. *)
Theorem main_window_not_found (argv : list string) (args : Namespace)
    (tw : tool_world) (hwnd : option Z) (w' : world) :
  parse_args argv = inl args ->
  find_window_hwnd (window_title args) false false (capture tw)
  = (Ok hwnd, w') ->
  hwnd = None \/ hwnd = Some 0 ->
  main argv tw
  = (Return 1,
     mkTool w' (trace tw)
       (stdout tw ++ [("Window '" ++ window_title args
                         ++ "' not found.")%string])).
Proof.
  intros Hp Hf Hh. unfold main. rewrite Hp.
  unfold main_body, bind at 1. rewrite tool_in_capture_run, Hf. simpl.
  replace (falsy hwnd) with true by (destruct Hh as [->| ->]; reflexivity).
  reflexivity.
Qed.

(** X25. The [click-center] command on a window that is found, with a
    client rectangle and a screen within 2^32 pixels: [main] returns 0
    after waiting 2 s and clicking once, with the left button held for
    0.05 s, at the centre of the client rectangle, a pixel of that
    rectangle; it prints the rectangle, the announcement and [Clicked.]. *)
Theorem main_click_center (argv : list string) (args : Namespace)
    (tw : tool_world) (h : Z) (w1 w2 : world) (rect : Rect) :
  0 < SM_CXSCREEN <= 2 ^ 32 -> 0 < SM_CYSCREEN <= 2 ^ 32 ->
  parse_args argv = inl args ->
  cmd args = "click-center"%string ->
  find_window_hwnd (window_title args) false false (capture tw)
  = (Ok (Some h), w1) ->
  h <> 0 ->
  get_window_rect h true w1 = (Ok rect, w2) ->
  Z.abs (left rect) + width rect <= 2 ^ 32 ->
  Z.abs (top rect) + height rect <= 2 ^ 32 ->
  exists cx cy,
    center (left rect) (width rect) = Ok cx /\
    center (top rect) (height rect) = Ok cy /\
    left rect <= cx <= left rect + width rect /\
    top rect <= cy <= top rect + height rect /\
    main argv tw
    = (Return 0,
       mkTool w2
         (trace tw ++ [Sleep f_2; move_event cx cy; Sleep f_0_02;
                       down_event; Sleep f_0_05; up_event])
         (stdout tw ++
          [("Found window at: " ++ Rect_repr rect)%string;
           ("Clicking at " ++ point_str cx cy
              ++ " in 2 seconds...")%string;
           "Clicked."%string])).
Proof.
  intros HW HH Hp Hc Hf Hh Hr Hbx Hby.
  assert (H32 : 2 ^ 32 * 65535 + 2 ^ 32 <= 2 ^ 52)
    by (vm_compute; discriminate).
  assert (H3252 : 2 ^ 32 < 2 ^ 52) by reflexivity.
  assert (H0w : 0 <= width rect) by (unfold width; lia).
  assert (H0h : 0 <= height rect) by (unfold height; lia).
  destruct (@center_between (left rect) (width rect) ltac:(lia) ltac:(lia))
    as (cx & Hcx & Hbcx).
  destruct (@center_between (top rect) (height rect) ltac:(lia) ltac:(lia))
    as (cy & Hcy & Hbcy).
  pose proof (@half_bounds (width rect) H0w) as Hdw.
  pose proof (@half_bounds (height rect) H0h) as Hdh.
  exists cx, cy. split; [exact Hcx|]. split; [exact Hcy|].
  split; [lia|]. split; [lia|].
  unfold main. rewrite Hp.
  rewrite (@main_body_found args tw h w1 w2 rect cx cy Hf Hh Hr Hcx Hcy).
  rewrite Hc. simpl String.eqb. cbv iota.
  unfold bind at 1. unfold bind at 1. unfold print at 1.
  cbn [capture trace stdout].
  unfold bind at 1. rewrite tool_in_input_run. cbn [capture trace stdout].
  rewrite sleep_trace by reflexivity. cbn [fst snd].
  unfold bind at 1. rewrite tool_in_input_run. cbn [capture trace stdout].
  rewrite click_at_run by (reflexivity || lia). cbn [fst snd].
  unfold print, ret. cbn [capture trace stdout finish].
  repeat rewrite <- app_assoc. reflexivity.
Qed.

(** X26. The [drag-test] command on a window that is found, with a
    client rectangle, a screen and deltas within 2^32 pixels: [main]
    returns 0 after waiting 2 s and dragging, with the left button, from the
    centre of the client rectangle to the centre displaced by [(dx, dy)], in
    60 steps of 1/60 s whose waypoints all lie in the bounding box of the two
    ends; the last pointer move is the move to the displaced centre. *)
Theorem main_drag_test (argv : list string) (args : Namespace)
    (tw : tool_world) (h : Z) (w1 w2 : world) (rect : Rect) :
  0 < SM_CXSCREEN <= 2 ^ 32 -> 0 < SM_CYSCREEN <= 2 ^ 32 ->
  parse_args argv = inl args ->
  cmd args = "drag-test"%string ->
  find_window_hwnd (window_title args) false false (capture tw)
  = (Ok (Some h), w1) ->
  h <> 0 ->
  get_window_rect h true w1 = (Ok rect, w2) ->
  Z.abs (left rect) + width rect <= 2 ^ 32 ->
  Z.abs (top rect) + height rect <= 2 ^ 32 ->
  Z.abs (dx args) <= 2 ^ 32 -> Z.abs (dy args) <= 2 ^ 32 ->
  exists cx cy wps tw',
    center (left rect) (width rect) = Ok cx /\
    center (top rect) (height rect) = Ok cy /\
    main argv tw = (Return 0, tw') /\
    capture tw' = w2 /\
    trace tw'
    = trace tw ++ [Sleep f_2; move_event cx cy; Sleep f_0_05; down_event;
                   Sleep f_0_05]
        ++ flat_map (fun p => [move_event (fst p) (snd p);
                               Sleep (fdiv f_1 f_60)]) wps
        ++ [move_event (cx + dx args) (cy + dy args); Sleep f_0_05;
            up_event] /\
    List.length wps = 60%nat /\
    Forall (in_box cx cy (cx + dx args) (cy + dy args)) wps /\
    last_move (trace tw') None
    = Some (c_long (Z.quot ((cx + dx args) * 65535) SM_CXSCREEN),
            c_long (Z.quot ((cy + dy args) * 65535) SM_CYSCREEN)) /\
    stdout tw'
    = stdout tw ++
      [("Found window at: " ++ Rect_repr rect)%string;
       ("Dragging from " ++ point_str cx cy ++ " to "
          ++ point_str (cx + dx args) (cy + dy args)
          ++ " in 2 seconds...")%string;
       "Dragged."%string].
Proof.
  intros HW HH Hp Hc Hf Hh Hr Hbx Hby Hdx Hdy.
  assert (H32 : 2 * 2 ^ 32 * 65535 + 2 ^ 32 <= 2 ^ 52)
    by (vm_compute; discriminate).
  assert (H3252 : 2 ^ 32 < 2 ^ 52) by reflexivity.
  assert (H0w : 0 <= width rect) by (unfold width; lia).
  assert (H0h : 0 <= height rect) by (unfold height; lia).
  destruct (@center_between (left rect) (width rect) ltac:(lia) ltac:(lia))
    as (cx & Hcx & Hbcx).
  destruct (@center_between (top rect) (height rect) ltac:(lia) ltac:(lia))
    as (cy & Hcy & Hbcy).
  pose proof (@half_bounds (width rect) H0w) as Hdw.
  pose proof (@half_bounds (height rect) H0h) as Hdh.
  assert (Hsteps : drag_steps f_1 = Ok 60) by (vm_compute; reflexivity).
  destruct (@drag_run S cx cy (cx + dx args) (cy + dy args) f_1 60
              (trace tw ++ [Sleep f_2])
              ltac:(lia) ltac:(lia) ltac:(lia) ltac:(lia) ltac:(lia)
              ltac:(lia) eq_refl Hsteps)
    as (fs & wps & Hfs & Hw2 & Hbox & Hdrag).
  assert (fs = f_60) by (vm_compute in Hfs; now injection Hfs as <-).
  subst fs.
  exists cx, cy, wps. eexists.
  split; [exact Hcx|]. split; [exact Hcy|].
  split.
  { unfold main. rewrite Hp.
    rewrite (@main_body_found args tw h w1 w2 rect cx cy Hf Hh Hr Hcx Hcy).
    rewrite Hc. simpl String.eqb. cbv iota.
    unfold bind at 1. unfold bind at 1. unfold print at 1.
    cbn [capture trace stdout].
    unfold bind at 1. rewrite tool_in_input_run. cbn [capture trace stdout].
    rewrite sleep_trace by reflexivity. cbn [fst snd].
    unfold bind at 1. rewrite tool_in_input_run. cbn [capture trace stdout].
    rewrite Hdrag. cbn [fst snd].
    unfold print, ret. cbn [capture trace stdout finish]. reflexivity. }
  cbn [capture trace stdout].
  split; [reflexivity|].
  split; [now rewrite <- app_assoc|].
  split.
  { rewrite <- (Forall2_length Hw2). reflexivity. }
  split; [exact Hbox|].
  split.
  { rewrite !app_assoc. rewrite last_move_app. reflexivity. }
  repeat rewrite <- app_assoc. reflexivity.
Qed.

End Facts.

(** *** The assumptions hold on the sample desktop *)

Import ToolSamples.

#[local] Existing Instance sample_platform.
#[local] Existing Instance screen_1920x1080.
#[local] Existing Instance sample_args.

Lemma center_in_rect_witness :
  (Z.abs (left (mkRect 8 31 11 33)) < 2 ^ 52 /\
   Z.abs (top (mkRect 8 31 11 33)) < 2 ^ 52 /\
   width (mkRect 8 31 11 33) < 2 ^ 52 /\
   height (mkRect 8 31 11 33) < 2 ^ 52) /\
  exists cx cy,
    center 8 3 = Ok cx /\ center 31 2 = Ok cy /\
    8 + 3 / 2 <= cx <= 8 + (3 + 1) / 2 /\
    31 + 2 / 2 <= cy <= 31 + (2 + 1) / 2 /\
    8 <= cx <= 8 + 3 /\ 31 <= cy <= 31 + 2 /\
    (8 <= 11 -> cx <= 11) /\ (31 <= 33 -> cy <= 33) /\
    (11 < 8 -> cx = 8) /\ (33 < 31 -> cy = 31).
Proof.
  assert (H1 : Z.abs (left (mkRect 8 31 11 33)) < 2 ^ 52) by reflexivity.
  assert (H2 : Z.abs (top (mkRect 8 31 11 33)) < 2 ^ 52) by reflexivity.
  assert (H3 : width (mkRect 8 31 11 33) < 2 ^ 52) by reflexivity.
  assert (H4 : height (mkRect 8 31 11 33) < 2 ^ 52) by reflexivity.
  split; [repeat split; assumption|].
  exact (@center_in_rect (mkRect 8 31 11 33) H1 H2 H3 H4).
Defined.

Lemma main_window_not_found_witness :
  exists w',
    parse_args ["--window-title"; "qux"; "click-center"]%string
    = inl (mkNamespace "qux" "click-center" 100 0) /\
    find_window_hwnd "qux" false false (capture tool0) = (Ok None, w') /\
    (@None Z = None \/ None = Some 0) /\
    main ["--window-title"; "qux"; "click-center"]%string tool0
    = (Return 1,
       mkTool w' (trace tool0)
         (stdout tool0 ++ [("Window '" ++ "qux" ++ "' not found.")%string])).
Proof.
  eexists. split; [reflexivity|]. split; [reflexivity|].
  split; [left; reflexivity|].
  exact (@main_window_not_found sample_platform screen_1920x1080 sample_args
           ["--window-title"; "qux"; "click-center"]%string
           (mkNamespace "qux" "click-center" 100 0) tool0 None _
           eq_refl eq_refl (or_introl eq_refl)).
Defined.

Lemma main_click_center_witness :
  exists w1 w2,
    (0 < SM_CXSCREEN <= 2 ^ 32 /\ 0 < SM_CYSCREEN <= 2 ^ 32 /\
     parse_args ["--window-title"; "foo"; "click-center"]%string
     = inl (mkNamespace "foo" "click-center" 100 0) /\
     find_window_hwnd "foo" false false (capture tool0)
     = (Ok (Some 100), w1) /\
     100 <> 0 /\
     get_window_rect 100 true w1 = (Ok (mkRect 8 31 10 33), w2) /\
     Z.abs 8 + width (mkRect 8 31 10 33) <= 2 ^ 32 /\
     Z.abs 31 + height (mkRect 8 31 10 33) <= 2 ^ 32) /\
    exists cx cy,
      center 8 (width (mkRect 8 31 10 33)) = Ok cx /\
      center 31 (height (mkRect 8 31 10 33)) = Ok cy /\
      8 <= cx <= 8 + width (mkRect 8 31 10 33) /\
      31 <= cy <= 31 + height (mkRect 8 31 10 33) /\
      main ["--window-title"; "foo"; "click-center"]%string tool0
      = (Return 0,
         mkTool w2
           (trace tool0 ++ [Sleep f_2; move_event cx cy; Sleep f_0_02;
                            down_event; Sleep f_0_05; up_event])
           (stdout tool0 ++
            [("Found window at: " ++ Rect_repr (mkRect 8 31 10 33))%string;
             ("Clicking at " ++ point_str cx cy
                ++ " in 2 seconds...")%string;
             "Clicked."%string])).
Proof.
  assert (H1 : 0 < SM_CXSCREEN <= 2 ^ 32)
    by (split; [reflexivity | vm_compute; discriminate]).
  assert (H2 : 0 < SM_CYSCREEN <= 2 ^ 32)
    by (split; [reflexivity | vm_compute; discriminate]).
  assert (H3 : 100 <> 0) by discriminate.
  assert (H4 : Z.abs 8 + width (mkRect 8 31 10 33) <= 2 ^ 32)
    by (vm_compute; discriminate).
  assert (H5 : Z.abs 31 + height (mkRect 8 31 10 33) <= 2 ^ 32)
    by (vm_compute; discriminate).
  eexists. eexists. split.
  { split; [exact H1|]. split; [exact H2|]. split; [reflexivity|].
    split; [reflexivity|]. split; [exact H3|]. split; [reflexivity|].
    split; [exact H4|exact H5]. }
  exact (@main_click_center sample_platform screen_1920x1080 sample_args
           ["--window-title"; "foo"; "click-center"]%string
           (mkNamespace "foo" "click-center" 100 0) tool0 100 _ _
           (mkRect 8 31 10 33) H1 H2 eq_refl eq_refl eq_refl H3 eq_refl
           H4 H5).
Defined.

Lemma main_drag_test_witness :
  exists w1 w2,
    (0 < SM_CXSCREEN <= 2 ^ 32 /\ 0 < SM_CYSCREEN <= 2 ^ 32 /\
     parse_args ["--window-title"; "foo"; "drag-test"]%string
     = inl (mkNamespace "foo" "drag-test" 100 0) /\
     find_window_hwnd "foo" false false (capture tool0)
     = (Ok (Some 100), w1) /\
     100 <> 0 /\
     get_window_rect 100 true w1 = (Ok (mkRect 8 31 10 33), w2) /\
     Z.abs 8 + width (mkRect 8 31 10 33) <= 2 ^ 32 /\
     Z.abs 31 + height (mkRect 8 31 10 33) <= 2 ^ 32 /\
     Z.abs 100 <= 2 ^ 32 /\ Z.abs 0 <= 2 ^ 32) /\
    exists cx cy wps tw',
      center 8 (width (mkRect 8 31 10 33)) = Ok cx /\
      center 31 (height (mkRect 8 31 10 33)) = Ok cy /\
      main ["--window-title"; "foo"; "drag-test"]%string tool0
      = (Return 0, tw') /\
      capture tw' = w2 /\
      trace tw'
      = trace tool0 ++ [Sleep f_2; move_event cx cy; Sleep f_0_05;
                        down_event; Sleep f_0_05]
          ++ flat_map (fun p => [move_event (fst p) (snd p);
                                 Sleep (fdiv f_1 f_60)]) wps
          ++ [move_event (cx + 100) (cy + 0); Sleep f_0_05; up_event] /\
      List.length wps = 60%nat /\
      Forall (in_box cx cy (cx + 100) (cy + 0)) wps /\
      last_move (trace tw') None
      = Some (c_long (Z.quot ((cx + 100) * 65535) SM_CXSCREEN),
              c_long (Z.quot ((cy + 0) * 65535) SM_CYSCREEN)) /\
      stdout tw'
      = stdout tool0 ++
        [("Found window at: " ++ Rect_repr (mkRect 8 31 10 33))%string;
         ("Dragging from " ++ point_str cx cy ++ " to "
            ++ point_str (cx + 100) (cy + 0)
            ++ " in 2 seconds...")%string;
         "Dragged."%string].
Proof.
  assert (H1 : 0 < SM_CXSCREEN <= 2 ^ 32)
    by (split; [reflexivity | vm_compute; discriminate]).
  assert (H2 : 0 < SM_CYSCREEN <= 2 ^ 32)
    by (split; [reflexivity | vm_compute; discriminate]).
  assert (H3 : 100 <> 0) by discriminate.
  assert (H4 : Z.abs 8 + width (mkRect 8 31 10 33) <= 2 ^ 32)
    by (vm_compute; discriminate).
  assert (H5 : Z.abs 31 + height (mkRect 8 31 10 33) <= 2 ^ 32)
    by (vm_compute; discriminate).
  assert (H6 : Z.abs 100 <= 2 ^ 32) by (vm_compute; discriminate).
  assert (H7 : Z.abs 0 <= 2 ^ 32) by (vm_compute; discriminate).
  eexists. eexists. split.
  { split; [exact H1|]. split; [exact H2|]. split; [reflexivity|].
    split; [reflexivity|]. split; [exact H3|]. split; [reflexivity|].
    split; [exact H4|]. split; [exact H5|]. split; [exact H6|exact H7]. }
  exact (@main_drag_test sample_platform screen_1920x1080 sample_args
           ["--window-title"; "foo"; "drag-test"]%string
           (mkNamespace "foo" "drag-test" 100 0) tool0 100 _ _
           (mkRect 8 31 10 33) H1 H2 eq_refl eq_refl eq_refl H3 eq_refl
           H4 H5 H6 H7).
Defined.

(** The two commands on the sample desktop: the centre of the client
    rectangle (8, 31)-(10, 33) is the pixel (9, 32). *)
Example main_sample_output :
  stdout (snd (main ["--window-title"; "foo"; "click-center"]%string tool0))
  = ["Found window at: Rect(left=8, top=31, right=10, bottom=33)";
     "Clicking at (9, 32) in 2 seconds..."; "Clicked."]%string /\
  stdout (snd (main ["--window-title"; "foo"; "drag-test"]%string tool0))
  = ["Found window at: Rect(left=8, top=31, right=10, bottom=33)";
     "Dragging from (9, 32) to (109, 32) in 2 seconds..."; "Dragged."]%string.
Proof. split; vm_compute; reflexivity. Qed.

End TestInputFacts.
